(** * News de-duplication pipeline: ingestion, duplicate detection, alert admission

    A shallow embedding of the services of the news-duplication system and
    of the utilities they call:

    - [NewsProcessor]   : [normalizeForHashing], [generateContentHash],
                          [generateSummary], [cleanText], [chunkArray],
                          [processArticle] (the URL and content-hash
                          short-circuit);
    - [DeduplicationEngine] : the per-pair signals, [calculateSimilarityScore],
                          [determinePrimaryMethod], [analyzeSimilarities],
                          [identifyDuplicates], [getCandidateArticles],
                          [processDuplicates], [markAsUnique],
                          [markAsDuplicate], [performDeduplication];
    - [DeduplicationWorker] : the processing queue of the engine with its
                          statistics: [processArticle], [processQueue] and
                          the counters of [performDeduplication];
    - [Double]          : the numbers of JavaScript, IEEE 754 binary64;
    - [DoubleEngine]    : the scoring and the decisions of the engine as the
                          code computes them, in double precision: the six
                          signals, [calculateSimilarityScore],
                          [analyzeSimilarities], [identifyDuplicates] and
                          [performDeduplication];
    - [DoubleVector]    : [cosineSimilarity] in double precision;
    - [SimpleTfIdf]     : the TF-IDF vectors of the content signal;
    - [Vector]          : the cosine over the reals and the pseudo-vector
                          of [generateMockEmbedding];
    - [VectorSimilarity] : [generateCacheKey], [cacheEmbedding],
                          [truncateText], [generateEmbedding], the two
                          distances and [assignToClusters] (in double
                          precision);
    - [ClusteringEngine] : [calculateClusterSimilarity],
                          [findCandidateClusters],
                          [calculateClusterToClusterSimilarity],
                          [findMergeCandidates];
    - [EntityExtractor] : [isValidEntity], [filterAndDeduplicate];
    - [AlertManager]    : [checkRateLimit], [isInCooldown],
                          [meetsQualityThreshold], [calculatePriority],
                          [determineChannels], [processAlert],
                          [processAlertQueue], [sendAlert], [trackAlert],
                          [cleanupAlertHistory];
    - [DatabaseManager] : the article and duplicate collections with their
                          unique indexes.

    Modelling conventions.

    - Text is a [string] of 8-bit characters, read as the Latin-1 code points
      0..255 of a JavaScript string.  The regular-expression classes are the
      JavaScript ones restricted to that range: [\w] is [[A-Za-z0-9_]], [\s]
      is TAB, LF, VT, FF, CR, SPACE and NBSP.
    - JavaScript numbers are IEEE 754 doubles.  Wherever a result depends
      on rounding (the weighted score and its comparison with the filter
      and the thresholds, the cosine of two embeddings, the distances, the
      assignment to clusters) they are modelled as such: [Double] is the
      binary64 format with its correctly rounded operations, and
      [DoubleEngine], [DoubleVector] and [VectorSimilarity] compute in it,
      operation by operation.  [DeduplicationEngine] keeps the same
      functions over exact rationals ([Q]); it serves for what holds
      whatever the scores are (the election of the original, the links,
      the markings) and for bounds that are stated for exact arithmetic.
      [SimpleTfIdf] and the pseudo-vector, which need a logarithm or a
      sine, are modelled over [R].
    - Time stamps ([Date]) are milliseconds since the epoch, in [Z]; the
      clock is an argument [now] of every operation that reads it.
    - [async] functions are run to completion one after the other; a thrown
      exception is an explicit result that keeps the writes made before it.
      Nothing is stated about calls that overlap in time.
    - The list [alerts] of the alert manager is the alert collection of a
      store that accepts every insert.  A failing [insertAlert] is caught
      by [storeAlert] and changes nothing else, so what is stated of the
      queue, the counters and the history does not depend on that list.
    - Services outside the repository (the message digest of [crypto], the
      Dice coefficient of [string-similarity], the stop-word list,
      [Math.log], the embedding provider) and the entity extractor, whose
      output the engine only reads, are fields of a record of externals;
      the default digest, SHA-256, is also given in full.
    - Logging, the statistics counters of the ingestion stage, the
      centroids of the clustering cache and the optional full-page
      extraction (which only adds a field that no stage reads) are left
      out.  The statistics of the de-duplication stage are those of
      [DeduplicationWorker]. *)

From Stdlib Require Import ZArith QArith Qminmax Lia List Bool Arith.
From Stdlib Require Import Sorted Permutation SpecFloat.
From Stdlib Require Import Strings.String Strings.Ascii.
From Stdlib Require Import Reals Lra Lqa.
Import ListNotations.

Local Close Scope R_scope.
Local Close Scope Q_scope.
Local Open Scope string_scope.
Local Open Scope list_scope.

(* ===================================================================== *)
(** * Text: the string primitives the services use *)
(* ===================================================================== *)

Module Text.

Definition code (c : ascii) : nat := nat_of_ascii c.

Definition between (lo hi n : nat) : bool := (lo <=? n)%nat && (n <=? hi)%nat.

Definition isDigit (c : ascii) : bool := between 48 57 (code c).
Definition isUpperAscii (c : ascii) : bool := between 65 90 (code c).
Definition isLowerAscii (c : ascii) : bool := between 97 122 (code c).

(** [\w] *)
Definition isWordChar (c : ascii) : bool :=
  isUpperAscii c || isLowerAscii c || isDigit c || (code c =? 95)%nat.

(** [\s] on code points below 256 *)
Definition isSpace (c : ascii) : bool :=
  between 9 13 (code c) || (code c =? 32)%nat || (code c =? 160)%nat.

(** The Latin-1 capitals other than the multiplication sign. *)
Definition isUpperLatin1 (c : ascii) : bool :=
  between 192 222 (code c) && negb (code c =? 215)%nat.

Definition toLowerChar (c : ascii) : ascii :=
  if isUpperAscii c || isUpperLatin1 c then ascii_of_nat (code c + 32) else c.

(** [s.toLowerCase()] *)
Fixpoint toLowerCase (s : string) : string :=
  match s with
  | EmptyString => EmptyString
  | String c s' => String (toLowerChar c) (toLowerCase s')
  end.

(** [s.replace(/[^\w\s]/g, '')] *)
Fixpoint stripNonWord (s : string) : string :=
  match s with
  | EmptyString => EmptyString
  | String c s' =>
      if isWordChar c || isSpace c then String c (stripNonWord s')
      else stripNonWord s'
  end.

(** [s.replace(/[^\w\s]/g, ' ')] *)
Fixpoint blankNonWord (s : string) : string :=
  match s with
  | EmptyString => EmptyString
  | String c s' =>
      String (if isWordChar c || isSpace c then c else " "%char) (blankNonWord s')
  end.

(** [s.replace(/\s+/g, ' ')]: every maximal run of white space becomes one
    space.  [inRun] tells that the previous character belonged to the run
    being replaced. *)
Fixpoint collapseFrom (inRun : bool) (s : string) : string :=
  match s with
  | EmptyString => EmptyString
  | String c s' =>
      if isSpace c
      then if inRun then collapseFrom true s'
           else String " "%char (collapseFrom true s')
      else String c (collapseFrom false s')
  end.

Definition collapseWhitespace (s : string) : string := collapseFrom false s.

Fixpoint trimStart (s : string) : string :=
  match s with
  | EmptyString => EmptyString
  | String c s' => if isSpace c then trimStart s' else s
  end.

Fixpoint trimEnd (s : string) : string :=
  match s with
  | EmptyString => EmptyString
  | String c s' =>
      match trimEnd s' with
      | EmptyString => if isSpace c then EmptyString else String c EmptyString
      | t => String c t
      end
  end.

(** [s.trim()] *)
Definition trim (s : string) : string := trimEnd (trimStart s).

(** [s.startsWith(p)] *)
Fixpoint startsWith (p s : string) : bool :=
  match p, s with
  | EmptyString, _ => true
  | String a p', String b s' => Ascii.eqb a b && startsWith p' s'
  | String _ _, EmptyString => false
  end.

(** [s.includes(k)] *)
Fixpoint includes (k s : string) : bool :=
  startsWith k s ||
  match s with
  | EmptyString => false
  | String _ s' => includes k s'
  end.

(** [s.split(/[...]+/)] for a character class [sep]: the pieces between
    maximal runs of separators; a run at either end leaves an empty piece
    there. *)
Fixpoint splitRuns (sep : ascii -> bool) (s : string) : list string :=
  match s with
  | EmptyString => [EmptyString]
  | String c s' =>
      if sep c
      then match s' with
           | String c' _ =>
               if sep c' then splitRuns sep s'
               else EmptyString :: splitRuns sep s'
           | EmptyString => EmptyString :: splitRuns sep s'
           end
      else match splitRuns sep s' with
           | w :: ws => String c w :: ws
           | [] => [String c EmptyString]
           end
  end.

(** [s.split(/\s+/)] *)
Definition splitWhitespace (s : string) : list string := splitRuns isSpace s.

(** [s.split(' ')] *)
Fixpoint splitSpace (s : string) : list string :=
  match s with
  | EmptyString => [EmptyString]
  | String c s' =>
      if Ascii.eqb c " "%char then EmptyString :: splitSpace s'
      else match splitSpace s' with
           | w :: ws => String c w :: ws
           | [] => [String c EmptyString]
           end
  end.

(** [ws.join(sep)] *)
Fixpoint join (sep : string) (ws : list string) : string :=
  match ws with
  | [] => EmptyString
  | [w] => w
  | w :: ws' => w ++ sep ++ join sep ws'
  end.

(** [new Set(xs)], kept in insertion order. *)
Fixpoint distinct (xs : list string) : list string :=
  match xs with
  | [] => []
  | x :: xs' =>
      x :: filter (fun y => negb (String.eqb x y)) (distinct xs')
  end.

Definition member (x : string) (xs : list string) : bool :=
  existsb (String.eqb x) xs.

(** [a || b] on strings that may be [null]: the empty string is falsy. *)
Definition orElse (a b : option string) : option string :=
  match a with
  | Some EmptyString | None => b
  | Some _ => a
  end.

(** A value inside a template literal. *)
Definition interpolate (a : option string) : string :=
  match a with
  | Some s => s
  | None => "null"
  end.

(** [s.replace(/p/g, r)] for a literal pattern [p] that is not empty: the
    matches are taken from left to right and do not overlap.  [skip] is the
    number of characters of the last match that are still to be passed. *)
Fixpoint replaceFrom (skip : nat) (p r s : string) : string :=
  match s with
  | EmptyString => EmptyString
  | String c s' =>
      match skip with
      | S k => replaceFrom k p r s'
      | O =>
          if startsWith p s
          then r ++ replaceFrom (String.length p - 1) p r s'
          else String c (replaceFrom 0 p r s')
      end
  end.

Definition replaceAll (p r s : string) : string := replaceFrom 0 p r s.

(** [xs.slice(i, j)] for [0 <= i] and [0 <= j]. *)
Definition slice {A : Type} (i j : nat) (xs : list A) : list A :=
  firstn (j - i) (skipn i xs).

End Text.


(* ===================================================================== *)
(** * The default content fingerprint: SHA-256 in hexadecimal *)
(* ===================================================================== *)

(** [crypto.createHash('sha256').update(text).digest('hex')], the digest of
    the default configuration, for texts of code points below 256. *)
Module Sha256.

Local Open Scope Z_scope.

Definition wordMask : Z := 4294967295.

Definition add32 (x y : Z) : Z := Z.land (x + y) wordMask.

Definition rotr (n x : Z) : Z :=
  Z.lor (Z.shiftr x n) (Z.land (Z.shiftl x (32 - n)) wordMask).

Definition xor3 (a b c : Z) : Z := Z.lxor (Z.lxor a b) c.

Definition choose (e f g : Z) : Z :=
  Z.lxor (Z.land e f) (Z.land (Z.lxor e wordMask) g).

Definition majority (a b c : Z) : Z :=
  xor3 (Z.land a b) (Z.land a c) (Z.land b c).

Definition bigSigma0 (a : Z) : Z := xor3 (rotr 2 a) (rotr 13 a) (rotr 22 a).
Definition bigSigma1 (e : Z) : Z := xor3 (rotr 6 e) (rotr 11 e) (rotr 25 e).
Definition smallSigma0 (x : Z) : Z := xor3 (rotr 7 x) (rotr 18 x) (Z.shiftr x 3).
Definition smallSigma1 (x : Z) : Z := xor3 (rotr 17 x) (rotr 19 x) (Z.shiftr x 10).

(** The round constants: the first 32 bits of the fractional parts of the
    cube roots of the first 64 primes. *)
Definition roundConstants : list Z :=
  [ 1116352408; 1899447441; 3049323471; 3921009573; 961987163; 1508970993;
     2453635748; 2870763221; 3624381080; 310598401; 607225278; 1426881987;
     1925078388; 2162078206; 2614888103; 3248222580; 3835390401; 4022224774;
     264347078; 604807628; 770255983; 1249150122; 1555081692; 1996064986;
     2554220882; 2821834349; 2952996808; 3210313671; 3336571891; 3584528711;
     113926993; 338241895; 666307205; 773529912; 1294757372; 1396182291;
     1695183700; 1986661051; 2177026350; 2456956037; 2730485921; 2820302411;
     3259730800; 3345764771; 3516065817; 3600352804; 4094571909; 275423344;
     430227734; 506948616; 659060556; 883997877; 958139571; 1322822218;
     1537002063; 1747873779; 1955562222; 2024104815; 2227730452; 2361852424;
     2428436474; 2756734187; 3204031479; 3329325298 ].

(** The initial hash value: the first 32 bits of the fractional parts of
    the square roots of the first 8 primes. *)
Definition initialHash : list Z :=
  [ 1779033703; 3144134277; 1013904242; 2773480762;
     1359893119; 2600822924; 528734635; 1541459225 ].

(** The UTF-8 bytes of a text of code points below 256. *)
Fixpoint utf8 (s : string) : list Z :=
  match s with
  | EmptyString => []
  | String c s' =>
      let n := Z.of_nat (nat_of_ascii c) in
      if n <? 128 then n :: utf8 s'
      else Z.lor 192 (Z.shiftr n 6) :: Z.lor 128 (Z.land n 63) :: utf8 s'
  end.

(** A 64-bit length as eight bytes, most significant first. *)
Definition lengthBytes (bits : Z) : list Z :=
  map (fun i => Z.land (Z.shiftr bits (8 * i)) 255) [7; 6; 5; 4; 3; 2; 1; 0].

(** The message followed by the bit 1, zeros and its length in bits, up to
    a multiple of 64 bytes. *)
Definition padded (bytes : list Z) : list Z :=
  let len := Z.of_nat (List.length bytes) in
  let zeros := Z.to_nat ((55 - len) mod 64) in
  bytes ++ [128] ++ repeat 0 zeros ++ lengthBytes (8 * len).

(** Bytes to 32-bit words, most significant byte first. *)
Fixpoint toWords (bytes : list Z) : list Z :=
  match bytes with
  | b0 :: b1 :: b2 :: b3 :: rest =>
      (Z.shiftl b0 24 + Z.shiftl b1 16 + Z.shiftl b2 8 + b3) :: toWords rest
  | _ => []
  end.

(** The message schedule, grown from 16 words by [n] more. *)
Fixpoint schedule (n : nat) (w : list Z) : list Z :=
  match n with
  | O => w
  | S n' =>
      let t := List.length w in
      let at_ (k : nat) := nth (t - k) w 0 in
      schedule n'
        (w ++ [add32 (add32 (smallSigma1 (at_ 2%nat)) (at_ 7%nat))
                     (add32 (smallSigma0 (at_ 15%nat)) (at_ 16%nat))])
  end.

Record Registers : Type := mkRegisters {
  ra : Z; rb : Z; rc : Z; rd : Z; re : Z; rf : Z; rg : Z; rh : Z
}.

Definition round (r : Registers) (kw : Z * Z) : Registers :=
  let t1 :=
    add32 (add32 (add32 (rh r) (bigSigma1 (re r)))
                 (add32 (choose (re r) (rf r) (rg r)) (fst kw))) (snd kw) in
  let t2 := add32 (bigSigma0 (ra r)) (majority (ra r) (rb r) (rc r)) in
  {| ra := add32 t1 t2; rb := ra r; rc := rb r; rd := rc r;
     re := add32 (rd r) t1; rf := re r; rg := rf r; rh := rg r |}.

Definition compress (h : Registers) (block : list Z) : Registers :=
  let w := schedule 48 block in
  let r := fold_left round (combine roundConstants w) h in
  {| ra := add32 (ra h) (ra r); rb := add32 (rb h) (rb r);
     rc := add32 (rc h) (rc r); rd := add32 (rd h) (rd r);
     re := add32 (re h) (re r); rf := add32 (rf h) (rf r);
     rg := add32 (rg h) (rg r); rh := add32 (rh h) (rh r) |}.

(** The first [n] blocks of 16 words. *)
Fixpoint blocks (n : nat) (ws : list Z) : list (list Z) :=
  match n with
  | O => []
  | S n' => firstn 16 ws :: blocks n' (skipn 16 ws)
  end.

Definition startRegisters : Registers :=
  match initialHash with
  | [a; b; c; d; e; f; g; h] =>
      {| ra := a; rb := b; rc := c; rd := d; re := e; rf := f; rg := g; rh := h |}
  | _ => {| ra := 0; rb := 0; rc := 0; rd := 0; re := 0; rf := 0; rg := 0; rh := 0 |}
  end.

Definition hexDigit (n : Z) : ascii :=
  nth (Z.to_nat n)
      (list_ascii_of_string "0123456789abcdef") "0"%char.

Definition hexWord (w : Z) : string :=
  string_of_list_ascii
    (map (fun i => hexDigit (Z.land (Z.shiftr w (4 * i)) 15))
         [7; 6; 5; 4; 3; 2; 1; 0]).

Definition hexDigest (text : string) : string :=
  let ws := toWords (padded (utf8 text)) in
  let r := fold_left compress (blocks (List.length ws / 16) ws) startRegisters in
  (hexWord (ra r) ++ hexWord (rb r) ++ hexWord (rc r) ++ hexWord (rd r) ++
   hexWord (re r) ++ hexWord (rf r) ++ hexWord (rg r) ++ hexWord (rh r))%string.

End Sha256.

(* ===================================================================== *)
(** * Effects: state passing with exceptions *)
(* ===================================================================== *)

(** What an [async] method leaves behind: the state after it returned a
    value, or the state at the point where it threw. *)
Inductive Outcome (S A : Type) : Type :=
| Returned (s : S) (a : A)
| Thrown (s : S).

Arguments Returned {S A} s a.
Arguments Thrown {S A} s.

Definition M (S A : Type) : Type := S -> Outcome S A.

Definition ret {S A : Type} (a : A) : M S A := fun s => Returned s a.

Definition throw {S A : Type} : M S A := fun s => Thrown s.

Definition bind {S A B : Type} (c : M S A) (k : A -> M S B) : M S B :=
  fun s =>
    match c s with
    | Returned s' a => k a s'
    | Thrown s' => Thrown s'
    end.

Definition get {S : Type} : M S S := fun s => Returned s s.

Definition modify {S : Type} (f : S -> S) : M S unit := fun s => Returned (f s) tt.

Declare Scope monad_scope.
Delimit Scope monad_scope with monad.
Notation "x <- c1 ;; c2" := (bind c1 (fun x => c2))
  (at level 61, c1 at next level, right associativity) : monad_scope.
Notation "c1 ;;; c2" := (bind c1 (fun _ => c2))
  (at level 61, right associativity) : monad_scope.

(** [for (const x of xs) { await body(x) }] *)
Fixpoint forEach {S A : Type} (body : A -> M S unit) (xs : list A) : M S unit :=
  match xs with
  | [] => ret tt
  | x :: xs' => bind (body x) (fun _ => forEach body xs')
  end.

(** The state an outcome carries. *)
Definition finalState {S A : Type} (o : Outcome S A) : S :=
  match o with
  | Returned s _ => s
  | Thrown s => s
  end.

(* ===================================================================== *)
(** * Double: the numbers of JavaScript *)
(* ===================================================================== *)

(** A JavaScript number is an IEEE 754 binary64 value: a signed zero, an
    infinity, NaN or a finite number [m * 2^e].  [spec_float] with a
    precision of 53 bits and [emax = 1024] is that format, and its
    operations round to nearest, ties to even, as those of the language
    do. *)
Module Double.

Definition t : Type := spec_float.

Definition prec : Z := 53%Z.
Definition emax : Z := 1024%Z.

Definition NaN : t := S754_nan.
Definition zero : t := S754_zero false.

(** A whole number as a number. *)
Definition ofZ (n : Z) : t := binary_normalize prec emax n 0 false.
Definition ofNat (n : nat) : t := ofZ (Z.of_nat n).
Definition one : t := ofZ 1.

Definition add : t -> t -> t := SFadd prec emax.
Definition sub : t -> t -> t := SFsub prec emax.
Definition mul : t -> t -> t := SFmul prec emax.
Definition div : t -> t -> t := SFdiv prec emax.
Definition sqrt : t -> t := SFsqrt prec emax.
Definition abs : t -> t := SFabs.

(** The number a decimal literal denotes: the literal [0.3] is
    [ofQ 0.3], the double nearest to three tenths.  The quotient is
    rounded once, so this is the literal's value whenever numerator and
    denominator are below [2^53]. *)
Definition ofQ (q : Q) : t := div (ofZ (Qnum q)) (ofZ (Zpos (Qden q))).

(** [x < y], [x <= y], [x === y], [x > y] and [x >= y]; every comparison
    with NaN is false. *)
Definition ltb : t -> t -> bool := SFltb.
Definition leb : t -> t -> bool := SFleb.
Definition eqb : t -> t -> bool := SFeqb.
Definition gtb (x y : t) : bool := ltb y x.
Definition geb (x y : t) : bool := leb y x.

Definition isNaN (x : t) : bool :=
  match x with
  | S754_nan => true
  | _ => false
  end.

(** [Math.max(x, y)] and [Math.min(x, y)] *)
Definition max (x y : t) : t :=
  match x, y with
  | S754_nan, _ | _, S754_nan => NaN
  | S754_zero sx, S754_zero sy => S754_zero (sx && sy)
  | _, _ => if ltb x y then y else x
  end.

Definition min (x y : t) : t :=
  match x, y with
  | S754_nan, _ | _, S754_nan => NaN
  | S754_zero sx, S754_zero sy => S754_zero (sx || sy)
  | _, _ => if ltb y x then y else x
  end.

(** The rational number that a number denotes.  The store keeps numbers
    as such; an infinity is written as [2^1024] with its sign, and NaN as
    zero. *)
Definition rational (x : t) : Q :=
  match x with
  | S754_finite s m e =>
      let v := (inject_Z (Zpos m) * Qpower 2 e)%Q in
      if s then Qopp v else v
  | S754_infinity s =>
      let v := Qpower 2 1024 in
      if s then Qopp v else v
  | _ => 0%Q
  end.

End Double.

(* ===================================================================== *)
(** * Data model *)
(* ===================================================================== *)

Definition ObjectId : Type := nat.

Inductive Method : Type :=
| content_hash
| title_similarity
| content_similarity
| entity_similarity
| semantic_similarity
| error_method.

(** An extracted entity: [{ name, type, confidence }]. *)
Module Entity.
Record t : Type := mk {
  name : string;
  type : string;
  confidence : Q
}.
End Entity.

(** An article as [extractArticleData] returns it, before it has an id. *)
Module Draft.
Record t : Type := mk {
  title : option string;
  url : string;
  source : string;
  category : string;
  tags : list string;
  content : option string;
  summary : option string;
  publishedAt : Z
}.
End Draft.

(** A document of the [articles] collection. *)
Record Article : Type := mkArticle {
  _id : ObjectId;
  title : option string;
  url : string;
  source : string;
  category : string;
  tags : list string;
  content : option string;
  summary : option string;
  publishedAt : Z;
  contentHash : string;
  entities : list Entity.t;
  processed : bool;
  alertSent : bool;
  duplicateChecked : bool;
  isDuplicate : bool;
  originalArticleId : option ObjectId;
  createdAt : Z
}.

(** The per-signal scores of one comparison.  After a content-hash match
    only [contentHash], [overallScore] and [method] are present. *)
Module Scores.
Record t : Type := mk {
  contentHash : Q;
  titleSimilarity : option Q;
  contentSimilarity : option Q;
  entitySimilarity : option Q;
  semanticSimilarity : option Q;
  temporalProximity : option Q;
  sourceAlignment : option Q;
  overallScore : Q;
  method : Method
}.
End Scores.

(** An entry of [similarities]: [{ candidate, ...similarity }]. *)
Record Similarity : Type := mkSimilarity {
  candidate : Article;
  scores : Scores.t
}.

(** An entry of [duplicates]: [{ article, similarity, confidence }]. *)
Record Duplicate : Type := mkDuplicate {
  article : Article;
  similarity : Similarity;
  confidence : Q
}.

(** A document of the [duplicates] collection. *)
Module DuplicateLink.
Record t : Type := mk {
  originalArticleId : ObjectId;
  duplicateArticleId : option ObjectId;
  duplicateUrl : option string;
  similarityScore : Q;
  detectionMethod : Method;
  similarityBreakdown : option Similarity;
  originalSource : string;
  duplicateSource : string;
  timeDifference : option Z;
  createdAt : Z
}.
End DuplicateLink.

(** [config.deduplication], [config.alerts] and [config.performance]. *)
Record Config : Type := mkConfig {
  similarityThreshold : Q;
  timeWindowHours : Z;
  titleWeight : Q;
  contentWeight : Q;
  entityWeight : Q;
  batchSize : nat;
  cooldownMinutes : Z;
  maxAlertsPerHour : Z;
  webhookEnabled : bool;
  emailEnabled : bool;
  slackEnabled : bool
}.

(** The defaults of the configuration schema. *)
Definition defaultConfig : Config :=
  {| similarityThreshold := 0.85%Q;
     timeWindowHours := 24%Z;
     titleWeight := 0.4%Q;
     contentWeight := 0.4%Q;
     entityWeight := 0.2%Q;
     batchSize := 50;
     cooldownMinutes := 5%Z;
     maxAlertsPerHour := 20%Z;
     webhookEnabled := true;
     emailEnabled := false;
     slackEnabled := false |}.

(** What the modelled services take from outside: libraries, providers,
    and the entity extractor.  The content and semantic signals reach the
    engine as the numbers that [SimpleTfIdf] and [Vector] compute over the
    reals from the preprocessed contents and the embeddings. *)
Record Externals : Type := mkExternals {
  (** [crypto.createHash(algo).update(s).digest('hex')] *)
  digest : string -> string;
  (** [entityExtractor.extract(text)] *)
  extractEntities : string -> list Entity.t;
  (** [stringSimilarity.compareTwoStrings] *)
  compareTwoStrings : string -> string -> Q;
  (** [calculateContentSimilarity]: TF-IDF cosine over stop-word filtered text *)
  contentSimilarityOf : Article -> Article -> Q;
  (** [calculateSemanticSimilarity]: cosine of the two embeddings *)
  semanticSimilarityOf : Article -> Article -> Q
}.

(** The externals of a deployment with the default fingerprint (SHA-256)
    and no entity, string-similarity or embedding service answering. *)
Definition sha256Externals : Externals :=
  {| digest := Sha256.hexDigest;
     extractEntities := fun _ => [];
     compareTwoStrings := fun _ _ => 0%Q;
     contentSimilarityOf := fun _ _ => 0%Q;
     semanticSimilarityOf := fun _ _ => 0%Q |}.

(* ===================================================================== *)
(** * DatabaseManager: the [articles] and [duplicates] collections *)
(* ===================================================================== *)

Record Store : Type := mkStore {
  articles : list Article;
  duplicates : list DuplicateLink.t;
  nextId : ObjectId
}.

Definition emptyStore : Store :=
  {| articles := []; duplicates := []; nextId := 0 |}.

Definition optionId_eqb (a b : option ObjectId) : bool :=
  match a, b with
  | Some x, Some y => (x =? y)%nat
  | None, None => true
  | _, _ => false
  end.

(** The key of the unique index
    [{ originalArticleId: 1, duplicateArticleId: 1 }]. *)
Definition linkKey (l : DuplicateLink.t) : ObjectId * option ObjectId :=
  (DuplicateLink.originalArticleId l, DuplicateLink.duplicateArticleId l).

Definition sameLinkKey (l l' : DuplicateLink.t) : bool :=
  (DuplicateLink.originalArticleId l =? DuplicateLink.originalArticleId l')%nat
  && optionId_eqb (DuplicateLink.duplicateArticleId l)
                  (DuplicateLink.duplicateArticleId l').

(** [findArticle({ url })] *)
Definition findArticleByUrl (u : string) : M Store (option Article) :=
  fun st => Returned st (find (fun a => String.eqb (url a) u) (articles st)).

(** [findArticle({ contentHash })] *)
Definition findArticleByHash (h : string) : M Store (option Article) :=
  fun st => Returned st (find (fun a => String.eqb (contentHash a) h) (articles st)).

(** [insertArticle]: the collection has a unique index on [url]; the store
    assigns the id and [createdAt]. *)
Definition insertArticle (now : Z) (mk : ObjectId -> Z -> Article) : M Store ObjectId :=
  fun st =>
    let a := mk (nextId st) now in
    if existsb (fun b => String.eqb (url b) (url a)) (articles st)
    then Thrown st
    else Returned {| articles := articles st ++ [a];
                     duplicates := duplicates st;
                     nextId := S (nextId st) |} (nextId st).

(** [insertDuplicate]: the collection has a unique index on
    [(originalArticleId, duplicateArticleId)]; a repeated key is rejected. *)
Definition insertDuplicate (now : Z) (mk : Z -> DuplicateLink.t) : M Store unit :=
  fun st =>
    let l := mk now in
    if existsb (sameLinkKey l) (duplicates st)
    then Thrown st
    else Returned {| articles := articles st;
                     duplicates := duplicates st ++ [l];
                     nextId := nextId st |} tt.

Fixpoint updateFirst (p : Article -> bool) (f : Article -> Article)
  (xs : list Article) : list Article :=
  match xs with
  | [] => []
  | a :: xs' => if p a then f a :: xs' else a :: updateFirst p f xs'
  end.

(** [updateArticle({ _id }, update)]: [updateOne] with [$set]. *)
Definition updateArticle (id : ObjectId) (f : Article -> Article) : M Store unit :=
  modify (fun st =>
    {| articles := updateFirst (fun a => (_id a =? id)%nat) f (articles st);
       duplicates := duplicates st;
       nextId := nextId st |}).

(* ===================================================================== *)
(** * NewsProcessor *)
(* ===================================================================== *)

Module NewsProcessor.

(** [normalizeForHashing(text)] *)
Definition normalizeForHashing (text : string) : string :=
  Text.trim
    (Text.collapseWhitespace
       (Text.stripNonWord
          (Text.toLowerCase text))).

(** The template literal
    [`${article.title} ${article.content || article.summary}`]. *)
Definition titleAndBody (t c s : option string) : string :=
  Text.interpolate t ++ " " ++ Text.interpolate (Text.orElse c s).

(** The digest of a text after normalization. *)
Definition contentHashOf (ext : Externals) (text : string) : string :=
  digest ext (normalizeForHashing text).

(** [generateContentHash(article)] *)
Definition generateContentHash (ext : Externals) (d : Draft.t) : string :=
  contentHashOf ext
    (titleAndBody (Draft.title d) (Draft.content d) (Draft.summary d)).

(** [s.lastIndexOf(c)] *)
Fixpoint lastIndexOf (c : ascii) (s : string) : option nat :=
  match s with
  | EmptyString => None
  | String d s' =>
      match lastIndexOf c s' with
      | Some i => Some (S i)
      | None => if Ascii.eqb d c then Some 0 else None
      end
  end.

(** [generateSummary(content)] with [maxLength = 300]. *)
Definition generateSummary (content : string) : string :=
  if (String.length content <=? 300)%nat then content
  else
    let truncated := String.substring 0 300 content in
    match lastIndexOf "."%char truncated with
    | Some lastSentence =>
        if (210 <? lastSentence)%nat
        then String.substring 0 (lastSentence + 1) truncated
        else truncated ++ "..."
    | None => truncated ++ "..."
    end.

(** The summary stored with the article: generated from the content when
    the feed gave none. *)
Definition summaryFor (d : Draft.t) : option string :=
  match Text.orElse (Draft.summary d) None, Text.orElse (Draft.content d) None with
  | None, Some c => Some (generateSummary c)
  | _, _ => Draft.summary d
  end.

(** The link recorded for a draft whose content hash is already stored:
    the draft has no id, so the duplicate is named by its URL. *)
Definition hashDuplicateLink (original : Article) (d : Draft.t) (now : Z)
  : DuplicateLink.t :=
  {| DuplicateLink.originalArticleId := _id original;
     DuplicateLink.duplicateArticleId := None;
     DuplicateLink.duplicateUrl := Some (Draft.url d);
     DuplicateLink.similarityScore := 1%Q;
     DuplicateLink.detectionMethod := content_hash;
     DuplicateLink.similarityBreakdown := None;
     DuplicateLink.originalSource := source original;
     DuplicateLink.duplicateSource := Draft.source d;
     DuplicateLink.timeDifference := None;
     DuplicateLink.createdAt := now |}.

(** The document handed to [insertArticle]. *)
Definition newArticle (ext : Externals) (d : Draft.t) (hash : string)
  (id : ObjectId) (now : Z) : Article :=
  {| _id := id;
     title := Draft.title d;
     url := Draft.url d;
     source := Draft.source d;
     category := Draft.category d;
     tags := Draft.tags d;
     content := Draft.content d;
     summary := summaryFor d;
     publishedAt := Draft.publishedAt d;
     contentHash := hash;
     entities :=
       extractEntities ext
         (titleAndBody (Draft.title d) (Draft.content d) (Draft.summary d));
     processed := false;
     alertSent := false;
     duplicateChecked := false;
     isDuplicate := false;
     originalArticleId := None;
     createdAt := now |}.

(** [processArticle(item, feed)], from the extracted article on.  Returns
    the stored article, or [None] for JavaScript's [null]. *)
Definition processArticle (ext : Externals) (now : Z) (d : Draft.t)
  : M Store (option Article) :=
  (existingArticle <- findArticleByUrl (Draft.url d) ;;
   match existingArticle with
   | Some _ => ret None
   | None =>
       let hash := generateContentHash ext d in
       duplicateByHash <- findArticleByHash hash ;;
       match duplicateByHash with
       | Some original =>
           insertDuplicate now (hashDuplicateLink original d) ;;;
           ret None
       | None =>
           insertedId <- insertArticle now (newArticle ext d hash) ;;
           ret (Some (newArticle ext d hash insertedId now))
       end
   end)%monad.


(** The double quote. *)
Definition quote : string := String "034"%char EmptyString.

(** [cleanText(text)]: [None] is JavaScript's [null]. *)
Definition cleanText (text : option string) : option string :=
  match Text.orElse text None with
  | None => None
  | Some t =>
      Some
        (Text.replaceAll "&#39;" "'"
           (Text.replaceAll "&quot;" quote
              (Text.replaceAll "&gt;" ">"
                 (Text.replaceAll "&lt;" "<"
                    (Text.replaceAll "&amp;" "&"
                       (Text.replaceAll "&nbsp;" " "
                          (Text.trim (Text.collapseWhitespace t))))))))
  end.

(** The [for] loop of [chunkArray], from index [i] on.  [fuel] bounds the
    number of rounds; [None] is a loop that has not ended within it. *)
Fixpoint chunkLoop {A : Type} (fuel : nat) (array : list A) (size i : nat)
  (chunks : list (list A)) : option (list (list A)) :=
  if (i <? List.length array)%nat then
    match fuel with
    | O => None
    | S fuel' =>
        chunkLoop fuel' array size (i + size)
          (chunks ++ [Text.slice i (i + size) array])
    end
  else Some chunks.

(** [chunkArray(array, size)] for a whole number [size]. *)
Definition chunkArray {A : Type} (fuel : nat) (array : list A) (size : nat)
  : option (list (list A)) :=
  chunkLoop fuel array size 0 [].

End NewsProcessor.

(* ===================================================================== *)
(** * DeduplicationEngine *)
(* ===================================================================== *)

(** JavaScript comparisons on numbers. *)
Definition Qgeb (x y : Q) : bool := Qle_bool y x.
Definition Qgtb (x y : Q) : bool := negb (Qle_bool x y).
Definition Qltb (x y : Q) : bool := negb (Qle_bool y x).

Definition ofNat (n : nat) : Q := inject_Z (Z.of_nat n).

(** The engine works on the store and emits [uniqueArticleDetected]. *)
Record Engine : Type := mkEngine {
  db : Store;
  emitted : list Article
}.

Definition onDb {A : Type} (c : M Store A) : M Engine A :=
  fun e =>
    match c (db e) with
    | Returned s a => Returned {| db := s; emitted := emitted e |} a
    | Thrown s => Thrown {| db := s; emitted := emitted e |}
    end.

(** [this.emit('uniqueArticleDetected', article)] *)
Definition emit (a : Article) : M Engine unit :=
  modify (fun e => {| db := db e; emitted := emitted e ++ [a] |}).

(** [this.thresholds], set in the constructor. *)
Module Thresholds.
Record t : Type := mk {
  contentHash : Q;
  titleSimilarity : Q;
  contentSimilarity : Q;
  entitySimilarity : Q;
  semanticSimilarity : Q;
  llmValidation : Q
}.
End Thresholds.

Module DeduplicationEngine.

Definition thresholds (cfg : Config) : Thresholds.t :=
  {| Thresholds.contentHash := 1.0%Q;
     Thresholds.titleSimilarity := 0.9%Q;
     Thresholds.contentSimilarity := similarityThreshold cfg;
     Thresholds.entitySimilarity := 0.8%Q;
     Thresholds.semanticSimilarity := similarityThreshold cfg;
     Thresholds.llmValidation := 0.85%Q |}.

(** [this.timeWindow], in milliseconds. *)
Definition timeWindow (cfg : Config) : Z :=
  (timeWindowHours cfg * 60 * 60 * 1000)%Z.

(** [normalizeText(text)] *)
Definition normalizeText (text : string) : string :=
  match text with
  | EmptyString => EmptyString
  | _ =>
      Text.trim
        (Text.collapseWhitespace
           (Text.blankNonWord
              (Text.toLowerCase text)))
  end.

(** [[...set1].filter(x => set2.has(x))] as a set. *)
Definition intersection (set1 set2 : list string) : list string :=
  Text.distinct (filter (fun x => Text.member x set2) set1).

(** [new Set([...set1, ...set2])] *)
Definition union (set1 set2 : list string) : list string :=
  Text.distinct (set1 ++ set2).

(** [jaccardSimilarity(text1, text2)] *)
Definition jaccardSimilarity (text1 text2 : string) : Q :=
  let set1 := Text.distinct (Text.splitSpace text1) in
  let set2 := Text.distinct (Text.splitSpace text2) in
  (ofNat (List.length (intersection set1 set2)) / ofNat (List.length (union set1 set2)))%Q.

(** [calculateTextSimilarity(text1, text2)] *)
Definition calculateTextSimilarity (ext : Externals) (text1 text2 : option string) : Q :=
  match Text.orElse text1 None, Text.orElse text2 None with
  | Some t1, Some t2 =>
      let norm1 := normalizeText t1 in
      let norm2 := normalizeText t2 in
      if ((String.length norm1 =? 0) || (String.length norm2 =? 0))%nat then 0%Q
      else
        let jaccardSim := jaccardSimilarity norm1 norm2 in
        let cosineSim := compareTwoStrings ext norm1 norm2 in
        (jaccardSim * 0.4 + cosineSim * 0.6)%Q
  | _, _ => 0%Q
  end.

(** [calculateEntitySimilarity(entities1, entities2)] *)
Definition calculateEntitySimilarity (entities1 entities2 : list Entity.t) : Q :=
  match entities1, entities2 with
  | [], _ | _, [] => 0%Q
  | _, _ =>
      let names1 := Text.distinct (map (fun e => Text.toLowerCase (Entity.name e)) entities1) in
      let names2 := Text.distinct (map (fun e => Text.toLowerCase (Entity.name e)) entities2) in
      (ofNat (List.length (intersection names1 names2))
       / ofNat (List.length (union names1 names2)))%Q
  end.

(** [calculateTemporalProximity(date1, date2)] *)
Definition calculateTemporalProximity (date1 date2 : Z) : Q :=
  let timeDiff := inject_Z (Z.abs (date1 - date2)) in
  let hoursDiff := (timeDiff / inject_Z (1000 * 60 * 60))%Q in
  Qmax 0 (1 - hoursDiff / 24)%Q.

(** The share of [article1]'s tags that [article2] also has, over the
    larger of the two tag sets. *)
Definition tagOverlap (tags1 tags2 : list string) : nat :=
  List.length (filter (fun tag => Text.member tag tags2) tags1).

(** [calculateSourceAlignment(article1, article2)] *)
Definition calculateSourceAlignment (article1 article2 : Article) : Q :=
  let score0 := 0%Q in
  let score1 :=
    if String.eqb (source article1) (source article2)
    then (score0 + 0.4)%Q else score0 in
  let score2 :=
    if String.eqb (category article1) (category article2)
    then (score1 + 0.3)%Q else score1 in
  let tags1 := Text.distinct (tags article1) in
  let tags2 := Text.distinct (tags article2) in
  let overlap := tagOverlap tags1 tags2 in
  let maxTags := Nat.max (List.length tags1) (List.length tags2) in
  let score3 :=
    if (0 <? maxTags)%nat
    then (score2 + (ofNat overlap / ofNat maxTags) * 0.3)%Q else score2 in
  Qmin score3 1.0%Q.

(** [determinePrimaryMethod(scores)], with all signals computed. *)
Definition determinePrimaryMethod
  (contentHash titleSimilarity semanticSimilarity entitySimilarity : Q) : Method :=
  if Qeq_bool contentHash 1.0%Q then content_hash
  else if Qgtb titleSimilarity 0.9%Q then title_similarity
  else if Qgtb semanticSimilarity 0.85%Q then semantic_similarity
  else if Qgtb entitySimilarity 0.8%Q then entity_similarity
  else content_similarity.

(** The weighted sum of [calculateSimilarityScore]. *)
Definition weightedScore (cfg : Config)
  (titleSim contentSim entitySim semanticSim temporalProx sourceAlign : Q) : Q :=
  (titleSim * titleWeight cfg +
   contentSim * contentWeight cfg +
   entitySim * entityWeight cfg +
   semanticSim * 0.3 +
   temporalProx * 0.1 +
   sourceAlign * 0.1)%Q.

(** [calculateSimilarityScore(article1, article2)] *)
Definition calculateSimilarityScore (ext : Externals) (cfg : Config)
  (article1 article2 : Article) : Scores.t :=
  let hashScore :=
    if String.eqb (contentHash article1) (contentHash article2)
    then 1.0%Q else 0.0%Q in
  if Qeq_bool hashScore 1.0%Q then
    {| Scores.contentHash := hashScore;
       Scores.titleSimilarity := None;
       Scores.contentSimilarity := None;
       Scores.entitySimilarity := None;
       Scores.semanticSimilarity := None;
       Scores.temporalProximity := None;
       Scores.sourceAlignment := None;
       Scores.overallScore := 1.0%Q;
       Scores.method := content_hash |}
  else
    let titleSim := calculateTextSimilarity ext (title article1) (title article2) in
    let contentSim := contentSimilarityOf ext article1 article2 in
    let entitySim := calculateEntitySimilarity (entities article1) (entities article2) in
    let semanticSim := semanticSimilarityOf ext article1 article2 in
    let temporalProx :=
      calculateTemporalProximity (publishedAt article1) (publishedAt article2) in
    let sourceAlign := calculateSourceAlignment article1 article2 in
    {| Scores.contentHash := hashScore;
       Scores.titleSimilarity := Some titleSim;
       Scores.contentSimilarity := Some contentSim;
       Scores.entitySimilarity := Some entitySim;
       Scores.semanticSimilarity := Some semanticSim;
       Scores.temporalProximity := Some temporalProx;
       Scores.sourceAlignment := Some sourceAlign;
       Scores.overallScore :=
         weightedScore cfg titleSim contentSim entitySim semanticSim
           temporalProx sourceAlign;
       Scores.method :=
         determinePrimaryMethod hashScore titleSim semanticSim entitySim |}.

(** [xs.sort((a, b) => b.overallScore - a.overallScore)]: stable, by
    descending score. *)
Fixpoint insertByScore (x : Similarity) (xs : list Similarity) : list Similarity :=
  match xs with
  | [] => [x]
  | y :: ys =>
      if Qgtb (Scores.overallScore (scores y)) (Scores.overallScore (scores x))
      then y :: insertByScore x ys
      else x :: xs
  end.

Definition sortByScore (xs : list Similarity) : list Similarity :=
  fold_right insertByScore [] xs.

(** [analyzeSimilarities(article, candidates)] *)
Definition analyzeSimilarities (ext : Externals) (cfg : Config)
  (a : Article) (candidates : list Article) : list Similarity :=
  let scored :=
    map (fun c => {| candidate := c;
                     scores := calculateSimilarityScore ext cfg a c |}) candidates in
  sortByScore
    (filter (fun s => Qgtb (Scores.overallScore (scores s)) 0.3%Q) scored).

(** The [switch] of [identifyDuplicates]. *)
Definition thresholdFor (th : Thresholds.t) (m : Method) : Q :=
  match m with
  | content_hash => Thresholds.contentHash th
  | title_similarity => Thresholds.titleSimilarity th
  | semantic_similarity => Thresholds.semanticSimilarity th
  | _ => Thresholds.contentSimilarity th
  end.

Definition isDeclaredDuplicate (th : Thresholds.t) (s : Similarity) : bool :=
  Qgeb (Scores.overallScore (scores s)) (thresholdFor th (Scores.method (scores s))).

(** [identifyDuplicates(similarities)] *)
Definition identifyDuplicates (th : Thresholds.t) (similarities : list Similarity)
  : list Duplicate :=
  map (fun s => {| article := candidate s;
                   similarity := s;
                   confidence := Scores.overallScore (scores s) |})
      (filter (isDeclaredDuplicate th) similarities).

(** The query of [getCandidateArticles]. *)
Definition isCandidate (timeThreshold : Z) (a c : Article) : bool :=
  negb (_id c =? _id a)%nat
  && (timeThreshold <=? publishedAt c)%Z
  && (String.eqb (source c) (source a)
      || String.eqb (category c) (category a)
      || existsb (fun t => Text.member t (tags a)) (tags c)).

(** [sort: { publishedAt: -1 }] *)
Fixpoint insertByDate (x : Article) (xs : list Article) : list Article :=
  match xs with
  | [] => [x]
  | y :: ys =>
      if (publishedAt x <? publishedAt y)%Z
      then y :: insertByDate x ys
      else x :: xs
  end.

Definition sortByDate (xs : list Article) : list Article :=
  fold_right insertByDate [] xs.

(** [getCandidateArticles(article)] *)
Definition getCandidateArticles (cfg : Config) (now : Z) (a : Article)
  : M Store (list Article) :=
  fun st =>
    let timeThreshold := (now - timeWindow cfg)%Z in
    Returned st
      (firstn 50 (sortByDate (filter (isCandidate timeThreshold a) (articles st)))).

(** The callback of the [reduce] in [processDuplicates]. *)
Definition earlier (earliest current : Article) : Article :=
  if (publishedAt current <? publishedAt earliest)%Z then current else earliest.

(** [allArticles.reduce(...)] over [[article, ...duplicates.map(d => d.article)]]. *)
Definition electOriginal (a : Article) (dups : list Duplicate) : Article :=
  fold_left earlier (map article dups) a.

(** The document [processDuplicates] inserts for one entry of [duplicates]. *)
Definition duplicateLink (original : Article) (d : Duplicate) (now : Z)
  : DuplicateLink.t :=
  {| DuplicateLink.originalArticleId := _id original;
     DuplicateLink.duplicateArticleId := Some (_id (article d));
     DuplicateLink.duplicateUrl := None;
     DuplicateLink.similarityScore := confidence d;
     DuplicateLink.detectionMethod := Scores.method (scores (similarity d));
     DuplicateLink.similarityBreakdown := Some (similarity d);
     DuplicateLink.originalSource := source original;
     DuplicateLink.duplicateSource := source (article d);
     DuplicateLink.timeDifference :=
       Some (Z.abs (publishedAt original - publishedAt (article d)));
     DuplicateLink.createdAt := now |}.

(** The [$set] of [markAsUnique]. *)
Definition asUnique (a : Article) : Article :=
  {| _id := _id a; title := title a; url := url a; source := source a;
     category := category a; tags := tags a; content := content a;
     summary := summary a; publishedAt := publishedAt a;
     contentHash := contentHash a; entities := entities a;
     processed := true;
     alertSent := alertSent a;
     duplicateChecked := true;
     isDuplicate := false;
     originalArticleId := originalArticleId a;
     createdAt := createdAt a |}.

(** The [$set] of [markAsDuplicate]. *)
Definition asDuplicateOf (original : ObjectId) (a : Article) : Article :=
  {| _id := _id a; title := title a; url := url a; source := source a;
     category := category a; tags := tags a; content := content a;
     summary := summary a; publishedAt := publishedAt a;
     contentHash := contentHash a; entities := entities a;
     processed := true;
     alertSent := alertSent a;
     duplicateChecked := true;
     isDuplicate := true;
     originalArticleId := Some original;
     createdAt := createdAt a |}.

(** [markAsUnique(article)] *)
Definition markAsUnique (a : Article) : M Engine unit :=
  onDb (updateArticle (_id a) asUnique).

(** [markAsDuplicate(article, originalArticleId)] *)
Definition markAsDuplicate (a : Article) (original : ObjectId) : M Engine unit :=
  onDb (updateArticle (_id a) (asDuplicateOf original)).

(** [processDuplicates(article, duplicates)] *)
Definition processDuplicates (now : Z) (a : Article) (dups : list Duplicate)
  : M Engine unit :=
  (let originalArticle := electOriginal a dups in
   forEach (fun d => onDb (insertDuplicate now (duplicateLink originalArticle d)))
           dups ;;;
   if (_id a =? _id originalArticle)%nat
   then markAsUnique a ;;; emit a
   else markAsDuplicate a (_id originalArticle))%monad.

(** [performDeduplication(article)].  The clustering cache updated in the
    last step is not part of the model. *)
Definition performDeduplication (ext : Externals) (cfg : Config) (now : Z)
  (a : Article) : M Engine unit :=
  (candidates <- onDb (getCandidateArticles cfg now a) ;;
   match candidates with
   | [] => markAsUnique a
   | _ :: _ =>
       let similarities := analyzeSimilarities ext cfg a candidates in
       let dups := identifyDuplicates (thresholds cfg) similarities in
       match dups with
       | _ :: _ => processDuplicates now a dups
       | [] => markAsUnique a
       end
   end)%monad.

End DeduplicationEngine.

(* ===================================================================== *)
(** * DeduplicationEngine: the processing queue and the statistics *)
(* ===================================================================== *)

(** An entry of [processingQueue]: [{ article, timestamp, retryCount }]. *)
Module QueueItem.
Record t : Type := mk {
  article : Article;
  timestamp : Z;
  retryCount : nat
}.
End QueueItem.

(** The counters of [this.stats].  The average processing time and the
    time of the last batch, which are computed from clock readings only,
    are left out. *)
Module EngineStats.
Record t : Type := mk {
  articlesProcessed : nat;
  duplicatesDetected : nat;
  uniqueArticles : nat;
  errors : nat
}.

Definition zero : t :=
  {| articlesProcessed := 0; duplicatesDetected := 0;
     uniqueArticles := 0; errors := 0 |}.

(** [stats.articlesProcessed++] *)
Definition moreArticlesProcessed (s : t) : t :=
  {| articlesProcessed := articlesProcessed s + 1;
     duplicatesDetected := duplicatesDetected s;
     uniqueArticles := uniqueArticles s;
     errors := errors s |}.

(** [stats.duplicatesDetected++] *)
Definition moreDuplicatesDetected (s : t) : t :=
  {| articlesProcessed := articlesProcessed s;
     duplicatesDetected := duplicatesDetected s + 1;
     uniqueArticles := uniqueArticles s;
     errors := errors s |}.

(** [stats.uniqueArticles++] *)
Definition moreUniqueArticles (s : t) : t :=
  {| articlesProcessed := articlesProcessed s;
     duplicatesDetected := duplicatesDetected s;
     uniqueArticles := uniqueArticles s + 1;
     errors := errors s |}.

(** [stats.errors++] *)
Definition moreErrors (s : t) : t :=
  {| articlesProcessed := articlesProcessed s;
     duplicatesDetected := duplicatesDetected s;
     uniqueArticles := uniqueArticles s;
     errors := errors s + 1 |}.
End EngineStats.

(** The engine with its queue and its counters. *)
Record Worker : Type := mkWorker {
  engine : Engine;
  processingQueue : list QueueItem.t;
  stats : EngineStats.t
}.

Definition onEngine {A : Type} (c : M Engine A) : M Worker A :=
  fun w =>
    match c (engine w) with
    | Returned e a =>
        Returned {| engine := e; processingQueue := processingQueue w;
                    stats := stats w |} a
    | Thrown e =>
        Thrown {| engine := e; processingQueue := processingQueue w;
                  stats := stats w |}
    end.

(** [try { body } catch (error) { handler }] *)
Definition tryCatch {S A : Type} (body handler : M S A) : M S A :=
  fun s =>
    match body s with
    | Returned s' a => Returned s' a
    | Thrown s' => handler s'
    end.

Module DeduplicationWorker.

Definition count (f : EngineStats.t -> EngineStats.t) : M Worker unit :=
  modify (fun w => {| engine := engine w;
                      processingQueue := processingQueue w;
                      stats := f (stats w) |}).

(** [this.processingQueue.push(item)] *)
Definition push (item : QueueItem.t) : M Worker unit :=
  modify (fun w => {| engine := engine w;
                      processingQueue := processingQueue w ++ [item];
                      stats := stats w |}).

(** [processArticle(article)]: the article is queued. *)
Definition processArticle (now : Z) (a : Article) : M Worker unit :=
  push {| QueueItem.article := a;
          QueueItem.timestamp := now;
          QueueItem.retryCount := 0 |}.

(** [performDeduplication(article)] with its counters: whatever is thrown
    is counted and thrown again. *)
Definition performDeduplication (ext : Externals) (cfg : Config) (now : Z)
  (a : Article) : M Worker unit :=
  tryCatch
    (candidates <-
       onEngine (onDb (DeduplicationEngine.getCandidateArticles cfg now a)) ;;
     match candidates with
     | [] => onEngine (DeduplicationEngine.markAsUnique a)
     | _ :: _ =>
         let similarities :=
           DeduplicationEngine.analyzeSimilarities ext cfg a candidates in
         let dups :=
           DeduplicationEngine.identifyDuplicates
             (DeduplicationEngine.thresholds cfg) similarities in
         match dups with
         | _ :: _ =>
             onEngine (DeduplicationEngine.processDuplicates now a dups) ;;;
             count EngineStats.moreDuplicatesDetected
         | [] =>
             onEngine (DeduplicationEngine.markAsUnique a) ;;;
             count EngineStats.moreUniqueArticles
         end
     end)%monad
    (count EngineStats.moreErrors ;;; throw)%monad.

(** [item.retryCount++] *)
Definition retried (item : QueueItem.t) : QueueItem.t :=
  {| QueueItem.article := QueueItem.article item;
     QueueItem.timestamp := QueueItem.timestamp item;
     QueueItem.retryCount := QueueItem.retryCount item + 1 |}.

(** The body of the [for] loop of [processQueue], for one item. *)
Definition processItem (ext : Externals) (cfg : Config) (now : Z)
  (item : QueueItem.t) : M Worker unit :=
  tryCatch
    (performDeduplication ext cfg now (QueueItem.article item) ;;;
     count EngineStats.moreArticlesProcessed)%monad
    (count EngineStats.moreErrors ;;;
     if (QueueItem.retryCount item <? 3)%nat
     then push (retried item)
     else ret tt)%monad.

(** [processQueue()]: a batch is taken off the front of the queue and its
    items are processed one after the other; [clock i] is the time at which
    the [i]-th item of the batch is taken up. *)
Definition processQueue (ext : Externals) (cfg : Config) (clock : nat -> Z)
  : M Worker unit :=
  fun w =>
    match processingQueue w with
    | [] => Returned w tt
    | _ :: _ =>
        let size := Nat.min (batchSize cfg) (List.length (processingQueue w)) in
        let batch := firstn size (processingQueue w) in
        tryCatch
          (forEach (fun entry => processItem ext cfg (clock (fst entry)) (snd entry))
                   (combine (seq 0 (List.length batch)) batch))
          (count EngineStats.moreErrors)
          {| engine := engine w;
             processingQueue := skipn size (processingQueue w);
             stats := stats w |}
    end.

End DeduplicationWorker.

(* ===================================================================== *)
(** * AlertManager *)
(* ===================================================================== *)

Inductive Priority : Type := low | medium | high.

Inductive Channel : Type := webhook | email | slack.

Inductive Status : Type := pending | sent | failed | cancelled.

Record ChannelResult : Type := mkChannelResult {
  channel : Channel;
  success : bool
}.

Module Alert.
Record t : Type := mk {
  id : string;
  articleId : ObjectId;
  title : string;
  summary : string;
  source : string;
  category : string;
  priority : Priority;
  url : string;
  publishedAt : Z;
  entities : list Entity.t;
  tags : list string;
  createdAt : Z;
  channels : list Channel;
  status : Status;
  sentAt : option Z;
  results : list ChannelResult
}.
End Alert.

(** The manager's queue, its in-memory history ([Map] from key to the time
    of tracking, in insertion order), the [alerts] collection (written by
    [storeAlert]) and the counters. *)
Record Manager : Type := mkManager {
  alertQueue : list Alert.t;
  alertHistory : list (string * Z);
  alerts : list Alert.t;
  totalAlerts : nat;
  successfulAlerts : nat;
  failedAlerts : nat;
  filteredAlerts : nat;
  lastAlertSent : option Z
}.

Definition emptyManager : Manager :=
  {| alertQueue := []; alertHistory := []; alerts := [];
     totalAlerts := 0; successfulAlerts := 0; failedAlerts := 0;
     filteredAlerts := 0; lastAlertSent := None |}.

Module AlertManager.

(** [this.cooldownPeriod], in milliseconds. *)
Definition cooldownPeriod (cfg : Config) : Z := (cooldownMinutes cfg * 60 * 1000)%Z.

(** The number of history entries tracked after [oneHourAgo]. *)
Definition recentAlerts (now : Z) (history : list (string * Z)) : nat :=
  let oneHourAgo := (now - 60 * 60 * 1000)%Z in
  List.length (filter (fun entry => (oneHourAgo <? snd entry)%Z) history).

(** [checkRateLimit()] *)
Definition checkRateLimit (cfg : Config) (now : Z) (m : Manager) : bool :=
  (Z.of_nat (recentAlerts now (alertHistory m)) <? maxAlertsPerHour cfg)%Z.

(** [generateArticleKey({ title, source })] *)
Definition generateArticleKey (title source : string) : string :=
  let titleWords :=
    Text.join "_"
      (firstn 3
         (filter (fun word => (3 <? String.length word)%nat)
            (Text.splitWhitespace
               (Text.stripNonWord (Text.toLowerCase title))))) in
  source ++ "_" ++ titleWords.

(** [isInCooldown(article)] *)
Definition isInCooldown (cfg : Config) (now : Z) (title source : string)
  (m : Manager) : bool :=
  let articleKey := generateArticleKey title source in
  existsb (fun entry =>
             Text.includes articleKey (fst entry)
             && (now - snd entry <? cooldownPeriod cfg)%Z)
          (alertHistory m).

Definition bodyLength (a : Article) : nat :=
  match Text.orElse (content a) (Text.orElse (summary a) None) with
  | Some s => String.length s
  | None => 0
  end.

(** [meetsQualityThreshold(article)] *)
Definition meetsQualityThreshold (now : Z) (a : Article) : bool :=
  let contentLength := bodyLength a in
  let s1 := if (500 <? contentLength)%nat then 2
            else if (200 <? contentLength)%nat then 1 else 0 in
  let s2 := match entities a with [] => s1 | _ :: _ => s1 + 1 end in
  let s3 := if Text.member (category a) ["business"; "technology"; "breaking"]
            then s2 + 2 else s2 in
  let trustedSources := ["Reuters"; "Bloomberg"; "TechCrunch"; "Wall Street Journal"] in
  let s4 := if Text.member (source a) trustedSources then s3 + 1 else s3 in
  let ageHours := (inject_Z (now - publishedAt a) / inject_Z (1000 * 60 * 60))%Q in
  let s5 := if Qltb ageHours 2%Q then s4 + 1 else s4 in
  (3 <=? s5)%nat.

(** The run [[0-9,]*] of the money pattern. *)
Fixpoint skipDigitsAndCommas (s : string) : string :=
  match s with
  | String c s' =>
      if Text.isDigit c || Ascii.eqb c ","%char then skipDigitsAndCommas s' else s
  | EmptyString => EmptyString
  end.

(** [\$[0-9]{1,}[0-9,]*million] at the start of [s] (lower-cased). *)
Definition amountInMillionsAt (s : string) : bool :=
  match s with
  | String c (String d rest) =>
      Ascii.eqb c "$"%char && Text.isDigit d
      && Text.startsWith "million" (skipDigitsAndCommas rest)
  | _ => false
  end.

Fixpoint anySuffix (p : string -> bool) (s : string) : bool :=
  p s ||
  match s with
  | EmptyString => false
  | String _ s' => anySuffix p s'
  end.

(** [/(billion|\$[0-9]{1,}[0-9,]*million)/i.test(text)] *)
Definition mentionsMoney (text : string) : bool :=
  let t := Text.toLowerCase text in
  Text.includes "billion" t || anySuffix amountInMillionsAt t.

Definition breakingKeywords : list string :=
  ["breaking"; "urgent"; "alert"; "developing"].

Definition highImpactKeywords : list string :=
  ["merger"; "acquisition"; "ipo"; "bankruptcy"; "ceo"; "funding"].

(** [keywords.some(keyword => titleLower.includes(keyword))] *)
Definition someIncluded (keywords : list string) (titleLower : string) : bool :=
  existsb (fun keyword => Text.includes keyword titleLower) keywords.

Definition bodyText (c s : option string) : string :=
  match Text.orElse c (Text.orElse s None) with
  | Some t => t
  | None => EmptyString
  end.

(** [calculatePriority(article)], for an article whose title is a string. *)
Definition calculatePriority (title : string) (c s : option string)
  (category : string) : Priority :=
  let p0 := medium in
  let titleLower := Text.toLowerCase title in
  let p1 := if someIncluded breakingKeywords titleLower then high else p0 in
  let p2 := if someIncluded highImpactKeywords titleLower then high else p1 in
  let p3 := if mentionsMoney (bodyText c s) then high else p2 in
  if String.eqb category "breaking" then high
  else if String.eqb category "business" then medium
  else if String.eqb category "entertainment" then low
  else p3.

(** [determineChannels(article)] *)
Definition determineChannels (cfg : Config) (p : Priority) (category : string)
  : list Channel :=
  (if webhookEnabled cfg then [webhook] else [])
  ++ (if emailEnabled cfg && match p with high => true | _ => false end
      then [email] else [])
  ++ (if slackEnabled cfg && Text.member category ["business"; "technology"]
      then [slack] else []).

Definition isSentenceEnd (c : ascii) : bool :=
  Ascii.eqb c "."%char || Ascii.eqb c "!"%char || Ascii.eqb c "?"%char.

(** [generateSummary(article)] of the alert manager, for a string title. *)
Definition generateSummary (title : string) (c s : option string) : string :=
  let text :=
    match Text.orElse c (Text.orElse s (Some title)) with
    | Some t => t
    | None => title
    end in
  if (String.length text <=? 200)%nat then text
  else
    let sentences :=
      filter (fun x => (10 <? String.length (Text.trim x))%nat)
             (Text.splitRuns isSentenceEnd text) in
    match sentences with
    | first :: _ => String.substring 0 200 (Text.trim first)
    | [] => String.substring 0 200 text
    end.

(** [shouldSendAlert(article)]; [None] when reading the title throws. *)
Definition shouldSendAlert (cfg : Config) (now : Z) (a : Article) (m : Manager)
  : option bool :=
  if negb (checkRateLimit cfg now m) then Some false
  else
    match title a with
    | None => None
    | Some t =>
        if isInCooldown cfg now t (source a) m then Some false
        else if negb (meetsQualityThreshold now a) then Some false
        else Some true
    end.

(** The alert built by [processAlert]; [alertId] is [generateAlertId()]. *)
Definition newAlert (cfg : Config) (now : Z) (alertId : string) (t : string)
  (a : Article) : Alert.t :=
  let p := calculatePriority t (content a) (summary a) (category a) in
  {| Alert.id := alertId;
     Alert.articleId := _id a;
     Alert.title := t;
     Alert.summary :=
       match Text.orElse (summary a) None with
       | Some s => s
       | None => generateSummary t (content a) (summary a)
       end;
     Alert.source := source a;
     Alert.category := category a;
     Alert.priority := p;
     Alert.url := url a;
     Alert.publishedAt := publishedAt a;
     Alert.entities := entities a;
     Alert.tags := tags a;
     Alert.createdAt := now;
     Alert.channels := determineChannels cfg p (category a);
     Alert.status := pending;
     Alert.sentAt := None;
     Alert.results := [] |}.

(** [processAlert(article)]: exceptions are caught and logged. *)
Definition processAlert (cfg : Config) (now : Z) (alertId : string)
  (a : Article) (m : Manager) : Manager :=
  match shouldSendAlert cfg now a m, title a with
  | Some true, Some t =>
      {| alertQueue := alertQueue m ++ [newAlert cfg now alertId t a];
         alertHistory := alertHistory m;
         alerts := alerts m;
         totalAlerts := totalAlerts m + 1;
         successfulAlerts := successfulAlerts m;
         failedAlerts := failedAlerts m;
         filteredAlerts := filteredAlerts m;
         lastAlertSent := lastAlertSent m |}
  | Some false, _ =>
      {| alertQueue := alertQueue m;
         alertHistory := alertHistory m;
         alerts := alerts m;
         totalAlerts := totalAlerts m;
         successfulAlerts := successfulAlerts m;
         failedAlerts := failedAlerts m;
         filteredAlerts := filteredAlerts m + 1;
         lastAlertSent := lastAlertSent m |}
  | _, _ => m
  end.

(** [map.set(key, value)] *)
Fixpoint mapSet (key : string) (value : Z) (entries : list (string * Z))
  : list (string * Z) :=
  match entries with
  | [] => [(key, value)]
  | (k, v) :: rest =>
      if String.eqb k key then (key, value) :: rest
      else (k, v) :: mapSet key value rest
  end.

(** [trackAlert(alert)] *)
Definition trackAlert (now : Z) (al : Alert.t) (history : list (string * Z))
  : list (string * Z) :=
  let alertKey := generateArticleKey (Alert.title al) (Alert.source al) in
  mapSet (Alert.id al ++ "_" ++ alertKey) now history.

(** The result of one channel; the e-mail channel is a stub that always
    succeeds, the other two depend on the network ([deliver]). *)
Definition sendVia (deliver : Alert.t -> Channel -> bool) (al : Alert.t)
  (c : Channel) : ChannelResult :=
  {| channel := c;
     success := match c with
                | email => true
                | _ => deliver al c
                end |}.

(** The alert after dispatch: [status], [sentAt] and [results] are set. *)
Definition dispatched (al : Alert.t) (rs : list ChannelResult) (ok : bool)
  (now created : Z) : Alert.t :=
  {| Alert.id := Alert.id al; Alert.articleId := Alert.articleId al;
     Alert.title := Alert.title al; Alert.summary := Alert.summary al;
     Alert.source := Alert.source al; Alert.category := Alert.category al;
     Alert.priority := Alert.priority al; Alert.url := Alert.url al;
     Alert.publishedAt := Alert.publishedAt al;
     Alert.entities := Alert.entities al; Alert.tags := Alert.tags al;
     Alert.createdAt := created;
     Alert.channels := Alert.channels al;
     Alert.status := if ok then sent else failed;
     Alert.sentAt := Some now;
     Alert.results := rs |}.

(** [sendAlert(alert)].  [insertAlert] stamps the stored copy with its own
    [createdAt]. *)
Definition sendAlert (deliver : Alert.t -> Channel -> bool) (now : Z)
  (al : Alert.t) (m : Manager) : Manager :=
  let rs := map (sendVia deliver al) (Alert.channels al) in
  let successCount := List.length (filter success rs) in
  let ok := (0 <? successCount)%nat in
  {| alertQueue := alertQueue m;
     alertHistory :=
       trackAlert now (dispatched al rs ok now (Alert.createdAt al)) (alertHistory m);
     alerts := alerts m ++ [dispatched al rs ok now now];
     totalAlerts := totalAlerts m;
     successfulAlerts := if ok then successfulAlerts m + 1 else successfulAlerts m;
     failedAlerts := if ok then failedAlerts m else failedAlerts m + 1;
     filteredAlerts := filteredAlerts m;
     lastAlertSent := if ok then Some now else lastAlertSent m |}.

(** [processAlertQueue()]: one alert per tick of the queue worker. *)
Definition processAlertQueue (deliver : Alert.t -> Channel -> bool) (now : Z)
  (m : Manager) : Manager :=
  match alertQueue m with
  | [] => m
  | al :: rest =>
      sendAlert deliver now al
        {| alertQueue := rest;
           alertHistory := alertHistory m;
           alerts := alerts m;
           totalAlerts := totalAlerts m;
           successfulAlerts := successfulAlerts m;
           failedAlerts := failedAlerts m;
           filteredAlerts := filteredAlerts m;
           lastAlertSent := lastAlertSent m |}
  end.

(** [cleanupAlertHistory()] *)
Definition cleanupAlertHistory (now : Z) (m : Manager) : Manager :=
  let cutoff := (now - 24 * 60 * 60 * 1000)%Z in
  {| alertQueue := alertQueue m;
     alertHistory := filter (fun entry => negb (snd entry <? cutoff)%Z) (alertHistory m);
     alerts := alerts m;
     totalAlerts := totalAlerts m;
     successfulAlerts := successfulAlerts m;
     failedAlerts := failedAlerts m;
     filteredAlerts := filteredAlerts m;
     lastAlertSent := lastAlertSent m |}.

End AlertManager.

(* ===================================================================== *)
(** * Vectors: the cosine of two embeddings, over the reals *)
(* ===================================================================== *)

Module Vector.

(** The three sums of the [for] loop of [cosineSimilarity]. *)
Fixpoint accumulate (vectorA vectorB : list R) (dotProduct normA normB : R)
  : R * R * R :=
  match vectorA, vectorB with
  | x :: a', y :: b' =>
      accumulate a' b' (dotProduct + x * y)%R (normA + x * x)%R (normB + y * y)%R
  | _, _ => (dotProduct, normA, normB)
  end.

(** [cosineSimilarity(vectorA, vectorB)]; [None] is a missing vector. *)
Definition cosineSimilarity (vectorA vectorB : option (list R)) : R :=
  match vectorA, vectorB with
  | Some a, Some b =>
      if negb (List.length a =? List.length b)%nat then 0%R
      else
        let '(dotProduct, normA, normB) := accumulate a b 0%R 0%R 0%R in
        let magnitude := (sqrt normA * sqrt normB)%R in
        if Req_dec_T magnitude 0%R then 0%R else (dotProduct / magnitude)%R
  | _, _ => 0%R
  end.

(** [normalizeVector(vector)] *)
Definition normalizeVector (vector : list R) : list R :=
  let magnitude := sqrt (fold_left (fun sum val => (sum + val * val)%R) vector 0%R) in
  if Req_dec_T magnitude 0%R then vector
  else map (fun val => (val / magnitude)%R) vector.

(** [xs[i % xs.length]], when there is such an element. *)
Definition cyclic {A : Type} (xs : list A) (i : nat) : option A :=
  match xs with
  | [] => None
  | _ :: _ => nth_error xs (i mod List.length xs)
  end.

(** One component of the pseudo-vector, before normalization. *)
Definition mockValue (dimension : nat) (text : string) (i : nat) : R :=
  let words := Text.splitWhitespace (Text.toLowerCase text) in
  let charCodes := map Text.code (list_ascii_of_string text) in
  let wordFeature :=
    match cyclic words i with
    | Some (String c w) => (INR (String.length (String c w)) * 0.1)%R
    | _ => 0%R
    end in
  let charFeature :=
    match cyclic charCodes i with
    | Some (S n) => (sin (INR (S n) / 127.0) * 0.5)%R
    | _ => 0%R
    end in
  let lengthFeature := (INR (String.length text mod 100) / 100.0 * 0.2)%R in
  let positionFeature := (cos (INR i / INR dimension * PI) * 0.3)%R in
  (0 + wordFeature + charFeature + lengthFeature + positionFeature)%R.

(** [generateMockEmbedding(text)] with [config.deduplication.vectorDimension]. *)
Definition generateMockEmbedding (dimension : nat) (text : string) : list R :=
  normalizeVector (map (mockValue dimension text) (seq 0 dimension)).

End Vector.

(* ===================================================================== *)
(** * Vectors in double precision: the cosine as the code computes it *)
(* ===================================================================== *)

Module DoubleVector.

(** The three sums of the [for] loop of a cosine.  The loop runs over
    [vectorA]; a component that [vectorB] does not have is [undefined],
    and a product with it is NaN. *)
Fixpoint accumulate (vectorA vectorB : list Double.t)
  (dotProduct normA normB : Double.t) : Double.t * Double.t * Double.t :=
  match vectorA with
  | [] => (dotProduct, normA, normB)
  | x :: a' =>
      let y := hd Double.NaN vectorB in
      accumulate a' (tl vectorB)
        (Double.add dotProduct (Double.mul x y))
        (Double.add normA (Double.mul x x))
        (Double.add normB (Double.mul y y))
  end.

(** [Math.sqrt(normA) * Math.sqrt(normB)] *)
Definition magnitudeOf (vectorA vectorB : list Double.t) : Double.t :=
  let '(_, normA, normB) :=
    accumulate vectorA vectorB Double.zero Double.zero Double.zero in
  Double.mul (Double.sqrt normA) (Double.sqrt normB).

(** The loop and the quotient that the three cosines of the repository
    share: [magnitude === 0 ? 0 : dotProduct / magnitude]. *)
Definition quotientOf (vectorA vectorB : list Double.t) : Double.t :=
  let '(dotProduct, _, _) :=
    accumulate vectorA vectorB Double.zero Double.zero Double.zero in
  let magnitude := magnitudeOf vectorA vectorB in
  if Double.eqb magnitude Double.zero then Double.zero
  else Double.div dotProduct magnitude.

(** [cosineSimilarity(vectorA, vectorB)] of the engine and of
    [SimpleTfIdf]; [None] is a missing vector. *)
Definition cosineSimilarity (vectorA vectorB : option (list Double.t)) : Double.t :=
  match vectorA, vectorB with
  | Some a, Some b =>
      if negb (List.length a =? List.length b)%nat then Double.zero
      else quotientOf a b
  | _, _ => Double.zero
  end.

End DoubleVector.

(* ===================================================================== *)
(** * SimpleTfIdf: the content signal, over the reals *)
(* ===================================================================== *)

Module SimpleTfIdf.

(** [this.documents], [this.vocabulary] (a [Set], in insertion order) and
    [this.documentFrequencies] (a [Map]). *)
Record t : Type := mk {
  documents : list (list string);
  vocabulary : list string;
  documentFrequencies : list (string * nat)
}.

Definition empty : t :=
  {| documents := []; vocabulary := []; documentFrequencies := [] |}.

(** [tokenize(text)] *)
Definition tokenize (text : string) : list string :=
  match text with
  | EmptyString => []
  | _ =>
      firstn 1000
        (filter (fun word => (2 <? String.length word)%nat
                             && (String.length word <? 20)%nat)
           (Text.splitWhitespace (Text.blankNonWord (Text.toLowerCase text))))
  end.

(** [map.get(key) || 0] *)
Fixpoint frequencyOf (key : string) (entries : list (string * nat)) : nat :=
  match entries with
  | [] => 0
  | (k, v) :: rest => if String.eqb k key then v else frequencyOf key rest
  end.

(** [map.set(key, value)] *)
Fixpoint setFrequency (key : string) (value : nat) (entries : list (string * nat))
  : list (string * nat) :=
  match entries with
  | [] => [(key, value)]
  | (k, v) :: rest =>
      if String.eqb k key then (key, value) :: rest
      else (k, v) :: setFrequency key value rest
  end.

(** [set.add(word)] *)
Definition addWord (words : list string) (word : string) : list string :=
  if Text.member word words then words else words ++ [word].

Definition countWord (entries : list (string * nat)) (word : string)
  : list (string * nat) :=
  setFrequency word (frequencyOf word entries + 1) entries.

(** [addDocument(document)] *)
Definition addDocument (document : string) (st : t) : t :=
  match document with
  | EmptyString => st
  | _ =>
      let words := tokenize document in
      let uniqueWords := Text.distinct words in
      {| documents := documents st ++ [words];
         vocabulary := fold_left addWord uniqueWords (vocabulary st);
         documentFrequencies :=
           fold_left countWord uniqueWords (documentFrequencies st) |}
  end.

(** [tf(term, document)] *)
Definition tf (term : string) (document : list string) : R :=
  match document with
  | [] => 0%R
  | _ :: _ =>
      (INR (List.length (filter (fun word => String.eqb word term) document))
       / INR (List.length document))%R
  end.

(** [idf(term)] *)
Definition idf (st : t) (term : string) : R :=
  match frequencyOf term (documentFrequencies st) with
  | O => 0%R
  | S n => ln (INR (List.length (documents st)) / INR (S n))
  end.

(** [tfidf(term, docIndex)] *)
Definition tfidf (st : t) (term : string) (docIndex : nat) : R :=
  match nth_error (documents st) docIndex with
  | None => 0%R
  | Some document => (tf term document * idf st term)%R
  end.

(** [getVector(docIndex)] *)
Definition getVector (st : t) (docIndex : nat) : list R :=
  if (List.length (documents st) <=? docIndex)%nat then []
  else map (fun term => tfidf st term docIndex) (firstn 500 (vocabulary st)).

(** [calculateSimilarity(docIndex1, docIndex2)] *)
Definition calculateSimilarity (st : t) (docIndex1 docIndex2 : nat) : R :=
  let vector1 := getVector st docIndex1 in
  let vector2 := getVector st docIndex2 in
  match vector1, vector2 with
  | [], _ | _, [] => 0%R
  | _, _ => Vector.cosineSimilarity (Some vector1) (Some vector2)
  end.

(** [calculateContentSimilarity], from the two preprocessed contents on. *)
Definition similarityOfContents (content1 content2 : string) : R :=
  if (String.length content1 <? 10)%nat || (String.length content2 <? 10)%nat
  then 0%R
  else calculateSimilarity (addDocument content2 (addDocument content1 empty)) 0 1.

End SimpleTfIdf.

(* ===================================================================== *)
(** * VectorSimilarity: the embedding cache, distances and clusters *)
(* ===================================================================== *)

(** What an embedding provider answers: the call throws, or it gives the
    [embedding] field of the response, which may be missing. *)
Inductive Reply : Type :=
| Threw
| Gave (embedding : option (list R)).

(** The providers that were initialized: [this.openai] and [this.cohere],
    each with the answer it gives to a text. *)
Record Providers : Type := mkProviders {
  openai : option (string -> Reply);
  cohere : option (string -> Reply)
}.

(** A deployment without API keys: every embedding is a mock embedding. *)
Definition noProviders : Providers := {| openai := None; cohere := None |}.

#[local] Set Warnings "-abstract-large-number".

Module VectorSimilarity.

(** [this.maxCacheSize] *)
Definition maxCacheSize : nat := 1000.

(** [ToInt32]: the number read as a signed 32-bit integer. *)
Definition toInt32 (n : Z) : Z := ((n + 2 ^ 31) mod 2 ^ 32 - 2 ^ 31)%Z.

(** One round of the loop of [generateCacheKey]:
    [hash = ((hash << 5) - hash) + char; hash = hash & hash]. *)
Definition hashStep (hash : Z) (c : ascii) : Z :=
  toInt32 (toInt32 (Z.shiftl hash 5) - hash + Z.of_nat (Text.code c))%Z.

(** [generateCacheKey(text)]: the number whose decimal form is the key. *)
Definition generateCacheKey (text : string) : Z :=
  fold_left hashStep (list_ascii_of_string text) 0%Z.

(** [this.embeddingCache]: a [Map] from key to embedding, in the order of
    insertion. *)
Definition Cache : Type := list (Z * list R).

(** [cache.get(key)] *)
Fixpoint cacheGet (key : Z) (cache : Cache) : option (list R) :=
  match cache with
  | [] => None
  | (k, v) :: rest => if (k =? key)%Z then Some v else cacheGet key rest
  end.

(** [cache.set(key, embedding)] *)
Fixpoint cacheSet (key : Z) (embedding : list R) (cache : Cache) : Cache :=
  match cache with
  | [] => [(key, embedding)]
  | (k, v) :: rest =>
      if (k =? key)%Z then (key, embedding) :: rest
      else (k, v) :: cacheSet key embedding rest
  end.

(** [cacheEmbedding(key, embedding)]: when the cache is full, the entry
    that was inserted first is deleted. *)
Definition cacheEmbedding (key : Z) (embedding : list R) (cache : Cache) : Cache :=
  cacheSet key embedding
    (if (maxCacheSize <=? List.length cache)%nat then tl cache else cache).

(** [truncateText(text, maxLength)] *)
Definition truncateText (text : string) (maxLength : nat) : string :=
  if (String.length text <=? maxLength)%nat then text
  else
    let truncated := String.substring 0 maxLength text in
    match NewsProcessor.lastIndexOf " "%char truncated with
    | Some lastSpace =>
        if Qgtb (ofNat lastSpace) (ofNat maxLength * 0.8)%Q
        then String.substring 0 lastSpace truncated
        else truncated
    | None => truncated
    end.

(** [generateOpenAIEmbedding] and [generateCohereEmbedding]: the provider
    is asked for the truncated text. *)
Definition ask (provider : string -> Reply) (text : string) (maxLength : nat)
  : Reply :=
  provider (truncateText text maxLength).

(** [generateEmbedding(text)] for a string: the cache after the call and
    the value returned, [None] for [null] or a missing embedding. *)
Definition generateEmbedding (providers : Providers) (dimension : nat)
  (text : string) (cache : Cache) : Cache * option (list R) :=
  match text with
  | EmptyString => (cache, None)
  | _ =>
      let cacheKey := generateCacheKey text in
      match cacheGet cacheKey cache with
      | Some embedding => (cache, Some embedding)
      | None =>
          let reply :=
            match openai providers, cohere providers with
            | Some provider, _ => ask provider text 8000
            | None, Some provider => ask provider text 4000
            | None, None => Gave (Some (Vector.generateMockEmbedding dimension text))
            end in
          match reply with
          | Gave (Some embedding) =>
              (cacheEmbedding cacheKey embedding cache, Some embedding)
          | Gave None => (cache, None)
          | Threw => (cache, Some (Vector.generateMockEmbedding dimension text))
          end
      end
  end.

(** The sum a distance loop builds up over the components of [vectorA].
    A component that [vectorB] lacks is [undefined], and the difference
    with it is NaN. *)
Fixpoint sumOver (term : Double.t -> Double.t -> Double.t)
  (vectorA vectorB : list Double.t) (sum : Double.t) : Double.t :=
  match vectorA with
  | [] => sum
  | x :: a' =>
      sumOver term a' (tl vectorB)
        (Double.add sum (term x (hd Double.NaN vectorB)))
  end.

(** [euclideanDistance(vectorA, vectorB)] *)
Definition euclideanDistance (vectorA vectorB : list Double.t) : Double.t :=
  Double.sqrt
    (sumOver (fun x y => let diff := Double.sub x y in Double.mul diff diff)
             vectorA vectorB Double.zero).

(** [manhattanDistance(vectorA, vectorB)] *)
Definition manhattanDistance (vectorA vectorB : list Double.t) : Double.t :=
  sumOver (fun x y => Double.abs (Double.sub x y)) vectorA vectorB Double.zero.

(** [cosineSimilarity(vectorA, vectorB)] of this class, which does not
    compare the lengths. *)
Definition cosineSimilarity (vectorA vectorB : list Double.t) : Double.t :=
  DoubleVector.quotientOf vectorA vectorB.

(** [calculateSimilarity(vector1, vector2)]; [None] is a missing vector. *)
Definition calculateSimilarity (vector1 vector2 : option (list Double.t))
  : Double.t :=
  match vector1, vector2 with
  | Some v1, Some v2 =>
      if negb (List.length v1 =? List.length v2)%nat then Double.zero
      else cosineSimilarity v1 v2
  | _, _ => Double.zero
  end.

(** The inner loop of [assignToClusters]: the index of the centroid to
    which the vector is most similar.  A similarity that is NaN is never
    greater than the best one so far. *)
Fixpoint bestClusterFrom (vector : list Double.t) (centroids : list (list Double.t))
  (i bestCluster : nat) (bestSimilarity : Double.t) : nat :=
  match centroids with
  | [] => bestCluster
  | centroid :: rest =>
      let similarity := cosineSimilarity vector centroid in
      if Double.gtb similarity bestSimilarity
      then bestClusterFrom vector rest (S i) i similarity
      else bestClusterFrom vector rest (S i) bestCluster bestSimilarity
  end.

(** [clusters[i].vectors.push(vector)]; [None] is the [TypeError] of
    reading [vectors] of a cluster that is not there. *)
Fixpoint pushTo (i : nat) (vector : list Double.t)
  (clusters : list (list (list Double.t)))
  : option (list (list (list Double.t))) :=
  match clusters, i with
  | [], _ => None
  | vectors :: rest, O => Some ((vectors ++ [vector]) :: rest)
  | vectors :: rest, S i' =>
      match pushTo i' vector rest with
      | Some rest' => Some (vectors :: rest')
      | None => None
      end
  end.

(** The outer loop of [assignToClusters]. *)
Fixpoint assignFrom (vectors centroids : list (list Double.t))
  (clusters : list (list (list Double.t)))
  : option (list (list (list Double.t))) :=
  match vectors with
  | [] => Some clusters
  | vector :: rest =>
      match pushTo (bestClusterFrom vector centroids 0 0 (Double.ofZ (-1)))
                   vector clusters with
      | Some clusters' => assignFrom rest centroids clusters'
      | None => None
      end
  end.

(** [assignToClusters(vectors, centroids)]: the vectors of each cluster;
    the cluster at position [i] is the one with [cluster: i]. *)
Definition assignToClusters (vectors centroids : list (list Double.t))
  : option (list (list (list Double.t))) :=
  assignFrom vectors centroids (map (fun _ => []) centroids).

End VectorSimilarity.

(* ===================================================================== *)
(** * ClusteringEngine: the similarity of clusters *)
(* ===================================================================== *)

(** A cluster of the clustering cache.  The centroid, a summary of the
    articles that no similarity reads, is left out. *)
Module Cluster.
Record t : Type := mk {
  id : string;
  articles : list ObjectId;
  created : Z;
  updated : Z;
  tags : list string;
  category : string;
  sources : list string
}.
End Cluster.

(** An entry of the result of [findCandidateClusters]:
    [{ clusterId, cluster, similarity }]. *)
Record CandidateCluster : Type := mkCandidateCluster {
  candidateCluster : Cluster.t;
  clusterSimilarity : Q
}.

(** An entry of the result of [findMergeCandidates]:
    [{ cluster1, cluster2, similarity }]. *)
Record MergeCandidate : Type := mkMergeCandidate {
  cluster1 : string;
  cluster2 : string;
  mergeSimilarity : Q
}.

Module ClusteringEngine.

(** [intersection.size / union.size] of two lists read as sets. *)
Definition overlap (xs ys : list string) : Q :=
  let set1 := Text.distinct xs in
  let set2 := Text.distinct ys in
  (ofNat (List.length (DeduplicationEngine.intersection set1 set2))
   / ofNat (List.length (DeduplicationEngine.union set1 set2)))%Q.

Definition unionSize (xs ys : list string) : nat :=
  List.length (DeduplicationEngine.union (Text.distinct xs) (Text.distinct ys)).

(** [calculateClusterSimilarity(article, cluster)] *)
Definition calculateClusterSimilarity (now : Z) (a : Article) (cluster : Cluster.t)
  : Q :=
  let similarity0 := 0%Q in
  let similarity1 :=
    if String.eqb (category a) (Cluster.category cluster)
    then (similarity0 + 0.3)%Q else similarity0 in
  let similarity2 :=
    if (0 <? unionSize (tags a) (Cluster.tags cluster))%nat
    then (similarity1 + overlap (tags a) (Cluster.tags cluster) * 0.4)%Q
    else similarity1 in
  let similarity3 :=
    if negb (String.eqb (source a) EmptyString)
       && Text.member (source a) (Cluster.sources cluster)
    then (similarity2 + 0.2)%Q else similarity2 in
  let timeDiff := inject_Z (Z.abs (now - Cluster.updated cluster)) in
  let timeScore := Qmax 0 (1 - timeDiff / inject_Z (24 * 60 * 60 * 1000))%Q in
  let similarity4 := (similarity3 + timeScore * 0.1)%Q in
  let factors := 4%Q in
  (similarity4 / factors)%Q.

(** [xs.sort((a, b) => b.similarity - a.similarity)] *)
Fixpoint insertCandidate (x : CandidateCluster) (xs : list CandidateCluster)
  : list CandidateCluster :=
  match xs with
  | [] => [x]
  | y :: ys =>
      if Qgtb (clusterSimilarity y) (clusterSimilarity x)
      then y :: insertCandidate x ys
      else x :: xs
  end.

(** [findCandidateClusters(article)] *)
Definition findCandidateClusters (cfg : Config) (now : Z) (a : Article)
  (clusters : list Cluster.t) : list CandidateCluster :=
  let timeWindow := (timeWindowHours cfg * 60 * 60 * 1000)%Z in
  let recent :=
    filter (fun cluster => negb (timeWindow <? now - Cluster.updated cluster)%Z)
           clusters in
  let scored :=
    map (fun cluster =>
           {| candidateCluster := cluster;
              clusterSimilarity := calculateClusterSimilarity now a cluster |})
        recent in
  fold_right insertCandidate []
    (filter (fun c => Qgtb (clusterSimilarity c) 0.3%Q) scored).

(** [calculateClusterToClusterSimilarity(cluster1, cluster2)] *)
Definition calculateClusterToClusterSimilarity (c1 c2 : Cluster.t) : Q :=
  let similarity0 := 0%Q in
  let similarity1 :=
    if String.eqb (Cluster.category c1) (Cluster.category c2)
    then (similarity0 + 0.4)%Q else similarity0 in
  let similarity2 :=
    if (0 <? unionSize (Cluster.sources c1) (Cluster.sources c2))%nat
    then (similarity1 + overlap (Cluster.sources c1) (Cluster.sources c2) * 0.3)%Q
    else similarity1 in
  let similarity3 :=
    if (0 <? unionSize (Cluster.tags c1) (Cluster.tags c2))%nat
    then (similarity2 + overlap (Cluster.tags c1) (Cluster.tags c2) * 0.3)%Q
    else similarity2 in
  let factors := 3%Q in
  (similarity3 / factors)%Q.

Fixpoint insertMerge (x : MergeCandidate) (xs : list MergeCandidate)
  : list MergeCandidate :=
  match xs with
  | [] => [x]
  | y :: ys =>
      if Qgtb (mergeSimilarity y) (mergeSimilarity x)
      then y :: insertMerge x ys
      else x :: xs
  end.

(** The pairs [(i, j)] with [i < j] of the two [for] loops of
    [findMergeCandidates], in the order in which they are visited. *)
Fixpoint pairs (clusters : list Cluster.t) : list (Cluster.t * Cluster.t) :=
  match clusters with
  | [] => []
  | c :: rest => map (fun c' => (c, c')) rest ++ pairs rest
  end.

(** [findMergeCandidates(threshold)] *)
Definition findMergeCandidates (threshold : Q) (clusters : list Cluster.t)
  : list MergeCandidate :=
  let scored :=
    map (fun p =>
           {| cluster1 := Cluster.id (fst p);
              cluster2 := Cluster.id (snd p);
              mergeSimilarity :=
                calculateClusterToClusterSimilarity (fst p) (snd p) |})
        (pairs clusters) in
  fold_right insertMerge []
    (filter (fun c => Qgtb (mergeSimilarity c) threshold) scored).

End ClusteringEngine.

(* ===================================================================== *)
(** * EntityExtractor: the filter of the extracted entities *)
(* ===================================================================== *)

Module EntityExtractor.

Definition excludePatterns : list string :=
  ["monday"; "tuesday"; "wednesday"; "thursday"; "friday"; "saturday"; "sunday";
   "january"; "february"; "march"; "april"; "may"; "june"; "july"; "august";
   "september"; "october"; "november"; "december"; "america"; "american";
   "europe"; "european"; "asia"; "asian"; "africa"; "african"].

Fixpoint onlyDigits (s : string) : bool :=
  match s with
  | EmptyString => true
  | String c s' => Text.isDigit c && onlyDigits s'
  end.

(** [/^\d+$/.test(name)] *)
Definition isNumber (name : string) : bool :=
  negb (String.eqb name EmptyString) && onlyDigits name.

(** [isValidEntity(entity)] *)
Definition isValidEntity (entity : Entity.t) : bool :=
  let name := Text.trim (Text.toLowerCase (Entity.name entity)) in
  if (String.length name <? 2)%nat then false
  else if Text.member name excludePatterns then false
  else if isNumber name
          && negb (Text.member (Entity.type entity) ["MONEY"; "PERCENTAGE"])
  then false
  else if (String.length name =? 1)%nat then false
  else true.

(** [`${entity.name.toLowerCase()}-${entity.type}`] *)
Definition keyOf (entity : Entity.t) : string :=
  (Text.toLowerCase (Entity.name entity) ++ "-" ++ Entity.type entity)%string.

(** The loop of [filterAndDeduplicate], from the keys [seen] so far. *)
Fixpoint keepFrom (seen : list string) (entities : list Entity.t)
  : list Entity.t :=
  match entities with
  | [] => []
  | entity :: rest =>
      let key := keyOf entity in
      if negb (Text.member key seen) && isValidEntity entity
      then entity :: keepFrom (key :: seen) rest
      else keepFrom seen rest
  end.

(** [xs.sort((a, b) => b.confidence - a.confidence)]: stable, by
    descending confidence. *)
Fixpoint insertByConfidence (x : Entity.t) (xs : list Entity.t) : list Entity.t :=
  match xs with
  | [] => [x]
  | y :: ys =>
      if Qgtb (Entity.confidence y) (Entity.confidence x)
      then y :: insertByConfidence x ys
      else x :: xs
  end.

Definition sortByConfidence (xs : list Entity.t) : list Entity.t :=
  fold_right insertByConfidence [] xs.

(** [filterAndDeduplicate(entities)] *)
Definition filterAndDeduplicate (entities : list Entity.t) : list Entity.t :=
  firstn 50 (sortByConfidence (keepFrom [] entities)).

End EntityExtractor.

(* ===================================================================== *)
(** * DeduplicationEngine in double precision: scores and decisions *)
(* ===================================================================== *)

(** The scores of [DeduplicationEngine] above are exact rationals.  The
    code computes them in doubles, and a product or a sum that is rounded
    can fall on the other side of a threshold.  This module computes every
    signal, the overall score and the decisions taken on it as the code
    does, operation by operation, and hands the declared duplicates to
    [processDuplicates]. *)
Module DoubleEngine.

(** The records of the store, as [processDuplicates] takes them. *)
Definition StoredScores : Type := Scores.t.
Definition StoredSimilarity : Type := Similarity.
Definition StoredDuplicate : Type := Duplicate.
Definition storedSimilarity : Article -> StoredScores -> StoredSimilarity :=
  mkSimilarity.
Definition storedDuplicate : Article -> StoredSimilarity -> Q -> StoredDuplicate :=
  mkDuplicate.
Definition storedScores (contentHash : Q)
  (titleSimilarity contentSimilarity entitySimilarity semanticSimilarity
   temporalProximity sourceAlignment : option Q) (overallScore : Q) (method : Method)
  : StoredScores :=
  Scores.mk contentHash titleSimilarity contentSimilarity entitySimilarity
    semanticSimilarity temporalProximity sourceAlignment overallScore method.

(** What the scoring takes from outside the repository. *)
Record Libraries : Type := mkLibraries {
  (** [stringSimilarity.compareTwoStrings] *)
  compareTwoStrings : string -> string -> Double.t;
  (** [stopword.removeStopwords] *)
  removeStopwords : list string -> list string;
  (** [Math.log] *)
  log : Double.t -> Double.t;
  (** What [getOrGenerateEmbedding] returns for an article: the vector
      stored for it or generated for its text, [None] for [null]. *)
  getOrGenerateEmbedding : Article -> option (list Double.t)
}.

(** The object [calculateSimilarityScore] returns.  After a content-hash
    match only [contentHash], [overallScore] and [method] are present. *)
Module Scores.
Record t : Type := mk {
  contentHash : Double.t;
  titleSimilarity : option Double.t;
  contentSimilarity : option Double.t;
  entitySimilarity : option Double.t;
  semanticSimilarity : option Double.t;
  temporalProximity : option Double.t;
  sourceAlignment : option Double.t;
  overallScore : Double.t;
  method : Method
}.
End Scores.

(** An entry of [similarities]: [{ candidate, ...similarity }]. *)
Record Similarity : Type := similarityOf {
  candidate : Article;
  scores : Scores.t
}.

(** An entry of [duplicates]: [{ article, similarity, confidence }]. *)
Record Duplicate : Type := duplicateOf {
  article : Article;
  similarity : Similarity;
  confidence : Double.t
}.

(** [this.thresholds], set in the constructor. *)
Module Thresholds.
Record t : Type := mk {
  contentHash : Double.t;
  titleSimilarity : Double.t;
  contentSimilarity : Double.t;
  entitySimilarity : Double.t;
  semanticSimilarity : Double.t;
  llmValidation : Double.t
}.
End Thresholds.

Definition thresholds (cfg : Config) : Thresholds.t :=
  {| Thresholds.contentHash := Double.ofQ 1.0;
     Thresholds.titleSimilarity := Double.ofQ 0.9;
     Thresholds.contentSimilarity := Double.ofQ (similarityThreshold cfg);
     Thresholds.entitySimilarity := Double.ofQ 0.8;
     Thresholds.semanticSimilarity := Double.ofQ (similarityThreshold cfg);
     Thresholds.llmValidation := Double.ofQ 0.85 |}.

(** [jaccardSimilarity(text1, text2)] *)
Definition jaccardSimilarity (text1 text2 : string) : Double.t :=
  let set1 := Text.distinct (Text.splitSpace text1) in
  let set2 := Text.distinct (Text.splitSpace text2) in
  Double.div
    (Double.ofNat (List.length (DeduplicationEngine.intersection set1 set2)))
    (Double.ofNat (List.length (DeduplicationEngine.union set1 set2))).

(** [calculateTextSimilarity(text1, text2)] *)
Definition calculateTextSimilarity (lib : Libraries) (text1 text2 : option string)
  : Double.t :=
  match Text.orElse text1 None, Text.orElse text2 None with
  | Some t1, Some t2 =>
      let norm1 := DeduplicationEngine.normalizeText t1 in
      let norm2 := DeduplicationEngine.normalizeText t2 in
      if ((String.length norm1 =? 0) || (String.length norm2 =? 0))%nat
      then Double.zero
      else
        let jaccardSim := jaccardSimilarity norm1 norm2 in
        let cosineSim := compareTwoStrings lib norm1 norm2 in
        Double.add (Double.mul jaccardSim (Double.ofQ 0.4))
                   (Double.mul cosineSim (Double.ofQ 0.6))
  | _, _ => Double.zero
  end.

(** [tf(term, document)] of [SimpleTfIdf] *)
Definition tf (term : string) (document : list string) : Double.t :=
  match document with
  | [] => Double.zero
  | _ :: _ =>
      Double.div
        (Double.ofNat
           (List.length (filter (fun word => String.eqb word term) document)))
        (Double.ofNat (List.length document))
  end.

(** [idf(term)] *)
Definition idf (lib : Libraries) (st : SimpleTfIdf.t) (term : string) : Double.t :=
  match SimpleTfIdf.frequencyOf term (SimpleTfIdf.documentFrequencies st) with
  | O => Double.zero
  | S n =>
      log lib
        (Double.div (Double.ofNat (List.length (SimpleTfIdf.documents st)))
                    (Double.ofNat (S n)))
  end.

(** [tfidf(term, docIndex)] *)
Definition tfidf (lib : Libraries) (st : SimpleTfIdf.t) (term : string)
  (docIndex : nat) : Double.t :=
  match nth_error (SimpleTfIdf.documents st) docIndex with
  | None => Double.zero
  | Some document => Double.mul (tf term document) (idf lib st term)
  end.

(** [getVector(docIndex)] *)
Definition getVector (lib : Libraries) (st : SimpleTfIdf.t) (docIndex : nat)
  : list Double.t :=
  if (List.length (SimpleTfIdf.documents st) <=? docIndex)%nat then []
  else map (fun term => tfidf lib st term docIndex)
           (firstn 500 (SimpleTfIdf.vocabulary st)).

(** [calculateSimilarity(docIndex1, docIndex2)] of [SimpleTfIdf] *)
Definition calculateSimilarity (lib : Libraries) (st : SimpleTfIdf.t)
  (docIndex1 docIndex2 : nat) : Double.t :=
  let vector1 := getVector lib st docIndex1 in
  let vector2 := getVector lib st docIndex2 in
  match vector1, vector2 with
  | [], _ | _, [] => Double.zero
  | _, _ => DoubleVector.cosineSimilarity (Some vector1) (Some vector2)
  end.

(** [preprocessContent(content)] *)
Definition preprocessContent (lib : Libraries) (content : string) : string :=
  match content with
  | EmptyString => EmptyString
  | _ =>
      let words :=
        firstn 500
          (filter (fun word => (2 <? String.length word)%nat
                               && (String.length word <? 15)%nat)
             (Text.splitSpace (DeduplicationEngine.normalizeText content))) in
      Text.join " " (removeStopwords lib words)
  end.

(** [article.content || article.summary || ''] *)
Definition bodyOf (a : Article) : string :=
  match Text.orElse (content a) (Text.orElse (summary a) None) with
  | Some s => s
  | None => EmptyString
  end.

(** [calculateContentSimilarity(article1, article2)] *)
Definition calculateContentSimilarity (lib : Libraries) (article1 article2 : Article)
  : Double.t :=
  let content1 := preprocessContent lib (bodyOf article1) in
  let content2 := preprocessContent lib (bodyOf article2) in
  if (String.length content1 <? 10)%nat || (String.length content2 <? 10)%nat
  then Double.zero
  else
    calculateSimilarity lib
      (SimpleTfIdf.addDocument content2
         (SimpleTfIdf.addDocument content1 SimpleTfIdf.empty)) 0 1.

(** [calculateEntitySimilarity(entities1, entities2)] *)
Definition calculateEntitySimilarity (entities1 entities2 : list Entity.t)
  : Double.t :=
  match entities1, entities2 with
  | [], _ | _, [] => Double.zero
  | _, _ =>
      let names1 :=
        Text.distinct (map (fun e => Text.toLowerCase (Entity.name e)) entities1) in
      let names2 :=
        Text.distinct (map (fun e => Text.toLowerCase (Entity.name e)) entities2) in
      Double.div
        (Double.ofNat (List.length (DeduplicationEngine.intersection names1 names2)))
        (Double.ofNat (List.length (DeduplicationEngine.union names1 names2)))
  end.

(** [calculateSemanticSimilarity(article1, article2)] *)
Definition calculateSemanticSimilarity (lib : Libraries) (article1 article2 : Article)
  : Double.t :=
  match getOrGenerateEmbedding lib article1, getOrGenerateEmbedding lib article2 with
  | Some embedding1, Some embedding2 =>
      DoubleVector.cosineSimilarity (Some embedding1) (Some embedding2)
  | _, _ => Double.zero
  end.

(** [calculateTemporalProximity(date1, date2)] *)
Definition calculateTemporalProximity (date1 date2 : Z) : Double.t :=
  let timeDiff := Double.abs (Double.ofZ (date1 - date2)) in
  let hoursDiff := Double.div timeDiff (Double.ofZ (1000 * 60 * 60)) in
  Double.max Double.zero
    (Double.sub Double.one (Double.div hoursDiff (Double.ofZ 24))).

(** [calculateSourceAlignment(article1, article2)] *)
Definition calculateSourceAlignment (article1 article2 : Article) : Double.t :=
  let score0 := Double.zero in
  let score1 :=
    if String.eqb (source article1) (source article2)
    then Double.add score0 (Double.ofQ 0.4) else score0 in
  let score2 :=
    if String.eqb (category article1) (category article2)
    then Double.add score1 (Double.ofQ 0.3) else score1 in
  let tags1 := Text.distinct (tags article1) in
  let tags2 := Text.distinct (tags article2) in
  let overlap := DeduplicationEngine.tagOverlap tags1 tags2 in
  let maxTags := Nat.max (List.length tags1) (List.length tags2) in
  let score3 :=
    if (0 <? maxTags)%nat
    then Double.add score2
           (Double.mul (Double.div (Double.ofNat overlap) (Double.ofNat maxTags))
                       (Double.ofQ 0.3))
    else score2 in
  Double.min score3 (Double.ofQ 1.0).

(** [determinePrimaryMethod(scores)], with all signals computed. *)
Definition determinePrimaryMethod
  (contentHash titleSimilarity semanticSimilarity entitySimilarity : Double.t)
  : Method :=
  if Double.eqb contentHash (Double.ofQ 1.0) then content_hash
  else if Double.gtb titleSimilarity (Double.ofQ 0.9) then title_similarity
  else if Double.gtb semanticSimilarity (Double.ofQ 0.85) then semantic_similarity
  else if Double.gtb entitySimilarity (Double.ofQ 0.8) then entity_similarity
  else content_similarity.

(** The weighted sum of [calculateSimilarityScore]: six products, added
    from left to right. *)
Definition weightedScore (cfg : Config)
  (titleSim contentSim entitySim semanticSim temporalProx sourceAlign : Double.t)
  : Double.t :=
  Double.add
    (Double.add
       (Double.add
          (Double.add
             (Double.add
                (Double.mul titleSim (Double.ofQ (titleWeight cfg)))
                (Double.mul contentSim (Double.ofQ (contentWeight cfg))))
             (Double.mul entitySim (Double.ofQ (entityWeight cfg))))
          (Double.mul semanticSim (Double.ofQ 0.3)))
       (Double.mul temporalProx (Double.ofQ 0.1)))
    (Double.mul sourceAlign (Double.ofQ 0.1)).

(** [calculateSimilarityScore(article1, article2)] *)
Definition calculateSimilarityScore (lib : Libraries) (cfg : Config)
  (article1 article2 : Article) : Scores.t :=
  let hashScore :=
    if String.eqb (contentHash article1) (contentHash article2)
    then Double.ofQ 1.0 else Double.ofQ 0.0 in
  if Double.eqb hashScore (Double.ofQ 1.0) then
    {| Scores.contentHash := hashScore;
       Scores.titleSimilarity := None;
       Scores.contentSimilarity := None;
       Scores.entitySimilarity := None;
       Scores.semanticSimilarity := None;
       Scores.temporalProximity := None;
       Scores.sourceAlignment := None;
       Scores.overallScore := Double.ofQ 1.0;
       Scores.method := content_hash |}
  else
    let titleSim := calculateTextSimilarity lib (title article1) (title article2) in
    let contentSim := calculateContentSimilarity lib article1 article2 in
    let entitySim := calculateEntitySimilarity (entities article1) (entities article2) in
    let semanticSim := calculateSemanticSimilarity lib article1 article2 in
    let temporalProx :=
      calculateTemporalProximity (publishedAt article1) (publishedAt article2) in
    let sourceAlign := calculateSourceAlignment article1 article2 in
    {| Scores.contentHash := hashScore;
       Scores.titleSimilarity := Some titleSim;
       Scores.contentSimilarity := Some contentSim;
       Scores.entitySimilarity := Some entitySim;
       Scores.semanticSimilarity := Some semanticSim;
       Scores.temporalProximity := Some temporalProx;
       Scores.sourceAlignment := Some sourceAlign;
       Scores.overallScore :=
         weightedScore cfg titleSim contentSim entitySim semanticSim
           temporalProx sourceAlign;
       Scores.method :=
         determinePrimaryMethod hashScore titleSim semanticSim entitySim |}.

(** [xs.sort((a, b) => b.overallScore - a.overallScore)]: stable, by
    descending score. *)
Fixpoint insertByScore (x : Similarity) (xs : list Similarity) : list Similarity :=
  match xs with
  | [] => [x]
  | y :: ys =>
      if Double.gtb (Scores.overallScore (scores y)) (Scores.overallScore (scores x))
      then y :: insertByScore x ys
      else x :: xs
  end.

Definition sortByScore (xs : list Similarity) : list Similarity :=
  fold_right insertByScore [] xs.

(** [analyzeSimilarities(article, candidates)] *)
Definition analyzeSimilarities (lib : Libraries) (cfg : Config)
  (a : Article) (candidates : list Article) : list Similarity :=
  let scored :=
    map (fun c => {| candidate := c;
                     scores := calculateSimilarityScore lib cfg a c |}) candidates in
  sortByScore
    (filter (fun s => Double.gtb (Scores.overallScore (scores s)) (Double.ofQ 0.3))
            scored).

(** The [switch] of [identifyDuplicates]. *)
Definition thresholdFor (th : Thresholds.t) (m : Method) : Double.t :=
  match m with
  | content_hash => Thresholds.contentHash th
  | title_similarity => Thresholds.titleSimilarity th
  | semantic_similarity => Thresholds.semanticSimilarity th
  | _ => Thresholds.contentSimilarity th
  end.

Definition isDeclaredDuplicate (th : Thresholds.t) (s : Similarity) : bool :=
  Double.geb (Scores.overallScore (scores s))
             (thresholdFor th (Scores.method (scores s))).

(** [identifyDuplicates(similarities)] *)
Definition identifyDuplicates (th : Thresholds.t) (similarities : list Similarity)
  : list Duplicate :=
  map (fun s => {| article := candidate s;
                   similarity := s;
                   confidence := Scores.overallScore (scores s) |})
      (filter (isDeclaredDuplicate th) similarities).

(** A declared duplicate as the store keeps it: every number is written
    as the rational it denotes. *)
Definition recordedScores (s : Scores.t) : StoredScores :=
  storedScores
    (Double.rational (Scores.contentHash s))
    (option_map Double.rational (Scores.titleSimilarity s))
    (option_map Double.rational (Scores.contentSimilarity s))
    (option_map Double.rational (Scores.entitySimilarity s))
    (option_map Double.rational (Scores.semanticSimilarity s))
    (option_map Double.rational (Scores.temporalProximity s))
    (option_map Double.rational (Scores.sourceAlignment s))
    (Double.rational (Scores.overallScore s))
    (Scores.method s).

Definition recorded (d : Duplicate) : StoredDuplicate :=
  storedDuplicate (article d)
    (storedSimilarity (candidate (similarity d))
                      (recordedScores (scores (similarity d))))
    (Double.rational (confidence d)).

(** [performDeduplication(article)]: the candidates, the store and the
    effects are those of [DeduplicationEngine]; the scores and the
    decisions are taken in doubles. *)
Definition performDeduplication (lib : Libraries) (cfg : Config) (now : Z)
  (a : Article) : M Engine unit :=
  (candidates <- onDb (DeduplicationEngine.getCandidateArticles cfg now a) ;;
   match candidates with
   | [] => DeduplicationEngine.markAsUnique a
   | _ :: _ =>
       let similarities := analyzeSimilarities lib cfg a candidates in
       let duplicates := identifyDuplicates (thresholds cfg) similarities in
       match duplicates with
       | _ :: _ =>
           DeduplicationEngine.processDuplicates now a (map recorded duplicates)
       | [] => DeduplicationEngine.markAsUnique a
       end
   end)%monad.

End DoubleEngine.

(* ===================================================================== *)
(** * Vocabulary of the specification *)
(* ===================================================================== *)

(** A punctuation character is one the hashing normalization deletes:
    neither a word character nor white space. *)
Definition isPunctuation (c : ascii) : bool :=
  negb (Text.isWordChar c) && negb (Text.isSpace c).

(** What is left of a text when punctuation and white space are taken out
    and letter case is ignored. *)
Fixpoint skeleton (s : string) : string :=
  match s with
  | EmptyString => EmptyString
  | String c s' =>
      if Text.isWordChar c then String (Text.toLowerChar c) (skeleton s')
      else skeleton s'
  end.

(** Two texts differ only in punctuation, letter case or white space, read
    literally: they have the same skeleton. *)
Definition differOnlyInFormatting (x y : string) : Prop :=
  skeleton x = skeleton y.

(** The differences the normalization absorbs: the case of a letter, a
    punctuation character more or less, the kind of a white-space
    character, the length of a run of white space, and white space at either
    end. *)
Inductive sameUpToFormatting : string -> string -> Prop :=
| fmt_refl : forall x, sameUpToFormatting x x
| fmt_sym : forall x y, sameUpToFormatting x y -> sameUpToFormatting y x
| fmt_trans : forall x y z,
    sameUpToFormatting x y -> sameUpToFormatting y z -> sameUpToFormatting x z
| fmt_case : forall x y c c',
    Text.toLowerChar c = Text.toLowerChar c' ->
    sameUpToFormatting (x ++ String c y) (x ++ String c' y)
| fmt_punctuation : forall x y p,
    isPunctuation p = true ->
    sameUpToFormatting (x ++ String p y) (x ++ y)
| fmt_space_kind : forall x y w w',
    Text.isSpace w = true -> Text.isSpace w' = true ->
    sameUpToFormatting (x ++ String w y) (x ++ String w' y)
| fmt_space_run : forall x y w w',
    Text.isSpace w = true -> Text.isSpace w' = true ->
    sameUpToFormatting (x ++ String w (String w' y)) (x ++ String w y)
| fmt_leading : forall x w,
    Text.isSpace w = true -> sameUpToFormatting (String w x) x
| fmt_trailing : forall x w,
    Text.isSpace w = true -> sameUpToFormatting (x ++ String w EmptyString) x.

(** Whether a run of white space is open after [s] has been read. *)
Fixpoint endsInRun (inRun : bool) (s : string) : bool :=
  match s with
  | EmptyString => inRun
  | String c s' => endsInRun (Text.isSpace c) s'
  end.

Fixpoint allChars (p : ascii -> bool) (s : string) : bool :=
  match s with
  | EmptyString => true
  | String c s' => p c && allChars p s'
  end.

(** A character of a normalized text: a lower-case word character or the
    space. *)
Definition isCleanChar (c : ascii) : bool :=
  (Text.isWordChar c && Ascii.eqb (Text.toLowerChar c) c) || Ascii.eqb c " "%char.

(** A character that survives lower-casing and stripping. *)
Definition isKeptChar (c : ascii) : bool :=
  (Text.isWordChar c || Text.isSpace c) && Ascii.eqb (Text.toLowerChar c) c.

(** No white space directly after white space; [prev] tells whether the
    text is preceded by white space. *)
Fixpoint noRun (prev : bool) (s : string) : bool :=
  match s with
  | EmptyString => true
  | String c s' =>
      if Text.isSpace c then negb prev && noRun true s' else noRun false s'
  end.

Fixpoint endsClean (s : string) : bool :=
  match s with
  | EmptyString => true
  | String c EmptyString => negb (Text.isSpace c)
  | String _ s' => endsClean s'
  end.

(** The shape of a normalized text: lower-case words of word characters,
    separated by single spaces. *)
Definition isNormalized (s : string) : bool :=
  allChars isCleanChar s && noRun true s && endsClean s.

(** ** Reachable states and the invariant of the link collection *)

(** The states the pipeline reaches from an empty store: drafts are
    ingested and stored articles are handed to the engine, in any order. *)
Inductive reachable (ext : Externals) (cfg : Config) : Engine -> Prop :=
| reach_start :
    reachable ext cfg {| db := emptyStore; emitted := [] |}
| reach_ingest : forall e now d,
    reachable ext cfg e ->
    reachable ext cfg (finalState (onDb (NewsProcessor.processArticle ext now d) e))
| reach_dedup : forall e now a,
    reachable ext cfg e ->
    In a (articles (db e)) ->
    reachable ext cfg
      (finalState (DeduplicationEngine.performDeduplication ext cfg now a e)).

(** What a persisted link says about the stored articles.  A link without
    a duplicate id is one of the ingestion short-circuit; a link with one
    names two stored articles, the original published no later than the
    duplicate. *)
Definition linkWellFormed (stored : list Article) (l : DuplicateLink.t) : Prop :=
  match DuplicateLink.duplicateArticleId l with
  | None =>
      DuplicateLink.detectionMethod l = content_hash
      /\ DuplicateLink.similarityScore l = 1%Q
      /\ DuplicateLink.duplicateUrl l <> None
      /\ exists o, In o stored /\ _id o = DuplicateLink.originalArticleId l
  | Some d =>
      exists o a,
        In o stored /\ In a stored
        /\ _id o = DuplicateLink.originalArticleId l
        /\ _id a = d
        /\ (publishedAt o <= publishedAt a)%Z
  end.

Definition storeInvariant (st : Store) : Prop :=
  NoDup (map _id (articles st))
  /\ (forall a, In a (articles st) -> _id a < nextId st)
  /\ NoDup (map linkKey (duplicates st))
  /\ (forall l, In l (duplicates st) -> linkWellFormed (articles st) l).

(** ** Sample data: the identical-repost scenario *)

(** Source A posts a story; source B posts the same text a quarter of an
    hour later under its own URL. *)
Definition draftA : Draft.t :=
  {| Draft.title := Some "Acme acquires Beta for $2B";
     Draft.url := "https://a.example/acme-beta";
     Draft.source := "Source A";
     Draft.category := "business";
     Draft.tags := ["business"; "deals"];
     Draft.content := Some "Acme said on Monday that it will acquire Beta.";
     Draft.summary := None;
     Draft.publishedAt := 1700000000000%Z |}.

Definition draftB : Draft.t :=
  {| Draft.title := Some "Acme acquires Beta for $2B";
     Draft.url := "https://b.example/business/acme-beta";
     Draft.source := "Source B";
     Draft.category := "business";
     Draft.tags := ["markets"];
     Draft.content := Some "Acme said on Monday that it will acquire Beta.";
     Draft.summary := None;
     Draft.publishedAt := 1700000900000%Z |}.

(** The store after source A's story was ingested. *)
Definition storeAfterA : Store :=
  finalState (NewsProcessor.processArticle sha256Externals 1700000060000%Z draftA emptyStore).

(** The engine state after both drafts of the identical-repost scenario
    were presented to the ingestion stage. *)
Definition engineAfterRepost : Engine :=
  finalState
    (onDb (NewsProcessor.processArticle sha256Externals 1700000960000%Z draftB)
       (finalState
          (onDb (NewsProcessor.processArticle sha256Externals 1700000060000%Z draftA)
             {| db := emptyStore; emitted := [] |}))).

(** The engine state with a chosen list of stored articles. *)
Definition withArticles (e : Engine) (stored : list Article) : Engine :=
  {| db := {| articles := stored;
              duplicates := duplicates (db e);
              nextId := nextId (db e) |};
     emitted := emitted e |}.

(** ** Sample data: two reports published at the same instant *)

Definition report (id : ObjectId) (t u src : string) (published created : Z)
  : Article :=
  {| _id := id; title := Some t; url := u; source := src;
     category := "business"; tags := ["business"];
     content := Some "Acme said on Monday that it will acquire Beta.";
     summary := None; publishedAt := published;
     contentHash := Sha256.hexDigest u; entities := [];
     processed := false; alertSent := false; duplicateChecked := false;
     isDuplicate := false; originalArticleId := None; createdAt := created |}.

(** Stored first. *)
Definition earlierStored : Article :=
  report 0 "Acme to acquire Beta" "https://a.example/1" "Source A"
         1700000000000%Z 1700000060000%Z.

(** Stored second, published at the same instant. *)
Definition laterStored : Article :=
  report 1 "Acme to acquire Beta in cash deal" "https://b.example/1" "Source B"
         1700000000000%Z 1700000120000%Z.

(** A report published a quarter of an hour after [earlierStored]. *)
Definition followUp : Article :=
  report 1 "Acme to acquire Beta in cash deal" "https://b.example/1" "Source B"
         1700000900000%Z 1700000960000%Z.

Definition storedWithFollowUp : Engine :=
  {| db := {| articles := [earlierStored; followUp];
              duplicates := [];
              nextId := 2 |};
     emitted := [] |}.

(** ** Sample data: a wire story that two outlets carry *)

Definition headline : string := "Acme to acquire Beta".

Definition wireDraft (t u src body : string) (published : Z) : Draft.t :=
  {| Draft.title := Some t;
     Draft.url := u;
     Draft.source := src;
     Draft.category := "business";
     Draft.tags := ["business"];
     Draft.content := Some body;
     Draft.summary := None;
     Draft.publishedAt := published |}.

(** The article the ingestion stage stores for a draft. *)
Definition asStored (ext : Externals) (d : Draft.t) (id : ObjectId) (created : Z)
  : Article :=
  NewsProcessor.newArticle ext d (NewsProcessor.generateContentHash ext d)
    id created.

Definition acmeAndBeta : list Entity.t :=
  [{| Entity.name := "Acme"; Entity.type := "ORGANIZATION";
      Entity.confidence := 0.75%Q |};
   {| Entity.name := "Beta"; Entity.type := "ORGANIZATION";
      Entity.confidence := 0.75%Q |}].

(** A deployment whose entity extractor finds the two companies in every
    sample text. *)
Definition wireExternals : Externals :=
  {| digest := Sha256.hexDigest;
     extractEntities := fun _ => acmeAndBeta;
     compareTwoStrings := fun _ _ => 0%Q;
     contentSimilarityOf := fun _ _ => 0%Q;
     semanticSimilarityOf := fun _ _ => 0%Q |}.

(** The pairs of adjacent characters of a string. *)
Fixpoint bigrams (s : string) : list string :=
  match s with
  | String c ((String d _) as s') => String c (String d EmptyString) :: bigrams s'
  | _ => []
  end.

(** A string without its white space. *)
Fixpoint withoutSpaces (s : string) : string :=
  match s with
  | EmptyString => EmptyString
  | String c s' =>
      if Text.isSpace c then withoutSpaces s' else String c (withoutSpaces s')
  end.

(** Whether two strings, white space aside, have a pair of adjacent
    characters in common.  The Dice coefficient of [string-similarity] is
    1 for two equal strings and 0 for two strings that have none. *)
Definition shareBigram (x y : string) : bool :=
  existsb (fun b => Text.member b (bigrams (withoutSpaces y)))
          (bigrams (withoutSpaces x)).

(** The double nearest to the natural logarithm of 2. *)
Definition ln2 : Double.t := Double.ofQ 0.6931471805599453.

(** The text of the story as source A and as source B carry it: the two
    differ in the desk code alone. *)
Definition deskAa : string := "Acme confirms Beta takeover; shares jump. Desk Aa.".
Definition deskBB : string := "Acme confirms Beta takeover; shares jump. Desk BB.".

(** The libraries as they answer for the sample articles: the Dice
    coefficient of two headlines that are equal or share no pair of
    letters; a stop-word list that none of the sample words is on;
    [Math.log] at 1 and 2, the two arguments [idf] has in an instance of
    two documents; and the embeddings: one vector for the texts under the
    headline, which have one cache key, so that the vector generated for
    one of them is the vector returned for the other, and another vector
    for any other text. *)
Definition wireLibraries : DoubleEngine.Libraries :=
  {| DoubleEngine.compareTwoStrings :=
       fun x y => if String.eqb x y then Double.one else Double.zero;
     DoubleEngine.removeStopwords := fun words => words;
     DoubleEngine.log :=
       fun x =>
         if Double.eqb x Double.one then Double.zero
         else if Double.eqb x (Double.ofZ 2) then ln2
         else Double.NaN;
     DoubleEngine.getOrGenerateEmbedding :=
       fun a =>
         match title a with
         | Some t =>
             if String.eqb t headline
             then Some [Double.ofQ 0.6; Double.ofQ 0.8]
             else Some [Double.ofQ 0.8; Double.ofQ 0.6]
         | None => None
         end |}.

(** The story as source A and source B carry it: one headline, one
    instant of publication, two texts. *)
Definition firstCopy : Article :=
  asStored wireExternals
    (wireDraft headline "https://a.example/acme-beta" "Source A"
       deskAa 1700000000000%Z)
    0 1700000060000%Z.

Definition secondCopy : Article :=
  asStored wireExternals
    (wireDraft headline "https://b.example/acme-beta" "Source B"
       deskBB 1700000000000%Z)
    1 1700000120000%Z.

(** Source B's copy when it is published a quarter of an hour later. *)
Definition lateCopy : Article :=
  asStored wireExternals
    (wireDraft headline "https://b.example/acme-beta" "Source B"
       deskBB 1700000900000%Z)
    1 1700000960000%Z.

(** A second article of source A under the headline, published at the
    same instant, from a deployment that extracts no entities. *)
Definition firstEdition : Article :=
  asStored sha256Externals
    (wireDraft headline "https://a.example/acme-beta" "Source A"
       deskAa 1700000000000%Z)
    0 1700000060000%Z.

Definition secondEdition : Article :=
  asStored sha256Externals
    (wireDraft headline "https://a.example/acme-beta-2" "Source A"
       deskBB 1700000000000%Z)
    1 1700000120000%Z.

(** Another story of source A that names the two companies. *)
Definition sideStory : Article :=
  asStored wireExternals
    (wireDraft "Union wins vote" "https://a.example/union" "Source A"
       "Acme union wins Beta plant vote; strike ends." 1700000000000%Z)
    1 1700000120000%Z.

Definition engineWith (stored : list Article) : Engine :=
  {| db := {| articles := stored;
              duplicates := [];
              nextId := List.length stored |};
     emitted := [] |}.

(** A deployment configured with a similarity threshold of 0.6. *)
Definition lenientConfig : Config :=
  {| similarityThreshold := 0.6%Q;
     timeWindowHours := timeWindowHours defaultConfig;
     titleWeight := titleWeight defaultConfig;
     contentWeight := contentWeight defaultConfig;
     entityWeight := entityWeight defaultConfig;
     batchSize := batchSize defaultConfig;
     cooldownMinutes := cooldownMinutes defaultConfig;
     maxAlertsPerHour := maxAlertsPerHour defaultConfig;
     webhookEnabled := webhookEnabled defaultConfig;
     emailEnabled := emailEnabled defaultConfig;
     slackEnabled := slackEnabled defaultConfig |}.

(** The libraries of a deployment whose provider answers with [e1] for
    the first sample article and with [e2] for any other. *)
Definition libraryWith (e1 e2 : list Double.t) : DoubleEngine.Libraries :=
  {| DoubleEngine.compareTwoStrings := DoubleEngine.compareTwoStrings wireLibraries;
     DoubleEngine.removeStopwords := DoubleEngine.removeStopwords wireLibraries;
     DoubleEngine.log := DoubleEngine.log wireLibraries;
     DoubleEngine.getOrGenerateEmbedding :=
       fun a => if (_id a =? 0)%nat then Some e1 else Some e2 |}.

(** The duplicates that are declared when [secondCopy] is compared with
    [firstCopy], as the store keeps them. *)
Definition matchesOfSecondCopy : list Duplicate :=
  map DoubleEngine.recorded
    (DoubleEngine.identifyDuplicates (DoubleEngine.thresholds defaultConfig)
       (DoubleEngine.analyzeSimilarities wireLibraries defaultConfig
          secondCopy [firstCopy])).

(** ** The tables and formulas of the specification *)

(** The per-method threshold as the specification lists it. *)
Definition specThreshold (cfg : Config) (m : Method) : Q :=
  match m with
  | content_hash => 1.0%Q
  | title_similarity => 0.9%Q
  | semantic_similarity => 0.85%Q
  | entity_similarity => 0.8%Q
  | _ => similarityThreshold cfg
  end.

Definition indicator (b : bool) : Q := if b then 1%Q else 0%Q.

(** The Jaccard similarity of two tag sets: intersection over union. *)
Definition tagJaccard (tags1 tags2 : list string) : Q :=
  let t1 := Text.distinct tags1 in
  let t2 := Text.distinct tags2 in
  (ofNat (List.length (DeduplicationEngine.intersection t1 t2))
   / ofNat (List.length (DeduplicationEngine.union t1 t2)))%Q.

(** The source-alignment signal as the specification defines it. *)
Definition specSourceAlignment (a1 a2 : Article) : Q :=
  (0.4 * indicator (String.eqb (source a1) (source a2))
   + 0.3 * indicator (String.eqb (category a1) (category a2))
   + 0.3 * tagJaccard (tags a1) (tags a2))%Q.

(** The share of common tags that the code uses: common tags over the size
    of the larger tag set. *)
Definition tagShare (tags1 tags2 : list string) : Q :=
  let t1 := Text.distinct tags1 in
  let t2 := Text.distinct tags2 in
  let larger := Nat.max (List.length t1) (List.length t2) in
  if (larger =? 0)%nat then 0%Q
  else (ofNat (DeduplicationEngine.tagOverlap t1 t2) / ofNat larger)%Q.

Definition withTags (a : Article) (ts : list string) : Article :=
  {| _id := _id a; title := title a; url := url a; source := source a;
     category := category a; tags := ts; content := content a;
     summary := summary a; publishedAt := publishedAt a;
     contentHash := contentHash a; entities := entities a;
     processed := processed a; alertSent := alertSent a;
     duplicateChecked := duplicateChecked a; isDuplicate := isDuplicate a;
     originalArticleId := originalArticleId a; createdAt := createdAt a |}.

(** ** Sample data: a burst of two admissions under a limit of one *)

Definition hourlyLimitOne : Config :=
  {| similarityThreshold := similarityThreshold defaultConfig;
     timeWindowHours := timeWindowHours defaultConfig;
     titleWeight := titleWeight defaultConfig;
     contentWeight := contentWeight defaultConfig;
     entityWeight := entityWeight defaultConfig;
     batchSize := batchSize defaultConfig;
     cooldownMinutes := cooldownMinutes defaultConfig;
     maxAlertsPerHour := 1%Z;
     webhookEnabled := true;
     emailEnabled := false;
     slackEnabled := false |}.

(** Every channel delivers. *)
Definition deliverAll (al : Alert.t) (c : Channel) : bool := true.

Definition firstAdmission : Z := 1700000200000%Z.
Definition secondAdmission : Z := 1700000201000%Z.

(** Two unique articles arrive one second apart; the queue worker sends
    them five and ten seconds later. *)
Definition afterFirstAdmission : Manager :=
  AlertManager.processAlert hourlyLimitOne firstAdmission
    "alert_1700000200000_k3x9q2m1a" earlierStored emptyManager.

Definition afterSecondAdmission : Manager :=
  AlertManager.processAlert hourlyLimitOne secondAdmission
    "alert_1700000201000_p7d4w8z2c" laterStored afterFirstAdmission.

Definition afterBothSent : Manager :=
  AlertManager.processAlertQueue deliverAll 1700000210000%Z
    (AlertManager.processAlertQueue deliverAll 1700000205000%Z afterSecondAdmission).

(** The number of alerts whose [createdAt] lies in the window [(lo, hi]]. *)
Definition createdWithin (lo hi : Z) (als : list Alert.t) : nat :=
  List.length
    (filter (fun al => (lo <? Alert.createdAt al)%Z && (Alert.createdAt al <=? hi)%Z)
            als).

Definition oneHour : Z := (60 * 60 * 1000)%Z.

(** No term is counted in more documents than there are. *)
Definition frequenciesBounded (st : SimpleTfIdf.t) : Prop :=
  forall k,
    (SimpleTfIdf.frequencyOf k (SimpleTfIdf.documentFrequencies st)
     <= List.length (SimpleTfIdf.documents st))%nat.

(** ** Sums over the paired components of two vectors *)

Fixpoint dotOf (ps : list (R * R)) : R :=
  match ps with
  | [] => 0%R
  | (x, y) :: ps' => (x * y + dotOf ps')%R
  end.

Fixpoint squaresLeft (ps : list (R * R)) : R :=
  match ps with
  | [] => 0%R
  | (x, _) :: ps' => (x * x + squaresLeft ps')%R
  end.

Fixpoint squaresRight (ps : list (R * R)) : R :=
  match ps with
  | [] => 0%R
  | (_, y) :: ps' => (y * y + squaresRight ps')%R
  end.

(** The sum of the squares of [u * y - v * x] over the pairs [(x, y)]. *)
Fixpoint crossSquares (u v : R) (ps : list (R * R)) : R :=
  match ps with
  | [] => 0%R
  | (x, y) :: ps' =>
      ((u * y - v * x) * (u * y - v * x) + crossSquares u v ps')%R
  end.

Definition nonNegative (v : list R) : Prop := Forall (fun x => (0 <= x)%R) v.

(* ===================================================================== *)
(** * Vocabulary of the properties of the services *)
(* ===================================================================== *)

(** A character that is no white space other than the plain space. *)
Definition isPlainChar (c : ascii) : bool :=
  negb (Text.isSpace c) || Ascii.eqb c " "%char.

Definition notAmpersand (c : ascii) : bool := negb (Ascii.eqb c "&"%char).

(** The value an operation returned, or [default] when it threw. *)
Definition resultOr {S A : Type} (default : A) (o : Outcome S A) : A :=
  match o with
  | Returned _ a => a
  | Thrown _ => default
  end.

(** The candidates [getCandidateArticles] finds for an article. *)
Definition candidatesOf (cfg : Config) (now : Z) (a : Article) (st : Store)
  : list Article :=
  resultOr [] (DeduplicationEngine.getCandidateArticles cfg now a st).

(** The duplicates [performDeduplication] declares for an article. *)
Definition declaredDuplicates (lib : DoubleEngine.Libraries) (cfg : Config)
  (now : Z) (a : Article) (st : Store) : list DoubleEngine.Duplicate :=
  DoubleEngine.identifyDuplicates (DoubleEngine.thresholds cfg)
    (DoubleEngine.analyzeSimilarities lib cfg a (candidatesOf cfg now a st)).

(** The order of a list sorted by [publishedAt], latest first. *)
Definition newestFirst (x y : Article) : Prop :=
  (publishedAt y <= publishedAt x)%Z.

(** The order of a list sorted by [overallScore], highest first. *)
Definition bestFirst (s s' : DoubleEngine.Similarity) : Prop :=
  Double.leb (DoubleEngine.Scores.overallScore (DoubleEngine.scores s'))
             (DoubleEngine.Scores.overallScore (DoubleEngine.scores s)) = true.

(** What [performDeduplication] may do to a stored article [b] when it
    works on [a]: nothing, or, if [b] is stored under the id of [a], one of
    the two markings. *)
Definition markedFor (a b b' : Article) : Prop :=
  b' = b
  \/ (_id b = _id a
      /\ (b' = DeduplicationEngine.asUnique b
          \/ exists original, b' = DeduplicationEngine.asDuplicateOf original b)).

(** ** The queue of the engine *)

(** The attempts still open for the items of a queue: four for each item,
    less the retries it has had. *)
Definition attemptsLeft (queue : list QueueItem.t) : nat :=
  list_sum (map (fun item => 4 - QueueItem.retryCount item) queue).

(** The items of a batch that are queued again after they failed. *)
Definition queuedAgain (failedItems : list QueueItem.t) : list QueueItem.t :=
  map DeduplicationWorker.retried
    (filter (fun item => (QueueItem.retryCount item <? 3)%nat) failedItems).

(** [k] runs of [processQueue], one after the other, with no article
    arriving in between; [clock r i] is the time at which the [i]-th item
    of the [r]-th run is taken up. *)
Fixpoint runs (ext : Externals) (cfg : Config) (clock : nat -> nat -> Z)
  (k : nat) (w : Worker) : Worker :=
  match k with
  | O => w
  | S k' =>
      runs ext cfg (fun r => clock (S r)) k'
        (finalState (DeduplicationWorker.processQueue ext cfg (clock 0) w))
  end.

(** A worker whose queue holds [followUp], a report that
    [storedWithFollowUp] stores next to [earlierStored]. *)
Definition workerWithFollowUp : Worker :=
  {| engine := storedWithFollowUp;
     processingQueue :=
       [{| QueueItem.article := followUp;
           QueueItem.timestamp := 1700000970000%Z;
           QueueItem.retryCount := 0 |}];
     stats := EngineStats.zero |}.

(** Two articles with one text under two URLs, as two feeds that are read
    at the same time leave them in the store: the content hashes are
    equal. *)
Definition twinA : Article :=
  asStored sha256Externals
    (wireDraft headline "https://a.example/acme-beta" "Source A"
       deskAa 1700000000000%Z)
    0 1700000060000%Z.

Definition twinB : Article :=
  asStored sha256Externals
    (wireDraft headline "https://b.example/acme-beta" "Source B"
       deskAa 1700000000000%Z)
    1 1700000060000%Z.

(** A worker whose queue holds [twinB] twice. *)
Definition workerWithTwinTwice : Worker :=
  {| engine := engineWith [twinA; twinB];
     processingQueue :=
       [{| QueueItem.article := twinB;
           QueueItem.timestamp := 1700000970000%Z;
           QueueItem.retryCount := 0 |};
        {| QueueItem.article := twinB;
           QueueItem.timestamp := 1700000980000%Z;
           QueueItem.retryCount := 0 |}];
     stats := EngineStats.zero |}.

(** ** The alert manager *)

(** The key under which [trackAlert] files an alert. *)
Definition trackedKey (al : Alert.t) : string :=
  Alert.id al ++ "_"
  ++ AlertManager.generateArticleKey (Alert.title al) (Alert.source al).

(** The states the alert manager reaches from its start by admissions
    ([processAlert]), ticks of the queue worker ([processAlertQueue]) and
    clean-ups of the history ([cleanupAlertHistory]). *)
Inductive managed (cfg : Config) : Manager -> Prop :=
| managed_start : managed cfg emptyManager
| managed_admit : forall m now alertId a,
    managed cfg m ->
    managed cfg (AlertManager.processAlert cfg now alertId a m)
| managed_tick : forall m deliver now,
    managed cfg m ->
    managed cfg (AlertManager.processAlertQueue deliver now m)
| managed_cleanup : forall m now,
    managed cfg m ->
    managed cfg (AlertManager.cleanupAlertHistory now m).

(** The states the manager reaches from [m], in which an alert was sent at
    [sentAt], by admissions, by ticks of the queue worker at or after
    [sentAt], and by clean-ups of the history that run no later than 24
    hours after [sentAt]. *)
Inductive afterSending (cfg : Config) (sentAt : Z) (m : Manager)
  : Manager -> Prop :=
| after_sending : afterSending cfg sentAt m m
| after_admit : forall m' now alertId a,
    afterSending cfg sentAt m m' ->
    afterSending cfg sentAt m (AlertManager.processAlert cfg now alertId a m')
| after_tick : forall m' deliver now,
    afterSending cfg sentAt m m' ->
    (sentAt <= now)%Z ->
    afterSending cfg sentAt m (AlertManager.processAlertQueue deliver now m')
| after_cleanup : forall m' now,
    afterSending cfg sentAt m m' ->
    (now - 24 * 60 * 60 * 1000 <= sentAt)%Z ->
    afterSending cfg sentAt m (AlertManager.cleanupAlertHistory now m').

(** A cooldown of 25 hours, longer than the history is kept. *)
Definition longCooldown : Config :=
  {| similarityThreshold := similarityThreshold defaultConfig;
     timeWindowHours := timeWindowHours defaultConfig;
     titleWeight := titleWeight defaultConfig;
     contentWeight := contentWeight defaultConfig;
     entityWeight := entityWeight defaultConfig;
     batchSize := batchSize defaultConfig;
     cooldownMinutes := 1500%Z;
     maxAlertsPerHour := maxAlertsPerHour defaultConfig;
     webhookEnabled := true;
     emailEnabled := false;
     slackEnabled := false |}.

(** [k] ticks of the queue worker; [clock i] is the time of the [i]-th. *)
Fixpoint ticks (deliver : Alert.t -> Channel -> bool) (clock : nat -> Z)
  (k : nat) (m : Manager) : Manager :=
  match k with
  | O => m
  | S k' =>
      ticks deliver (fun i => clock (S i)) k'
        (AlertManager.processAlertQueue deliver (clock 0) m)
  end.

(** An article that the quality gate cannot pass: a body of at most 200
    characters, no entities, and a category that earns no points. *)
Definition isThin (a : Article) : Prop :=
  AlertManager.bodyLength a <= 200
  /\ entities a = []
  /\ Text.member (category a) ["business"; "technology"; "breaking"] = false.

(** A short note from a source that is not on the trusted list. *)
Definition shortNote : Article :=
  {| _id := 7; title := Some "Oil up 5%"; url := "https://c.example/oil";
     source := "Source A"; category := "markets"; tags := [];
     content := Some "Oil rose on Monday."; summary := None;
     publishedAt := 1700000000000%Z;
     contentHash := "c0ffee"; entities := [];
     processed := true; alertSent := false; duplicateChecked := true;
     isDuplicate := false; originalArticleId := None;
     createdAt := 1700000001000%Z |}.

(** ** The embedding cache *)

(** The polynomial in 31 whose coefficients are the code points of the
    text, the first one with the highest power. *)
Definition polynomial31 (text : string) : Z :=
  fold_left (fun h c => (31 * h + Z.of_nat (Text.code c))%Z)
            (list_ascii_of_string text) 0%Z.

(** A cache within its bound, with one entry for a key. *)
Definition cacheOk (cache : VectorSimilarity.Cache) : Prop :=
  List.length cache <= VectorSimilarity.maxCacheSize
  /\ NoDup (map fst cache).

(** ** Vectors *)

(** The cluster [assignToClusters] puts a vector in. *)
Definition nearest (vector : list Double.t) (centroids : list (list Double.t))
  : nat :=
  VectorSimilarity.bestClusterFrom vector centroids 0 0 (Double.ofZ (-1)).

(** ** Sample data: two clusters of one story *)

Definition clusterOfA : Cluster.t :=
  {| Cluster.id := "cluster_1700000060000_a1b2c3d4e";
     Cluster.articles := [0];
     Cluster.created := 1700000060000%Z;
     Cluster.updated := 1700000060000%Z;
     Cluster.tags := ["business"];
     Cluster.category := "business";
     Cluster.sources := ["Source A"] |}.

Definition clusterOfB : Cluster.t :=
  {| Cluster.id := "cluster_1700000120000_f5g6h7i8j";
     Cluster.articles := [1];
     Cluster.created := 1700000120000%Z;
     Cluster.updated := 1700000120000%Z;
     Cluster.tags := ["business"];
     Cluster.category := "business";
     Cluster.sources := ["Source A"] |}.

(** ** The order of the extracted entities *)

Definition surestFirst (e e' : Entity.t) : Prop :=
  (Entity.confidence e' <= Entity.confidence e)%Q.

(* ===================================================================== *)
(** * Properties of the text primitives *)
(* ===================================================================== *)

Section TextFacts.

Import Text.

(** Facts about single characters are settled by running through the 256
    code points. *)
Ltac each_char c :=
  destruct c as [b0 b1 b2 b3 b4 b5 b6 b7];
  destruct b0, b1, b2, b3, b4, b5, b6, b7; vm_compute; try reflexivity;
  try discriminate; auto.

Lemma space_is_lower : forall c, isSpace c = true -> toLowerChar c = c.
Proof. intros c; each_char c. Qed.

Lemma space_not_word : forall c, isSpace c = true -> isWordChar c = false.
Proof. intros c; each_char c. Qed.

Lemma toLowerChar_idem : forall c, toLowerChar (toLowerChar c) = toLowerChar c.
Proof. intros c; each_char c. Qed.

Lemma lower_keeps_space : forall c, isSpace (toLowerChar c) = isSpace c.
Proof. intros c; each_char c. Qed.

Lemma lower_keeps_word : forall c, isWordChar (toLowerChar c) = isWordChar c.
Proof. intros c; each_char c. Qed.

Lemma space_char_is_space : isSpace " "%char = true.
Proof. reflexivity. Qed.

Lemma toLowerCase_app : forall x y,
  toLowerCase (x ++ y) = (toLowerCase x ++ toLowerCase y)%string.
Proof. induction x as [|c x IH]; intros y; simpl; [reflexivity | now rewrite IH]. Qed.

Lemma stripNonWord_app : forall x y,
  stripNonWord (x ++ y) = (stripNonWord x ++ stripNonWord y)%string.
Proof.
  induction x as [|c x IH]; intros y; simpl; [reflexivity |].
  destruct (isWordChar c || isSpace c); simpl; now rewrite IH.
Qed.

Lemma collapseFrom_app : forall x y b,
  collapseFrom b (x ++ y)
  = (collapseFrom b x ++ collapseFrom (endsInRun b x) y)%string.
Proof.
  induction x as [|c x IH]; intros y b; simpl; [reflexivity |].
  destruct (isSpace c) eqn:Hc.
  - destruct b; simpl; now rewrite IH.
  - simpl. now rewrite IH.
Qed.

Lemma trimStart_collapseFrom : forall b s,
  trimStart (collapseFrom b s) = trimStart (collapseFrom true s).
Proof.
  intros b [|c s]; simpl; [reflexivity |].
  destruct (isSpace c) eqn:Hc; [| reflexivity].
  destruct b; simpl; reflexivity.
Qed.

Lemma trimEnd_app_space : forall s w,
  isSpace w = true -> trimEnd (s ++ String w EmptyString) = trimEnd s.
Proof.
  induction s as [|c s IH]; intros w Hw; simpl.
  - now rewrite Hw.
  - now rewrite (IH w Hw).
Qed.

Lemma trim_app_space : forall s w,
  isSpace w = true -> trim (s ++ String w EmptyString) = trim s.
Proof.
  unfold trim. induction s as [|c s IH]; intros w Hw; simpl.
  - now rewrite Hw.
  - destruct (isSpace c) eqn:Hc; [now apply IH |].
    change (String c (s ++ String w EmptyString))
      with (String c s ++ String w EmptyString)%string.
    now apply trimEnd_app_space.
Qed.

Lemma append_nil_r : forall s : string, (s ++ EmptyString)%string = s.
Proof. induction s as [|c s IH]; simpl; [reflexivity | now rewrite IH]. Qed.

Lemma append_assoc : forall x y z : string,
  ((x ++ y) ++ z = x ++ (y ++ z))%string.
Proof. induction x as [|c x IH]; intros; simpl; [reflexivity | now rewrite IH]. Qed.

Lemma toLowerCase_strip_kept : forall x,
  allChars isKeptChar (stripNonWord (toLowerCase x)) = true.
Proof.
  induction x as [|c x IH]; simpl; [reflexivity |].
  destruct (isWordChar (toLowerChar c) || isSpace (toLowerChar c)) eqn:Hk;
    [| exact IH].
  simpl. rewrite IH, andb_true_r. unfold isKeptChar.
  rewrite Hk, toLowerChar_idem. simpl. apply Ascii.eqb_refl.
Qed.

Lemma kept_nonspace_clean : forall c,
  isKeptChar c = true -> isSpace c = false -> isCleanChar c = true.
Proof. intros c; each_char c. Qed.

Lemma clean_is_lower : forall c, isCleanChar c = true -> toLowerChar c = c.
Proof. intros c; each_char c. Qed.

Lemma clean_is_kept : forall c,
  isCleanChar c = true -> isWordChar c || isSpace c = true.
Proof. intros c; each_char c. Qed.

Lemma clean_space : forall c,
  isCleanChar c = true -> isSpace c = true -> c = " "%char.
Proof. intros c; each_char c. Qed.

Lemma collapseFrom_clean : forall s b,
  allChars isKeptChar s = true ->
  allChars isCleanChar (collapseFrom b s) = true.
Proof.
  induction s as [|c s IH]; intros b H; simpl in *; [reflexivity |].
  apply andb_true_iff in H as [Hc Hs].
  destruct (isSpace c) eqn:Hsp.
  - destruct b; simpl; auto.
  - simpl. rewrite (kept_nonspace_clean c Hc Hsp). simpl. auto.
Qed.

Lemma collapseFrom_noRun : forall s b, noRun b (collapseFrom b s) = true.
Proof.
  induction s as [|c s IH]; intros b; simpl; [reflexivity |].
  destruct (isSpace c) eqn:Hsp.
  - destruct b; simpl; auto.
  - simpl. rewrite Hsp. auto.
Qed.

Lemma trimStart_allChars : forall p s,
  allChars p s = true -> allChars p (trimStart s) = true.
Proof.
  induction s as [|c s IH]; intros H; simpl in *; [reflexivity |].
  apply andb_true_iff in H as [Hc Hs].
  destruct (isSpace c); [auto |]. simpl. now rewrite Hc, Hs.
Qed.

Lemma trimStart_noRun : forall s b,
  noRun b s = true -> noRun true (trimStart s) = true.
Proof.
  induction s as [|c s IH]; intros b H; simpl in *; [reflexivity |].
  destruct (isSpace c) eqn:Hsp.
  - apply andb_true_iff in H as [_ H]. eauto.
  - simpl. now rewrite Hsp.
Qed.

Lemma trimEnd_allChars : forall p s,
  allChars p s = true -> allChars p (trimEnd s) = true.
Proof.
  induction s as [|c s IH]; intros H; simpl in *; [reflexivity |].
  apply andb_true_iff in H as [Hc Hs]. specialize (IH Hs).
  destruct (trimEnd s) as [|d t].
  - destruct (isSpace c); simpl; [reflexivity | now rewrite Hc].
  - change (allChars p (String c (String d t)))
      with (p c && allChars p (String d t)). now rewrite Hc, IH.
Qed.

Lemma trimEnd_noRun : forall s b,
  noRun b s = true -> noRun b (trimEnd s) = true.
Proof.
  induction s as [|c s IH]; intros b H; simpl in *; [reflexivity |].
  destruct (isSpace c) eqn:Hsp.
  - apply andb_true_iff in H as [Hb H]. specialize (IH true H).
    destruct (trimEnd s) as [|d t]; [reflexivity |].
    change (noRun b (String c (String d t)))
      with (if isSpace c then negb b && noRun true (String d t)
            else noRun false (String d t)).
    now rewrite Hsp, Hb, IH.
  - specialize (IH false H).
    destruct (trimEnd s) as [|d t]; simpl; [now rewrite Hsp |].
    simpl in IH. now rewrite Hsp.
Qed.

Lemma trimEnd_endsClean : forall s, endsClean (trimEnd s) = true.
Proof.
  induction s as [|c s IH]; simpl; [reflexivity |].
  destruct (trimEnd s) as [|d t].
  - destruct (isSpace c) eqn:Hsp; simpl; [reflexivity | now rewrite Hsp].
  - exact IH.
Qed.

Lemma toLowerCase_fixed : forall s,
  allChars isCleanChar s = true -> toLowerCase s = s.
Proof.
  induction s as [|c s IH]; intros H; simpl in *; [reflexivity |].
  apply andb_true_iff in H as [Hc Hs].
  now rewrite (clean_is_lower c Hc), (IH Hs).
Qed.

Lemma stripNonWord_fixed : forall s,
  allChars isCleanChar s = true -> stripNonWord s = s.
Proof.
  induction s as [|c s IH]; intros H; simpl in *; [reflexivity |].
  apply andb_true_iff in H as [Hc Hs].
  now rewrite (clean_is_kept c Hc), (IH Hs).
Qed.

Lemma collapseFrom_fixed : forall s b,
  allChars isCleanChar s = true -> noRun b s = true -> collapseFrom b s = s.
Proof.
  induction s as [|c s IH]; intros b H R; simpl in *; [reflexivity |].
  apply andb_true_iff in H as [Hc Hs].
  destruct (isSpace c) eqn:Hsp.
  - apply andb_true_iff in R as [Hb R].
    destruct b; [discriminate |].
    rewrite (clean_space c Hc Hsp). now rewrite (IH true Hs R).
  - now rewrite (IH false Hs R).
Qed.

Lemma trimStart_fixed : forall s, noRun true s = true -> trimStart s = s.
Proof.
  intros [|c s] H; simpl in *; [reflexivity |].
  destruct (isSpace c); [discriminate | reflexivity].
Qed.

Lemma trimEnd_fixed : forall s, endsClean s = true -> trimEnd s = s.
Proof.
  induction s as [|c s IH]; intros H; simpl in *; [reflexivity |].
  destruct s as [|d t].
  - simpl. destruct (isSpace c); [discriminate | reflexivity].
  - rewrite (IH H). reflexivity.
Qed.

Lemma startsWith_spec : forall p s,
  startsWith p s = true <-> exists post, s = (p ++ post)%string.
Proof.
  induction p as [|a p IH]; intros s; simpl.
  - split; [intros _; exists s; reflexivity | reflexivity].
  - destruct s as [|b s].
    + split; [discriminate | intros [post H]; discriminate H].
    + rewrite andb_true_iff, Ascii.eqb_eq, IH. split.
      * intros [-> [post ->]]. exists post. reflexivity.
      * intros [post H]. injection H as -> ->. split; [reflexivity |].
        exists post. reflexivity.
Qed.

(** [includes] finds exactly the texts that contain the key. *)
Lemma includes_spec : forall k s,
  includes k s = true <-> exists pre post, s = (pre ++ k ++ post)%string.
Proof.
  intros k. induction s as [|c s IH].
  - simpl. rewrite orb_false_r, startsWith_spec. split.
    + intros [post H]. exists EmptyString, post. exact H.
    + intros [[|d pre] [post H]]; [exists post; exact H | discriminate H].
  - change (includes k (String c s))
      with (startsWith k (String c s) || includes k s).
    rewrite orb_true_iff, startsWith_spec, IH. split.
    + intros [[post H] | [pre [post H]]].
      * exists EmptyString, post. exact H.
      * exists (String c pre), post. simpl. now rewrite H.
    + intros [[|d pre] [post H]].
      * left. exists post. exact H.
      * right. simpl in H. injection H as -> ->. exists pre, post. reflexivity.
Qed.

End TextFacts.

(* ===================================================================== *)
(** * NewsProcessor: normalization and the content hash *)
(* ===================================================================== *)

Section Hashing.

Import Text NewsProcessor.

Example sha256_abc :
  Sha256.hexDigest "abc"
  = "ba7816bf8f01cfea414140de5dae2223b00361a396177a9cb410ff61f20015ad".
Proof. vm_compute. reflexivity. Qed.

Example sha256_two_blocks :
  Sha256.hexDigest "abcdbcdecdefdefgefghfghighijhijkijkljklmklmnlmnomnopnopq"
  = "248d6a61d20638b8e5c026930c3e6039a33ce45964ff2167f6ecedd419db06c1".
Proof. vm_compute. reflexivity. Qed.

Example sha256_utf8 :
  Sha256.hexDigest ("caf" ++ String (ascii_of_nat 233) EmptyString)
  = "850f7dc43910ff890f8879c0ed26fe697c93a067ad93a7d50f466a7028a9bf4e".
Proof. vm_compute. reflexivity. Qed.

Example normalizeForHashing_sample :
  normalizeForHashing "  Acme acquires Beta, for $2B!  " = "acme acquires beta for 2b".
Proof. reflexivity. Qed.

Lemma normalizeForHashing_isNormalized : forall x,
  isNormalized (normalizeForHashing x) = true.
Proof.
  intros x. unfold isNormalized, normalizeForHashing, trim, collapseWhitespace.
  pose proof (toLowerCase_strip_kept x) as Hk.
  set (w := stripNonWord (toLowerCase x)) in *.
  rewrite trimEnd_allChars
    by (apply trimStart_allChars, collapseFrom_clean, Hk).
  rewrite trimEnd_noRun
    by (apply trimStart_noRun with (b := false), collapseFrom_noRun).
  now rewrite trimEnd_endsClean.
Qed.

Lemma normalized_is_fixed : forall s,
  isNormalized s = true -> normalizeForHashing s = s.
Proof.
  intros s H. unfold isNormalized in H.
  apply andb_true_iff in H as [H He]. apply andb_true_iff in H as [Hc Hr].
  unfold normalizeForHashing, trim, collapseWhitespace.
  rewrite (toLowerCase_fixed s Hc), (stripNonWord_fixed s Hc).
  rewrite (collapseFrom_fixed s false Hc).
  - now rewrite (trimStart_fixed s Hr), (trimEnd_fixed s He).
  - destruct s as [|c s]; simpl in *; [reflexivity |].
    destruct (isSpace c); [discriminate | exact Hr].
Qed.

Lemma normalizeForHashing_idempotent : forall x,
  normalizeForHashing (normalizeForHashing x) = normalizeForHashing x.
Proof. intros x. apply normalized_is_fixed, normalizeForHashing_isNormalized. Qed.

(** The text after lower-casing and stripping, piecewise. *)
Lemma strip_lower_app : forall x y,
  stripNonWord (toLowerCase (x ++ y))
  = (stripNonWord (toLowerCase x) ++ stripNonWord (toLowerCase y))%string.
Proof. intros. now rewrite toLowerCase_app, stripNonWord_app. Qed.

Lemma strip_lower_space : forall w y,
  isSpace w = true ->
  stripNonWord (toLowerCase (String w y)) = String w (stripNonWord (toLowerCase y)).
Proof.
  intros w y Hw. simpl. rewrite (space_is_lower w Hw), Hw, orb_true_r. reflexivity.
Qed.

Lemma strip_lower_punctuation : forall p y,
  isPunctuation p = true ->
  stripNonWord (toLowerCase (String p y)) = stripNonWord (toLowerCase y).
Proof.
  intros p y Hp. simpl. unfold isPunctuation in Hp.
  rewrite lower_keeps_word, lower_keeps_space.
  apply andb_true_iff in Hp as [Hw Hs].
  apply negb_true_iff in Hw, Hs. now rewrite Hw, Hs.
Qed.

Lemma normalizeForHashing_invariant : forall x y,
  sameUpToFormatting x y -> normalizeForHashing x = normalizeForHashing y.
Proof.
  intros x y H. induction H.
  - reflexivity.
  - congruence.
  - congruence.
  - unfold normalizeForHashing. now rewrite !toLowerCase_app; simpl; rewrite H.
  - unfold normalizeForHashing.
    now rewrite !strip_lower_app, (strip_lower_punctuation p y H).
  - unfold normalizeForHashing, collapseWhitespace.
    rewrite !strip_lower_app, !strip_lower_space by assumption.
    rewrite !collapseFrom_app. simpl. now rewrite H, H0.
  - unfold normalizeForHashing, collapseWhitespace.
    rewrite !strip_lower_app, !strip_lower_space by assumption.
    rewrite !collapseFrom_app. simpl. rewrite H, H0.
    destruct (endsInRun false (stripNonWord (toLowerCase x))); reflexivity.
  - unfold normalizeForHashing, collapseWhitespace, trim.
    rewrite strip_lower_space by assumption. simpl. rewrite H. simpl.
    now rewrite (trimStart_collapseFrom false).
  - unfold normalizeForHashing, collapseWhitespace.
    rewrite strip_lower_app, strip_lower_space by assumption.
    rewrite collapseFrom_app. simpl. rewrite H.
    destruct (endsInRun false (stripNonWord (toLowerCase x))).
    + now rewrite append_nil_r.
    + now apply trim_app_space.
Qed.

(** The underscore is a word character: it is kept. *)
Example normalizeForHashing_keeps_underscore :
  normalizeForHashing "Snake_Case, again" = "snake_case again".
Proof. reflexivity. Qed.

Lemma skeleton_app : forall x y,
  skeleton (x ++ y) = (skeleton x ++ skeleton y)%string.
Proof.
  induction x as [|c x IH]; intros y; simpl; [reflexivity |].
  destruct (isWordChar c); simpl; now rewrite IH.
Qed.

(** The differences the normalization absorbs are differences in
    punctuation, letter case or white space. *)
Lemma sameUpToFormatting_differOnly : forall x y,
  sameUpToFormatting x y -> differOnlyInFormatting x y.
Proof.
  unfold differOnlyInFormatting. intros x y H. induction H.
  - reflexivity.
  - congruence.
  - congruence.
  - rewrite !skeleton_app. simpl.
    assert (Hw : isWordChar c = isWordChar c')
      by (rewrite <- (lower_keeps_word c), <- (lower_keeps_word c'); congruence).
    rewrite Hw, H. reflexivity.
  - rewrite !skeleton_app. simpl. unfold isPunctuation in H.
    apply andb_true_iff in H as [Hw _]. apply negb_true_iff in Hw.
    now rewrite Hw.
  - rewrite !skeleton_app. simpl.
    now rewrite (space_not_word w H), (space_not_word w' H0).
  - rewrite !skeleton_app. simpl.
    now rewrite (space_not_word w H), (space_not_word w' H0).
  - simpl. now rewrite (space_not_word w H).
  - rewrite skeleton_app. simpl. rewrite (space_not_word w H).
    apply append_nil_r.
Qed.

(** C10, as stated, fails: "New York" and "NewYork" differ only in white
    space, yet their normalized texts and their SHA-256 content hashes
    differ. *)
Lemma inserted_space_changes_hash :
  differOnlyInFormatting "New York" "NewYork"
  /\ normalizeForHashing "New York" <> normalizeForHashing "NewYork"
  /\ contentHashOf sha256Externals "New York"
     <> contentHashOf sha256Externals "NewYork".
Proof.
  split; [reflexivity |].
  split; intro H; vm_compute in H; discriminate H.
Qed.

(** C10 (amended): normalization is idempotent, so the content hash is
    stable under repeated normalization; and two texts that differ only in
    letter case, in punctuation characters that the normalization deletes,
    in the kind of white-space characters, in the length of runs of white
    space or in leading and trailing white space have equal content
    hashes. *)
Theorem content_hash_stable_under_formatting : forall ext x y,
  normalizeForHashing (normalizeForHashing x) = normalizeForHashing x
  /\ contentHashOf ext (normalizeForHashing x) = contentHashOf ext x
  /\ (sameUpToFormatting x y -> contentHashOf ext x = contentHashOf ext y).
Proof.
  intros ext x y. split; [apply normalizeForHashing_idempotent |].
  split.
  - unfold contentHashOf. now rewrite normalizeForHashing_idempotent.
  - intros H. unfold contentHashOf.
    now rewrite (normalizeForHashing_invariant x y H).
Qed.

Lemma content_hash_stable_witness :
  sameUpToFormatting "Acme buys Beta!" "Acme buys Beta"
  /\ contentHashOf sha256Externals "Acme buys Beta!"
     = contentHashOf sha256Externals "Acme buys Beta".
Proof.
  assert (H : sameUpToFormatting "Acme buys Beta!" "Acme buys Beta")
    by exact (fmt_punctuation "Acme buys Beta" "" "!"%char eq_refl).
  split; [exact H |].
  exact (proj2 (proj2 (content_hash_stable_under_formatting
                         sha256Externals _ _)) H).
Defined.

End Hashing.

(* ===================================================================== *)
(** * NewsProcessor: the exact-duplicate short-circuit *)
(* ===================================================================== *)

Section Ingestion.

Import NewsProcessor.

Lemma insertDuplicate_articles : forall now mk st,
  articles (finalState (insertDuplicate now mk st)) = articles st.
Proof.
  intros. unfold insertDuplicate.
  destruct (existsb _ _); reflexivity.
Qed.

(** C1, as stated, fails: in the identical-repost scenario the two drafts
    have the same content hash, A is stored, and B is dropped: the store
    holds no article with B's URL, no stored article is flagged as a
    duplicate, and the recorded link has no duplicate id. *)
Lemma identical_repost_is_dropped :
  generateContentHash sha256Externals draftA
  = generateContentHash sha256Externals draftB
  /\ map url (articles storeAfterA) = [Draft.url draftA]
  /\ exists st',
      processArticle sha256Externals 1700000960000%Z draftB storeAfterA
      = Returned st' None
      /\ map url (articles st') = [Draft.url draftA]
      /\ map isDuplicate (articles st') = [false]
      /\ map DuplicateLink.duplicateArticleId (duplicates st') = [None].
Proof.
  split; [vm_compute; reflexivity |].
  split; [vm_compute; reflexivity |].
  eexists. split; [vm_compute; reflexivity |].
  repeat split; vm_compute; reflexivity.
Qed.

(** C1 (amended): when a draft arrives whose URL is not stored and whose
    content hash is that of a stored article, the draft is not stored and
    [processArticle] returns null; a link from the stored article, with a
    null duplicate id, the draft's URL, method [content_hash] and score 1.0,
    is recorded, unless the store already holds a link with that key, in
    which case the insertion throws and nothing is written. *)
Theorem hash_duplicate_is_recorded_and_dropped :
  forall ext now d st original,
    find (fun a => String.eqb (url a) (Draft.url d)) (articles st) = None ->
    find (fun a => String.eqb (contentHash a) (generateContentHash ext d))
         (articles st) = Some original ->
    let link := hashDuplicateLink original d now in
    articles (finalState (processArticle ext now d st)) = articles st
    /\ DuplicateLink.originalArticleId link = _id original
    /\ DuplicateLink.duplicateArticleId link = None
    /\ DuplicateLink.duplicateUrl link = Some (Draft.url d)
    /\ DuplicateLink.detectionMethod link = content_hash
    /\ DuplicateLink.similarityScore link = 1%Q
    /\ processArticle ext now d st
       = if existsb (sameLinkKey link) (duplicates st)
         then Thrown st
         else Returned {| articles := articles st;
                          duplicates := duplicates st ++ [link];
                          nextId := nextId st |} None.
Proof.
  intros ext now d st original Hurl Hhash link.
  assert (Hrun : processArticle ext now d st
                 = if existsb (sameLinkKey link) (duplicates st)
                   then Thrown st
                   else Returned {| articles := articles st;
                                    duplicates := duplicates st ++ [link];
                                    nextId := nextId st |} None).
  { unfold processArticle, bind, findArticleByUrl, findArticleByHash.
    rewrite Hurl, Hhash. unfold insertDuplicate. fold link.
    destruct (existsb (sameLinkKey link) (duplicates st)); reflexivity. }
  repeat split; try reflexivity; [| exact Hrun].
  rewrite Hrun. destruct (existsb _ _); reflexivity.
Qed.

Lemma hash_duplicate_witness :
  exists original,
    find (fun a => String.eqb (contentHash a)
                     (generateContentHash sha256Externals draftB))
         (articles storeAfterA) = Some original
    /\ articles (finalState (processArticle sha256Externals 1700000960000%Z
                               draftB storeAfterA))
       = articles storeAfterA.
Proof.
  eexists. split; [vm_compute; reflexivity |].
  refine (proj1 (hash_duplicate_is_recorded_and_dropped
                   sha256Externals 1700000960000%Z draftB storeAfterA _ _ _)).
  - vm_compute; reflexivity.
  - vm_compute; reflexivity.
Defined.

End Ingestion.

(* ===================================================================== *)
(** * The link collection: what holds of every persisted link *)
(* ===================================================================== *)

Section Links.

Import NewsProcessor DeduplicationEngine.

Lemma sameLinkKey_spec : forall l l',
  sameLinkKey l l' = true <-> linkKey l = linkKey l'.
Proof.
  intros l l'. unfold sameLinkKey, linkKey, optionId_eqb.
  rewrite andb_true_iff, Nat.eqb_eq.
  destruct (DuplicateLink.duplicateArticleId l) as [x|],
           (DuplicateLink.duplicateArticleId l') as [y|]; split.
  - intros [H1 H2]. apply Nat.eqb_eq in H2. congruence.
  - intros H. injection H as H1 H2. subst y. split; [exact H1 | apply Nat.eqb_refl].
  - intros [_ H2]. discriminate H2.
  - intros H. discriminate H.
  - intros [_ H2]. discriminate H2.
  - intros H. discriminate H.
  - intros [H1 _]. congruence.
  - intros H. injection H as H1. split; [exact H1 | reflexivity].
Qed.

Lemma fresh_link_key : forall l links,
  existsb (sameLinkKey l) links = false -> ~ In (linkKey l) (map linkKey links).
Proof.
  intros l links H Hin. apply in_map_iff in Hin as [l' [Hk Hl']].
  assert (Ht : existsb (sameLinkKey l) links = true).
  { apply existsb_exists. exists l'. split; [exact Hl' |].
    apply sameLinkKey_spec. congruence. }
  congruence.
Qed.

Lemma NoDup_snoc : forall (A : Type) (xs : list A) (x : A),
  NoDup xs -> ~ In x xs -> NoDup (xs ++ [x]).
Proof.
  intros A xs x Hn Hx. apply NoDup_app; [exact Hn | repeat constructor; intros [] |].
  intros a Ha [Hax | []]. subst. contradiction.
Qed.

Lemma linkWellFormed_more : forall stored extra l,
  linkWellFormed stored l -> linkWellFormed (stored ++ extra) l.
Proof.
  intros stored extra l. unfold linkWellFormed.
  destruct (DuplicateLink.duplicateArticleId l) as [dupId|].
  - intros (o & a & Ho & Ha & H). exists o, a.
    repeat split; try apply in_or_app; tauto.
  - intros (H1 & H2 & H3 & o & Ho & H4). repeat split; auto.
    exists o. split; [apply in_or_app; auto | exact H4].
Qed.

Lemma inv_insertDuplicate : forall now mk st,
  storeInvariant st ->
  linkWellFormed (articles st) (mk now) ->
  storeInvariant (finalState (insertDuplicate now mk st)).
Proof.
  intros now mk st (Hid & Hlt & Hkeys & Hwf) Hl. unfold insertDuplicate.
  destruct (existsb (sameLinkKey (mk now)) (duplicates st)) eqn:Hex; simpl.
  - repeat split; assumption.
  - repeat split; simpl; try assumption.
    + rewrite map_app. simpl. apply NoDup_snoc; [exact Hkeys |].
      now apply fresh_link_key.
    + intros l Hin. apply in_app_or in Hin as [Hin | [Heq | []]];
        [now apply Hwf | now subst].
Qed.

Lemma inv_insertArticle : forall now mk st,
  (forall id t, _id (mk id t) = id) ->
  storeInvariant st ->
  storeInvariant (finalState (insertArticle now mk st)).
Proof.
  intros now mk st Hmk (Hid & Hlt & Hkeys & Hwf). unfold insertArticle.
  destruct (existsb _ _); simpl; [repeat split; assumption |].
  repeat split; simpl; try assumption.
  - rewrite map_app. simpl. rewrite Hmk. apply NoDup_snoc; [exact Hid |].
    intros Hin. apply in_map_iff in Hin as [a [Ha Hin]].
    specialize (Hlt a Hin). lia.
  - intros a Hin. apply in_app_or in Hin as [Hin | [Heq | []]].
    + specialize (Hlt a Hin). lia.
    + subst a. rewrite Hmk. lia.
  - intros l Hin. apply linkWellFormed_more. now apply Hwf.
Qed.

Lemma updateFirst_ids : forall p f xs,
  (forall a, _id (f a) = _id a) ->
  map _id (updateFirst p f xs) = map _id xs.
Proof.
  intros p f xs Hf. induction xs as [|a xs IH]; simpl; [reflexivity |].
  destruct (p a); simpl; [now rewrite Hf | now rewrite IH].
Qed.

Lemma updateFirst_keeps : forall p f xs a,
  (forall a, _id (f a) = _id a) ->
  (forall a, publishedAt (f a) = publishedAt a) ->
  In a xs ->
  exists a', In a' (updateFirst p f xs)
             /\ _id a' = _id a /\ publishedAt a' = publishedAt a.
Proof.
  intros p f xs a Hid Hpub. induction xs as [|b xs IH]; simpl; [intros [] |].
  intros [Heq | Hin].
  - subst b. destruct (p a).
    + exists (f a). simpl. auto.
    + exists a. simpl. auto.
  - destruct (p b).
    + exists a. simpl. auto.
    + destruct (IH Hin) as (a' & Ha' & H1 & H2). exists a'. simpl. auto.
Qed.

Lemma updateFirst_from : forall p f xs a',
  In a' (updateFirst p f xs) ->
  exists a, In a xs /\ (a' = a \/ a' = f a).
Proof.
  intros p f xs a'. induction xs as [|b xs IH]; simpl; [intros [] |].
  destruct (p b); simpl.
  - intros [Heq | Hin]; [exists b | exists a']; auto.
  - intros [Heq | Hin]; [exists b; auto |].
    destruct (IH Hin) as (a & Ha & H). exists a. auto.
Qed.

Lemma inv_updateArticle : forall id f st,
  (forall a, _id (f a) = _id a) ->
  (forall a, publishedAt (f a) = publishedAt a) ->
  storeInvariant st ->
  storeInvariant (finalState (updateArticle id f st)).
Proof.
  intros id f st Hfid Hfpub (Hid & Hlt & Hkeys & Hwf).
  unfold updateArticle, modify. simpl.
  repeat split; simpl; try assumption.
  - now rewrite updateFirst_ids.
  - intros a' Hin. apply updateFirst_from in Hin as (a & Ha & [-> | ->]);
      [| rewrite Hfid]; now apply Hlt.
  - intros l Hin. specialize (Hwf l Hin). unfold linkWellFormed in *.
    destruct (DuplicateLink.duplicateArticleId l) as [dupId|].
    + destruct Hwf as (o & a & Ho & Ha & H1 & H2 & H3).
      destruct (updateFirst_keeps (fun a => (_id a =? id)%nat) f _ o Hfid Hfpub Ho)
        as (o' & Ho' & Ho1 & Ho2).
      destruct (updateFirst_keeps (fun a => (_id a =? id)%nat) f _ a Hfid Hfpub Ha)
        as (a' & Ha' & Ha1 & Ha2).
      exists o', a'. rewrite Ho2, Ha2. repeat split; auto; congruence.
    + destruct Hwf as (H1 & H2 & H3 & o & Ho & H4).
      destruct (updateFirst_keeps (fun a => (_id a =? id)%nat) f _ o Hfid Hfpub Ho)
        as (o' & Ho' & Ho1 & Ho2).
      repeat split; auto. exists o'. split; [exact Ho' | congruence].
Qed.

Lemma inv_processArticle : forall ext now d st,
  storeInvariant st ->
  storeInvariant (finalState (processArticle ext now d st)).
Proof.
  intros ext now d st Hinv.
  unfold processArticle, bind, findArticleByUrl, findArticleByHash.
  destruct (find _ (articles st)) as [existing|]; [exact Hinv |].
  destruct (find _ (articles st)) as [original|] eqn:Hfind.
  - pose proof (inv_insertDuplicate now (hashDuplicateLink original d) st Hinv) as H.
    destruct (insertDuplicate now (hashDuplicateLink original d) st);
      simpl in *; apply H; unfold linkWellFormed; simpl;
      (repeat split; [discriminate |]; exists original;
       split; [apply (find_some _ _ Hfind) | reflexivity]).
  - pose proof (inv_insertArticle now
                 (newArticle ext d (generateContentHash ext d)) st
                 (fun _ _ => eq_refl) Hinv) as H.
    destruct (insertArticle now _ st); simpl in *; exact H.
Qed.

(** ** The election of the original *)

Lemma fold_earlier_first_earliest : forall l a,
  exists pre post,
    a :: l = pre ++ fold_left earlier l a :: post
    /\ (forall m, In m pre -> (publishedAt (fold_left earlier l a) < publishedAt m)%Z)
    /\ (forall m, In m post -> (publishedAt (fold_left earlier l a) <= publishedAt m)%Z).
Proof.
  induction l as [|x l IH] using rev_ind; intros a.
  - exists [], []. simpl. repeat split; intros m [].
  - rewrite fold_left_app. simpl.
    destruct (IH a) as (pre & post & Heq & Hpre & Hpost).
    set (o := fold_left earlier l a) in *. unfold earlier.
    destruct (publishedAt x <? publishedAt o)%Z eqn:Hlt.
    + apply Z.ltb_lt in Hlt.
      exists (pre ++ o :: post), []. repeat split.
      * rewrite app_comm_cons, Heq. reflexivity.
      * intros m Hin. apply in_app_or in Hin as [Hin | [<- | Hin]].
        -- specialize (Hpre m Hin). lia.
        -- exact Hlt.
        -- specialize (Hpost m Hin). lia.
      * intros m [].
    + apply Z.ltb_ge in Hlt.
      exists pre, (post ++ [x]). repeat split.
      * rewrite app_comm_cons, Heq, <- app_assoc. reflexivity.
      * exact Hpre.
      * intros m Hin. apply in_app_or in Hin as [Hin | [<- | []]];
          [now apply Hpost | exact Hlt].
Qed.

Lemma electOriginal_member : forall a dups,
  In (electOriginal a dups) (a :: map article dups).
Proof.
  intros a dups. unfold electOriginal.
  destruct (fold_earlier_first_earliest (map article dups) a)
    as (pre & post & Heq & _).
  change (In (fold_left earlier (map article dups) a) (a :: map article dups)).
  rewrite Heq. apply in_or_app. right. left. reflexivity.
Qed.

Lemma electOriginal_earliest : forall a dups m,
  In m (a :: map article dups) ->
  (publishedAt (electOriginal a dups) <= publishedAt m)%Z.
Proof.
  intros a dups m Hin. unfold electOriginal in *.
  destruct (fold_earlier_first_earliest (map article dups) a)
    as (pre & post & Heq & Hpre & Hpost).
  rewrite Heq in Hin. apply in_app_or in Hin as [Hin | [<- | Hin]].
  - specialize (Hpre m Hin). lia.
  - lia.
  - now apply Hpost.
Qed.

(** ** The loop that records the links *)

Lemma onDb_insertDuplicate : forall now mk e,
  onDb (insertDuplicate now mk) e
  = if existsb (sameLinkKey (mk now)) (duplicates (db e))
    then Thrown {| db := db e; emitted := emitted e |}
    else Returned {| db := {| articles := articles (db e);
                              duplicates := duplicates (db e) ++ [mk now];
                              nextId := nextId (db e) |};
                     emitted := emitted e |} tt.
Proof.
  intros. unfold onDb, insertDuplicate.
  destruct (existsb _ _); reflexivity.
Qed.

Lemma links_loop_invariant : forall now o dups e,
  storeInvariant (db e) ->
  (forall d, In d dups ->
     linkWellFormed (articles (db e)) (duplicateLink o d now)) ->
  let r := forEach (fun d => onDb (insertDuplicate now (duplicateLink o d))) dups e in
  storeInvariant (db (finalState r))
  /\ articles (db (finalState r)) = articles (db e)
  /\ emitted (finalState r) = emitted e.
Proof.
  intros now o dups. induction dups as [|d ds IH]; intros e Hinv Hwf; simpl.
  - auto.
  - unfold bind. rewrite onDb_insertDuplicate.
    pose proof (inv_insertDuplicate now (duplicateLink o d) (db e) Hinv
                  (Hwf d (or_introl eq_refl))) as Hstep.
    unfold insertDuplicate in Hstep.
    destruct (existsb _ _); simpl in *; [auto |].
    match goal with
    | |- context [forEach _ ds ?e1] =>
        destruct (IH e1) as (A & B & C);
          [exact Hstep | intros d' Hd'; apply Hwf; now right |]
    end.
    split; [exact A | split; [exact B | exact C]].
Qed.

Lemma asUnique_keeps : forall a,
  _id (asUnique a) = _id a /\ publishedAt (asUnique a) = publishedAt a.
Proof. intros; split; reflexivity. Qed.

Lemma markAsUnique_run : forall a e,
  markAsUnique a e
  = Returned (withArticles e (updateFirst (fun b => (_id b =? _id a)%nat)
                                asUnique (articles (db e)))) tt.
Proof. reflexivity. Qed.

Lemma markAsDuplicate_run : forall a original e,
  markAsDuplicate a original e
  = Returned (withArticles e (updateFirst (fun b => (_id b =? _id a)%nat)
                                (asDuplicateOf original) (articles (db e)))) tt.
Proof. reflexivity. Qed.

Lemma inv_markAsUnique : forall a e,
  storeInvariant (db e) ->
  storeInvariant (db (finalState (markAsUnique a e))).
Proof.
  intros a e H. rewrite markAsUnique_run.
  exact (inv_updateArticle (_id a) asUnique (db e)
           (fun _ => eq_refl) (fun _ => eq_refl) H).
Qed.

Lemma inv_markAsDuplicate : forall a original e,
  storeInvariant (db e) ->
  storeInvariant (db (finalState (markAsDuplicate a original e))).
Proof.
  intros a original e H. rewrite markAsDuplicate_run.
  exact (inv_updateArticle (_id a) (asDuplicateOf original) (db e)
           (fun _ => eq_refl) (fun _ => eq_refl) H).
Qed.

Lemma inv_processDuplicates : forall now a dups e,
  storeInvariant (db e) ->
  In a (articles (db e)) ->
  (forall d, In d dups -> In (article d) (articles (db e))) ->
  storeInvariant (db (finalState (processDuplicates now a dups e))).
Proof.
  intros now a dups e Hinv Ha Hdups.
  assert (Hmembers : forall m, In m (a :: map article dups) -> In m (articles (db e))).
  { intros m [<- | Hin]; [exact Ha |].
    apply in_map_iff in Hin as (d & <- & Hd). now apply Hdups. }
  set (o := electOriginal a dups).
  assert (Hwf : forall d, In d dups ->
            linkWellFormed (articles (db e)) (duplicateLink o d now)).
  { intros d Hd. unfold linkWellFormed. simpl.
    exists o, (article d). repeat split; auto.
    - apply Hmembers, electOriginal_member.
    - apply electOriginal_earliest. right. now apply in_map. }
  destruct (links_loop_invariant now o dups e Hinv Hwf) as (H1 & H2 & H3).
  unfold processDuplicates, bind. fold o.
  destruct (forEach _ dups e) as [e1 []|e1]; simpl in *; [| exact H1].
  destruct (_id a =? _id o)%nat.
  - unfold bind. pose proof (inv_markAsUnique a e1 H1) as Hu.
    rewrite markAsUnique_run in *. exact Hu.
  - apply inv_markAsDuplicate. exact H1.
Qed.

(** ** Candidates and declared duplicates are stored articles *)

Lemma firstn_incl : forall (A : Type) n (l : list A) x,
  In x (firstn n l) -> In x l.
Proof.
  intros A n. induction n as [|n IH]; intros [|y l] x; simpl; try tauto.
  intros [H | H]; auto.
Qed.

Lemma insertByDate_incl : forall x xs y,
  In y (insertByDate x xs) -> y = x \/ In y xs.
Proof.
  intros x xs. induction xs as [|z xs IH]; intros y; simpl.
  - intros [H | []]; auto.
  - destruct (publishedAt x <? publishedAt z)%Z; simpl.
    + intros [H | H]; auto. destruct (IH y H); auto.
    + intros [H | [H | H]]; auto.
Qed.

Lemma sortByDate_incl : forall xs y, In y (sortByDate xs) -> In y xs.
Proof.
  induction xs as [|x xs IH]; intros y; simpl; [tauto |].
  intros H. apply insertByDate_incl in H as [H | H]; auto.
Qed.

Lemma insertByScore_incl : forall x xs y,
  In y (insertByScore x xs) -> y = x \/ In y xs.
Proof.
  intros x xs. induction xs as [|z xs IH]; intros y; simpl.
  - intros [H | []]; auto.
  - destruct (Qgtb _ _); simpl.
    + intros [H | H]; auto. destruct (IH y H); auto.
    + intros [H | [H | H]]; auto.
Qed.

Lemma sortByScore_incl : forall xs y, In y (sortByScore xs) -> In y xs.
Proof.
  induction xs as [|x xs IH]; intros y; simpl; [tauto |].
  intros H. apply insertByScore_incl in H as [H | H]; auto.
Qed.

Lemma candidates_are_stored : forall cfg now a st c,
  In c (firstn 50 (sortByDate
          (filter (isCandidate (now - timeWindow cfg) a) (articles st)))) ->
  In c (articles st) /\ _id c <> _id a.
Proof.
  intros cfg now a st c H.
  apply firstn_incl, sortByDate_incl, filter_In in H as [Hin Hc].
  split; [exact Hin |]. unfold isCandidate in Hc.
  apply andb_true_iff in Hc as [Hc _]. apply andb_true_iff in Hc as [Hc _].
  apply negb_true_iff, Nat.eqb_neq in Hc. exact Hc.
Qed.

Lemma declared_duplicates_are_candidates : forall ext cfg th a candidates d,
  In d (identifyDuplicates th (analyzeSimilarities ext cfg a candidates)) ->
  In (article d) candidates.
Proof.
  intros ext cfg th a candidates d H. unfold identifyDuplicates in H.
  apply in_map_iff in H as (s & <- & Hs). simpl.
  apply filter_In in Hs as [Hs _]. unfold analyzeSimilarities in Hs.
  apply sortByScore_incl, filter_In in Hs as [Hs _].
  apply in_map_iff in Hs as (c & <- & Hc). exact Hc.
Qed.

Lemma inv_performDeduplication : forall ext cfg now a e,
  storeInvariant (db e) ->
  In a (articles (db e)) ->
  storeInvariant (db (finalState (performDeduplication ext cfg now a e))).
Proof.
  intros ext cfg now a e Hinv Ha.
  unfold performDeduplication, bind, onDb, getCandidateArticles.
  set (candidates := firstn 50 _).
  assert (Hc : forall c, In c candidates -> In c (articles (db e))).
  { intros c Hin. now apply (candidates_are_stored cfg now a (db e) c). }
  destruct candidates as [|c cs] eqn:Hcs.
  - apply (inv_markAsUnique a {| db := db e; emitted := emitted e |}). exact Hinv.
  - set (dups := identifyDuplicates _ _).
    assert (Hd : forall d, In d dups -> In (article d) (articles (db e))).
    { intros d Hin. apply Hc.
      now apply (declared_duplicates_are_candidates ext cfg (thresholds cfg) a). }
    destruct dups as [|d ds] eqn:Hds.
    + apply (inv_markAsUnique a {| db := db e; emitted := emitted e |}). exact Hinv.
    + apply (inv_processDuplicates now a (d :: ds)
               {| db := db e; emitted := emitted e |}); assumption.
Qed.

Lemma storeInvariant_empty : storeInvariant emptyStore.
Proof.
  unfold storeInvariant, emptyStore. simpl.
  repeat split; try constructor; intros ? [].
Qed.

Lemma db_onDb : forall (A : Type) (c : M Store A) e,
  db (finalState (onDb c e)) = finalState (c (db e)).
Proof. intros A c e. unfold onDb. destruct (c (db e)); reflexivity. Qed.

Lemma reachable_storeInvariant : forall ext cfg e,
  reachable ext cfg e -> storeInvariant (db e).
Proof.
  intros ext cfg e H. induction H.
  - exact storeInvariant_empty.
  - rewrite db_onDb. now apply inv_processArticle.
  - now apply inv_performDeduplication.
Qed.

Lemma NoDup_map_injective : forall (A B : Type) (f : A -> B) (l : list A) x y,
  NoDup (map f l) -> In x l -> In y l -> f x = f y -> x = y.
Proof.
  intros A B f l. induction l as [|z l IH]; intros x y Hnd Hx Hy Hf; [contradiction |].
  simpl in Hnd. inversion Hnd as [|? ? Hz Hl]; subst.
  destruct Hx as [-> | Hx], Hy as [-> | Hy]; auto.
  - exfalso. apply Hz. rewrite Hf. now apply in_map.
  - exfalso. apply Hz. rewrite <- Hf. now apply in_map.
Qed.




(** ** Original election and marking *)

Lemma links_loop_frame : forall now o dups e,
  let r := forEach (fun d => onDb (insertDuplicate now (duplicateLink o d))) dups e in
  articles (db (finalState r)) = articles (db e)
  /\ nextId (db (finalState r)) = nextId (db e)
  /\ emitted (finalState r) = emitted e.
Proof.
  intros now o dups. induction dups as [|d ds IH]; intros e; simpl; [auto |].
  unfold bind. rewrite onDb_insertDuplicate.
  destruct (existsb _ _); simpl; [auto |].
  match goal with
  | |- context [forEach _ ds ?e1] => destruct (IH e1) as (A & B & C)
  end.
  simpl in *. auto.
Qed.

Lemma links_loop_run : forall now o dups e,
  NoDup (map linkKey
           (duplicates (db e) ++ map (fun d => duplicateLink o d now) dups)) ->
  exists e',
    forEach (fun d => onDb (insertDuplicate now (duplicateLink o d))) dups e
    = Returned e' tt
    /\ articles (db e') = articles (db e)
    /\ duplicates (db e')
       = duplicates (db e) ++ map (fun d => duplicateLink o d now) dups
    /\ nextId (db e') = nextId (db e)
    /\ emitted e' = emitted e.
Proof.
  intros now o dups. induction dups as [|d ds IH]; intros e Hfresh; simpl.
  - exists e. rewrite app_nil_r. auto.
  - unfold bind. rewrite onDb_insertDuplicate.
    simpl in Hfresh. rewrite map_app in Hfresh. simpl in Hfresh.
    pose proof (NoDup_remove_2 _ _ _ Hfresh) as Hnew.
    assert (Hex : existsb (sameLinkKey (duplicateLink o d now)) (duplicates (db e))
                  = false).
    { destruct (existsb _ _) eqn:Hex; [| reflexivity].
      exfalso. apply Hnew. apply in_or_app. left.
      apply existsb_exists in Hex as (l & Hl & Hk).
      apply sameLinkKey_spec in Hk. rewrite Hk. now apply in_map. }
    rewrite Hex.
    match goal with
    | |- context [forEach _ ds ?e1] =>
        destruct (IH e1) as (e' & Hrun & Ha & Hd & Hn & He)
    end.
    + simpl. rewrite <- app_assoc, map_app. simpl. exact Hfresh.
    + exists e'. simpl in *. rewrite Hd, <- app_assoc. auto.
Qed.

Lemma find_updateFirst : forall id f xs stored,
  (forall a, _id (f a) = _id a) ->
  find (fun a => (_id a =? id)%nat) xs = Some stored ->
  find (fun a => (_id a =? id)%nat) (updateFirst (fun a => (_id a =? id)%nat) f xs)
  = Some (f stored).
Proof.
  intros id f xs stored Hf. induction xs as [|a xs IH]; simpl; [discriminate |].
  destruct (_id a =? id)%nat eqn:Ha; simpl.
  - intros H. injection H as <-. now rewrite Hf, Ha.
  - rewrite Ha. exact IH.
Qed.

(** The mark [processDuplicates] puts on the new article. *)
Lemma processDuplicates_marks : forall now a dups e e',
  processDuplicates now a dups e = Returned e' tt ->
  let o := electOriginal a dups in
  let elected := (_id a =? _id o)%nat in
  articles (db e')
  = updateFirst (fun b => (_id b =? _id a)%nat)
      (if elected then asUnique else asDuplicateOf (_id o)) (articles (db e))
  /\ emitted e' = emitted e ++ (if elected then [a] else []).
Proof.
  intros now a dups e e' Hrun o elected. subst elected.
  unfold processDuplicates, bind in Hrun. fold o in Hrun.
  destruct (links_loop_frame now o dups e) as (Ha & _ & He).
  destruct (forEach _ dups e) as [e1 []|e1]; [| discriminate].
  simpl in Ha, He.
  destruct (_id a =? _id o)%nat.
  - rewrite markAsUnique_run in Hrun. unfold emit, modify in Hrun.
    injection Hrun as <-. simpl. now rewrite Ha, He.
  - rewrite markAsDuplicate_run in Hrun. injection Hrun as <-. simpl.
    now rewrite Ha, He, app_nil_r.
Qed.

(** The two copies of the wire story are stored side by side, for their
    content hashes differ; the texts that are embedded for them have one
    cache key, so that the embedding generated for one is the embedding
    returned for the other. *)
Example wire_copies_share_a_cache_key :
  contentHash firstCopy <> contentHash secondCopy
  /\ VectorSimilarity.generateCacheKey (headline ++ " " ++ deskAa)
     = VectorSimilarity.generateCacheKey (headline ++ " " ++ deskBB).
Proof. split; [vm_compute; discriminate | vm_compute; reflexivity]. Qed.


(** When the elected original is one of the candidates, the loop over the
    declared duplicates records a link from the original to itself and
    none for the new article. *)
Example original_among_candidates_links_itself :
  exists e',
    DoubleEngine.performDeduplication wireLibraries defaultConfig
      1700001000000%Z lateCopy (engineWith [firstCopy; lateCopy])
    = Returned e' tt
    /\ map linkKey (duplicates (db e')) = [(0, Some 0)]
    /\ map (fun a => (_id a, isDuplicate a, originalArticleId a)) (articles (db e'))
       = [(0, false, None); (1, true, Some 0)].
Proof.
  eexists. split; [vm_compute; reflexivity |].
  split; reflexivity.
Qed.



End Links.

(* ===================================================================== *)
(** * Scoring: thresholds, the overall score, source alignment *)
(* ===================================================================== *)

Section Scoring.

Import DeduplicationEngine.

Local Open Scope Q_scope.

Lemma identified_similarities : forall th sims,
  map DoubleEngine.similarity (DoubleEngine.identifyDuplicates th sims)
  = filter (DoubleEngine.isDeclaredDuplicate th) sims.
Proof.
  intros th sims. unfold DoubleEngine.identifyDuplicates. rewrite map_map. simpl.
  apply map_id.
Qed.



(** The [switch] has no case for [entity_similarity]: such a candidate is
    measured against the configured threshold, and the entry
    [entitySimilarity] of the threshold table is not consulted. *)
Example entity_method_takes_the_default_case : forall cfg,
  DoubleEngine.thresholdFor (DoubleEngine.thresholds cfg) entity_similarity
  = Double.ofQ (similarityThreshold cfg)
  /\ DoubleEngine.Thresholds.entitySimilarity (DoubleEngine.thresholds cfg)
     = Double.ofQ 0.8.
Proof. intros cfg. split; reflexivity. Qed.


(** The exact value of the weighted sum for signals that are 0 or 1. *)
Example exact_sum_is_nine_tenths :
  0.4 * 1 + 0.4 * 0 + 0.2 * 0 + 0.30 * 1 + 0.10 * 1 + 0.10 * 1 == 0.9.
Proof. reflexivity. Qed.

(** C5, as stated, fails: the overall score is not the sum of the
    formula but its value in double precision.  For two articles of one
    source under one headline, published at the same instant, the title,
    semantic, temporal and source signals are 1 and the other two are 0;
    the formula gives 0.9, the code a number below it, so that the pair
    misses the threshold of 0.9 and is not declared. *)
Lemma overall_score_is_rounded :
  let s := DoubleEngine.calculateSimilarityScore wireLibraries defaultConfig
             secondEdition firstEdition in
  (DoubleEngine.Scores.titleSimilarity s = Some Double.one
   /\ DoubleEngine.Scores.contentSimilarity s = Some Double.zero
   /\ DoubleEngine.Scores.entitySimilarity s = Some Double.zero
   /\ DoubleEngine.Scores.semanticSimilarity s = Some Double.one
   /\ DoubleEngine.Scores.temporalProximity s = Some Double.one
   /\ DoubleEngine.Scores.sourceAlignment s = Some Double.one)
  /\ Double.rational (DoubleEngine.Scores.overallScore s)
     < 0.4 * 1 + 0.4 * 0 + 0.2 * 0 + 0.30 * 1 + 0.10 * 1 + 0.10 * 1
  /\ DoubleEngine.Scores.method s = title_similarity
  /\ DoubleEngine.identifyDuplicates (DoubleEngine.thresholds defaultConfig)
       (DoubleEngine.analyzeSimilarities wireLibraries defaultConfig
          secondEdition [firstEdition])
     = [].
Proof.
  split; [repeat split; vm_compute; reflexivity |].
  split; [vm_compute; reflexivity |].
  split; vm_compute; reflexivity.
Qed.

(** C5 (amended): when the two content hashes are equal the computation
    returns overall = 1.0 with method [content_hash]; otherwise overall is
    the value in double precision of
    w_title * title_sim + w_content * content_sim + w_entity * entity_sim
    + 0.30 * semantic_sim + 0.10 * temporal_prox + 0.10 * source_align:
    each product is rounded and the six products are added from left to
    right, each sum rounded.  The signals are those the result reports, and
    the three named weights are those of the configuration, whose defaults
    are 0.4, 0.4 and 0.2. *)
Theorem calculateSimilarityScore_overall : forall lib cfg a1 a2,
  let s := DoubleEngine.calculateSimilarityScore lib cfg a1 a2 in
  (if String.eqb (contentHash a1) (contentHash a2)
   then DoubleEngine.Scores.overallScore s = Double.one
        /\ DoubleEngine.Scores.method s = content_hash
   else
     exists t c e m p a,
       DoubleEngine.Scores.titleSimilarity s = Some t
       /\ DoubleEngine.Scores.contentSimilarity s = Some c
       /\ DoubleEngine.Scores.entitySimilarity s = Some e
       /\ DoubleEngine.Scores.semanticSimilarity s = Some m
       /\ DoubleEngine.Scores.temporalProximity s = Some p
       /\ DoubleEngine.Scores.sourceAlignment s = Some a
       /\ t = DoubleEngine.calculateTextSimilarity lib (title a1) (title a2)
       /\ c = DoubleEngine.calculateContentSimilarity lib a1 a2
       /\ e = DoubleEngine.calculateEntitySimilarity (entities a1) (entities a2)
       /\ m = DoubleEngine.calculateSemanticSimilarity lib a1 a2
       /\ p = DoubleEngine.calculateTemporalProximity (publishedAt a1) (publishedAt a2)
       /\ a = DoubleEngine.calculateSourceAlignment a1 a2
       /\ DoubleEngine.Scores.overallScore s
          = Double.add
              (Double.add
                 (Double.add
                    (Double.add
                       (Double.add
                          (Double.mul t (Double.ofQ (titleWeight cfg)))
                          (Double.mul c (Double.ofQ (contentWeight cfg))))
                       (Double.mul e (Double.ofQ (entityWeight cfg))))
                    (Double.mul m (Double.ofQ 0.30)))
                 (Double.mul p (Double.ofQ 0.10)))
              (Double.mul a (Double.ofQ 0.10)))
  /\ titleWeight defaultConfig == 0.4
  /\ contentWeight defaultConfig == 0.4
  /\ entityWeight defaultConfig == 0.2.
Proof.
  intros lib cfg a1 a2 s. subst s. unfold DoubleEngine.calculateSimilarityScore.
  split; [| repeat split; reflexivity].
  destruct (String.eqb (contentHash a1) (contentHash a2)).
  - change (Double.eqb (Double.ofQ 1.0) (Double.ofQ 1.0)) with true.
    cbv iota. split; reflexivity.
  - change (Double.eqb (Double.ofQ 0.0) (Double.ofQ 1.0)) with false.
    cbv iota. do 6 eexists.
    repeat (split; [reflexivity |]). reflexivity.
Qed.

(** ** Source alignment *)

Lemma ratio_bounds : forall n m : nat,
  (n <= m)%nat -> (0 < m)%nat -> 0 <= ofNat n / ofNat m <= 1.
Proof.
  intros n m Hnm Hm. unfold ofNat.
  assert (H0 : 0 < inject_Z (Z.of_nat m)).
  { change 0 with (inject_Z 0). rewrite <- Zlt_Qlt. lia. }
  split.
  - apply Qle_shift_div_l; [exact H0 |]. rewrite Qmult_0_l.
    change 0 with (inject_Z 0). rewrite <- Zle_Qle. lia.
  - apply Qle_shift_div_r; [exact H0 |]. rewrite Qmult_1_l.
    rewrite <- Zle_Qle. lia.
Qed.

Lemma filter_length_le : forall (A : Type) (p : A -> bool) (l : list A),
  (List.length (filter p l) <= List.length l)%nat.
Proof.
  intros A p l. induction l as [|x l IH]; simpl; [lia |].
  destruct (p x); simpl; lia.
Qed.

Lemma tagShare_bounds : forall tags1 tags2, 0 <= tagShare tags1 tags2 <= 1.
Proof.
  intros tags1 tags2. unfold tagShare.
  destruct (Nat.max _ _ =? 0)%nat eqn:Hz; [split; Lqa.lra |].
  apply Nat.eqb_neq in Hz. apply ratio_bounds; [| lia].
  unfold tagOverlap.
  pose proof (filter_length_le string
                (fun tag => Text.member tag (Text.distinct tags2))
                (Text.distinct tags1)). lia.
Qed.


Lemma sourceAlignment_formula : forall a1 a2,
  calculateSourceAlignment a1 a2
  == 0.4 * indicator (String.eqb (source a1) (source a2))
     + 0.3 * indicator (String.eqb (category a1) (category a2))
     + 0.3 * tagShare (tags a1) (tags a2).
Proof.
  intros a1 a2.
  pose proof (tagShare_bounds (tags a1) (tags a2)) as [Hlo Hhi].
  unfold calculateSourceAlignment, tagShare in *.
  set (larger := Nat.max _ _) in *.
  set (shared := tagOverlap _ _) in *.
  destruct larger as [|k] eqn:Hk.
  - simpl. rewrite Q.min_l.
    + destruct (String.eqb (source a1) (source a2)),
               (String.eqb (category a1) (category a2));
        unfold indicator; ring.
    + destruct (String.eqb (source a1) (source a2)),
               (String.eqb (category a1) (category a2)); Lqa.lra.
  - change (0 <? S k)%nat with true. change (S k =? 0)%nat with false in *.
    cbv iota in *. rewrite Q.min_l.
    + destruct (String.eqb (source a1) (source a2)),
               (String.eqb (category a1) (category a2));
        unfold indicator; ring.
    + destruct (String.eqb (source a1) (source a2)),
               (String.eqb (category a1) (category a2)); Lqa.lra.
Qed.

Lemma calculateSourceAlignment_bounds : forall a1 a2,
  0 <= calculateSourceAlignment a1 a2 <= 1.
Proof.
  intros a1 a2.
  pose proof (tagShare_bounds (tags a1) (tags a2)) as [Hlo Hhi].
  rewrite sourceAlignment_formula.
  destruct (String.eqb (source a1) (source a2)),
           (String.eqb (category a1) (category a2));
    unfold indicator; split; Lqa.lra.
Qed.


End Scoring.

(* ===================================================================== *)
(** * AlertManager: priority and admission *)
(* ===================================================================== *)

Section Alerts.

Import AlertManager.

Example mentionsMoney_samples :
  mentionsMoney "The deal is valued at $2 Billion." = true
  /\ mentionsMoney "It raised $1,250million last year." = true
  /\ mentionsMoney "It raised $ 12 million last year." = false
  /\ mentionsMoney "Millions of users were affected." = false.
Proof. repeat split; reflexivity. Qed.

(** C7, as stated, fails: a title with a breaking-news keyword and a
    business-impact keyword, and a content that mentions a billion, yield
    priority medium in category business and priority low in category
    entertainment. *)
Lemma category_overrides_keywords :
  let t := "Breaking: Acme announces merger with Beta" in
  let c := Some "The deal is valued at $2 billion." in
  someIncluded breakingKeywords (Text.toLowerCase t) = true
  /\ someIncluded highImpactKeywords (Text.toLowerCase t) = true
  /\ mentionsMoney (bodyText c None) = true
  /\ calculatePriority t c None "business" = medium
  /\ calculatePriority t c None "entertainment" = low.
Proof. repeat split; reflexivity. Qed.

(** C7 (amended): the priority is decided by the category first: high for
    category breaking, medium for category business, low for category
    entertainment, whatever the title and content say.  For every other
    category it is high when the title contains a breaking-news keyword
    (breaking, urgent, alert, developing) or a business-impact keyword
    (merger, acquisition, ipo, bankruptcy, ceo, funding), or the content
    (or, without content, the summary) mentions "billion" or
    "$<digits and commas>million"; otherwise it is medium. *)
Theorem calculatePriority_value : forall t c s cat,
  let titleLower := Text.toLowerCase t in
  (cat = "breaking" -> calculatePriority t c s cat = high)
  /\ (cat = "business" -> calculatePriority t c s cat = medium)
  /\ (cat = "entertainment" -> calculatePriority t c s cat = low)
  /\ (cat <> "breaking" -> cat <> "business" -> cat <> "entertainment" ->
      calculatePriority t c s cat
      = if someIncluded breakingKeywords titleLower
           || someIncluded highImpactKeywords titleLower
           || mentionsMoney (bodyText c s)
        then high else medium).
Proof.
  intros t c s cat titleLower. unfold calculatePriority. fold titleLower.
  repeat split.
  - intros ->. reflexivity.
  - intros ->. reflexivity.
  - intros ->. reflexivity.
  - intros H1 H2 H3.
    apply String.eqb_neq in H1, H2, H3. rewrite H1, H2, H3.
    destruct (someIncluded breakingKeywords titleLower),
             (someIncluded highImpactKeywords titleLower),
             (mentionsMoney (bodyText c s)); reflexivity.
Qed.

Lemma calculatePriority_witness :
  calculatePriority "Acme files for IPO" None None "technology" = high
  /\ calculatePriority "Acme opens a new office" None None "technology" = medium
  /\ calculatePriority "Acme opens a new office" None None "breaking" = high.
Proof.
  pose proof (calculatePriority_value "Acme files for IPO" None None "technology")
    as (_ & _ & _ & H1).
  pose proof (calculatePriority_value "Acme opens a new office" None None "technology")
    as (_ & _ & _ & H2).
  pose proof (calculatePriority_value "Acme opens a new office" None None "breaking")
    as (H3 & _).
  split; [| split].
  - rewrite H1; [reflexivity | discriminate | discriminate | discriminate].
  - rewrite H2; [reflexivity | discriminate | discriminate | discriminate].
  - apply H3. reflexivity.
Defined.

(** ** Admission *)

Lemma mapSet_has : forall key value entries,
  In (key, value) (mapSet key value entries).
Proof.
  intros key value entries. induction entries as [|[k v] rest IH]; simpl.
  - left. reflexivity.
  - destruct (String.eqb k key); simpl; auto.
Qed.

(** C6, as stated, fails: with at most one alert per hour, two unique
    articles that arrive one second apart are both admitted: at the second
    admission one alert was created within the trailing hour, which is not
    less than the limit; two alerts are created in memory within one second
    and both are sent and stored within the same hour. *)
Lemma burst_exceeds_hourly_limit :
  maxAlertsPerHour hourlyLimitOne = 1%Z
  /\ shouldSendAlert hourlyLimitOne secondAdmission laterStored afterFirstAdmission
     = Some true
  /\ createdWithin (secondAdmission - oneHour) secondAdmission
       (alertQueue afterFirstAdmission) = 1
  /\ map Alert.createdAt (alertQueue afterSecondAdmission)
     = [firstAdmission; secondAdmission]
  /\ map (fun al => (Alert.createdAt al, Alert.status al)) (alerts afterBothSent)
     = [(1700000205000%Z, sent); (1700000210000%Z, sent)]
  /\ createdWithin firstAdmission (firstAdmission + oneHour) (alerts afterBothSent) = 2.
Proof. repeat split; vm_compute; reflexivity. Qed.

(** Once the first alert has been sent, and so tracked, the limit of one
    per hour filters the second article. *)
Example limit_applies_once_the_alert_is_sent :
  let sentFirst :=
    processAlertQueue deliverAll 1700000205000%Z afterFirstAdmission in
  let m :=
    processAlert hourlyLimitOne 1700000206000%Z "alert_1700000206000_p7d4w8z2c"
      laterStored sentFirst in
  recentAlerts 1700000206000%Z (alertHistory sentFirst) = 1
  /\ alertQueue m = []
  /\ filteredAlerts m = 1.
Proof. repeat split; vm_compute; reflexivity. Qed.

(** C6 (amended): an article is admitted only if the number of alerts
    already dispatched and tracked in the in-memory history within the
    trailing hour is strictly less than [maxAlertsPerHour].  An alert is
    tracked when it is sent, not when it is admitted: admission leaves the
    history unchanged, so alerts that are still queued are not counted and
    the number of alerts created in a one-hour window is not bounded by the
    limit. *)
Theorem admission_requires_rate_headroom : forall cfg now alertId a m,
  List.length (alertQueue (processAlert cfg now alertId a m))
  = S (List.length (alertQueue m)) ->
  (Z.of_nat (recentAlerts now (alertHistory m)) < maxAlertsPerHour cfg)%Z
  /\ alertHistory (processAlert cfg now alertId a m) = alertHistory m
  /\ forall deliver sentAt al m',
       In ((Alert.id al ++ "_"
            ++ generateArticleKey (Alert.title al) (Alert.source al))%string,
           sentAt)
          (alertHistory (sendAlert deliver sentAt al m')).
Proof.
  intros cfg now alertId a m Hadmitted.
  split; [| split].
  - unfold processAlert in Hadmitted.
    destruct (shouldSendAlert cfg now a m) as [[|]|] eqn:Hs;
      try (destruct (title a); simpl in Hadmitted; lia).
    unfold shouldSendAlert in Hs.
    destruct (checkRateLimit cfg now m) eqn:Hrate; simpl in Hs; [| discriminate].
    unfold checkRateLimit in Hrate. now apply Z.ltb_lt in Hrate.
  - unfold processAlert.
    destruct (shouldSendAlert cfg now a m) as [[|]|];
      destruct (title a); reflexivity.
  - intros deliver sentAt al m'. unfold sendAlert, trackAlert. simpl.
    apply mapSet_has.
Qed.

Lemma admission_witness :
  List.length (alertQueue afterFirstAdmission) = 1
  /\ (Z.of_nat (recentAlerts firstAdmission (alertHistory emptyManager))
      < maxAlertsPerHour hourlyLimitOne)%Z.
Proof.
  split; [reflexivity |].
  refine (proj1 (admission_requires_rate_headroom hourlyLimitOne firstAdmission
                   "alert_1700000200000_k3x9q2m1a" earlierStored emptyManager _)).
  reflexivity.
Defined.

End Alerts.

(* ===================================================================== *)
(** * Similarity signals: ranges and empty inputs *)
(* ===================================================================== *)

Section VectorFacts.

Import Vector.

Local Open Scope R_scope.

Lemma accumulate_sums : forall a b d nA nB,
  accumulate a b d nA nB
  = (d + dotOf (combine a b),
     nA + squaresLeft (combine a b),
     nB + squaresRight (combine a b)).
Proof.
  induction a as [|x a IH]; intros [|y b] d nA nB; simpl;
    try (now rewrite !Rplus_0_r).
  rewrite IH. now rewrite !Rplus_assoc.
Qed.

Lemma squaresLeft_nonneg : forall ps, 0 <= squaresLeft ps.
Proof.
  induction ps as [|[x y] ps IH]; simpl; [Lra.lra |].
  pose proof (Rle_0_sqr x) as H. unfold Rsqr in H. Lra.lra.
Qed.

Lemma squaresRight_nonneg : forall ps, 0 <= squaresRight ps.
Proof.
  induction ps as [|[x y] ps IH]; simpl; [Lra.lra |].
  pose proof (Rle_0_sqr y) as H. unfold Rsqr in H. Lra.lra.
Qed.

Lemma crossSquares_nonneg : forall u v ps, 0 <= crossSquares u v ps.
Proof.
  intros u v. induction ps as [|[x y] ps IH]; simpl; [Lra.lra |].
  pose proof (Rle_0_sqr (u * y - v * x)) as H. unfold Rsqr in H. Lra.lra.
Qed.

Lemma crossSquares_expand : forall u v ps,
  crossSquares u v ps
  = u * u * squaresRight ps - 2 * (u * v) * dotOf ps + v * v * squaresLeft ps.
Proof.
  intros u v. induction ps as [|[x y] ps IH]; simpl; [ring |].
  rewrite IH. ring.
Qed.

(** The Cauchy-Schwarz inequality for the sums of the loop. *)
Lemma dot_square_le : forall ps,
  dotOf ps * dotOf ps <= squaresLeft ps * squaresRight ps.
Proof.
  induction ps as [|[x y] ps IH]; simpl; [Lra.lra |].
  pose proof (crossSquares_nonneg x y ps) as Hc.
  rewrite crossSquares_expand in Hc.
  Lra.nra.
Qed.

Lemma dotOf_nonneg : forall a b,
  nonNegative a -> nonNegative b -> 0 <= dotOf (combine a b).
Proof.
  induction a as [|x a IH]; intros [|y b] Ha Hb; simpl; try Lra.lra.
  inversion Ha; inversion Hb; subst.
  specialize (IH b H2 H6).
  pose proof (Rmult_le_pos x y H1 H5). Lra.lra.
Qed.

Lemma quotient_within_unit : forall d a b,
  0 <= a -> 0 <= b -> d * d <= a * b -> sqrt a * sqrt b <> 0 ->
  -1 <= d / (sqrt a * sqrt b) <= 1.
Proof.
  intros d a b Ha Hb Hd Hm.
  set (m := sqrt a * sqrt b) in *.
  assert (Hpos : 0 < m).
  { pose proof (sqrt_pos a). pose proof (sqrt_pos b).
    pose proof (Rmult_le_pos _ _ H H0). fold m in H1. Lra.lra. }
  assert (Hsq : m * m = a * b).
  { unfold m.
    replace (sqrt a * sqrt b * (sqrt a * sqrt b))
      with ((sqrt a * sqrt a) * (sqrt b * sqrt b)) by ring.
    now rewrite (sqrt_sqrt a Ha), (sqrt_sqrt b Hb). }
  assert (Hq : d / m * m = d) by (field; Lra.lra).
  set (q := d / m) in *.
  assert (Hup : d <= m).
  { destruct (Rle_dec d m) as [H | H]; [exact H | exfalso].
    assert (m * m < d * d) by (apply Rmult_le_0_lt_compat; Lra.lra).
    Lra.lra. }
  assert (Hlow : - m <= d).
  { destruct (Rle_dec (- m) d) as [H | H]; [exact H | exfalso].
    assert (m * m < (- d) * (- d)) by (apply Rmult_le_0_lt_compat; Lra.lra).
    Lra.lra. }
  split.
  - destruct (Rle_dec (-1) q) as [H | H]; [exact H | exfalso].
    assert (q * m < -1 * m) by (apply Rmult_lt_compat_r; Lra.lra).
    Lra.lra.
  - destruct (Rle_dec q 1) as [H | H]; [exact H | exfalso].
    assert (1 * m < q * m) by (apply Rmult_lt_compat_r; Lra.lra).
    Lra.lra.
Qed.

Lemma cosineSimilarity_within_unit : forall a b,
  -1 <= cosineSimilarity a b <= 1.
Proof.
  intros [a|] [b|]; simpl; try Lra.lra.
  destruct (negb _); [Lra.lra |].
  rewrite accumulate_sums. cbv iota. rewrite !Rplus_0_l.
  destruct (Req_dec_T _ 0) as [_ | Hm]; [Lra.lra |].
  apply quotient_within_unit;
    auto using squaresLeft_nonneg, squaresRight_nonneg, dot_square_le.
Qed.

Lemma cosineSimilarity_nonneg : forall a b,
  nonNegative a -> nonNegative b ->
  0 <= cosineSimilarity (Some a) (Some b) <= 1.
Proof.
  intros a b Ha Hb.
  split; [| apply cosineSimilarity_within_unit].
  simpl. destruct (negb _); [Lra.lra |].
  rewrite accumulate_sums. cbv iota. rewrite !Rplus_0_l.
  destruct (Req_dec_T _ 0) as [_ | Hm]; [Lra.lra |].
  pose proof (dotOf_nonneg a b Ha Hb) as Hd.
  pose proof (sqrt_pos (squaresLeft (combine a b))).
  pose proof (sqrt_pos (squaresRight (combine a b))).
  apply Rmult_le_pos; [exact Hd |].
  apply Rlt_le, Rinv_0_lt_compat.
  pose proof (Rmult_le_pos _ _ H H0). Lra.lra.
Qed.

Lemma generateMockEmbedding_length : forall dimension text,
  List.length (generateMockEmbedding dimension text) = dimension.
Proof.
  intros dimension text. unfold generateMockEmbedding, normalizeVector.
  destruct (Req_dec_T _ 0); rewrite !length_map, length_seq; reflexivity.
Qed.

End VectorFacts.

Section SignalFacts.

Import DeduplicationEngine.

Lemma distinct_In : forall l x, In x (Text.distinct l) <-> In x l.
Proof.
  induction l as [|y l IH]; intros x; simpl; [tauto |].
  rewrite filter_In, IH. split.
  - intros [H | [H _]]; auto.
  - intros [H | H]; [auto |].
    destruct (String.eqb y x) eqn:E.
    + apply String.eqb_eq in E. auto.
    + right. split; [exact H | reflexivity].
Qed.

Lemma distinct_NoDup : forall l, NoDup (Text.distinct l).
Proof.
  induction l as [|y l IH]; simpl; constructor.
  - rewrite filter_In. intros [_ H]. now rewrite String.eqb_refl in H.
  - now apply NoDup_filter.
Qed.

Lemma intersection_le_union : forall s1 s2,
  (List.length (intersection s1 s2) <= List.length (union s1 s2))%nat.
Proof.
  intros s1 s2. unfold intersection, union.
  apply NoDup_incl_length; [apply distinct_NoDup |].
  intros x Hx. apply (proj1 (distinct_In _ _)) in Hx.
  apply filter_In in Hx as [Hx _].
  apply (proj2 (distinct_In _ _)). apply in_or_app. now left.
Qed.

Lemma union_nonempty : forall s1 s2,
  s1 <> [] -> (0 < List.length (union s1 s2))%nat.
Proof.
  intros [|x s1] s2 H; [contradiction | unfold union; simpl; lia].
Qed.

Lemma splitSpace_nonempty : forall s, Text.splitSpace s <> [].
Proof.
  induction s as [|c s IH]; simpl; [discriminate |].
  destruct (Ascii.eqb c " "); [discriminate |].
  destruct (Text.splitSpace s); discriminate.
Qed.

Lemma distinct_nonempty : forall l, l <> [] -> Text.distinct l <> [].
Proof. intros [|x l] H; [contradiction | discriminate]. Qed.

Local Open Scope Q_scope.

Lemma jaccardSimilarity_bounds : forall t1 t2,
  0 <= jaccardSimilarity t1 t2 <= 1.
Proof.
  intros t1 t2. unfold jaccardSimilarity.
  apply ratio_bounds; [apply intersection_le_union |].
  apply union_nonempty, distinct_nonempty, splitSpace_nonempty.
Qed.

Lemma calculateEntitySimilarity_bounds : forall e1 e2,
  0 <= calculateEntitySimilarity e1 e2 <= 1.
Proof.
  intros [|x e1] [|y e2]; try (simpl; split; Lqa.lra).
  unfold calculateEntitySimilarity. cbv iota.
  apply ratio_bounds; [apply intersection_le_union |].
  apply union_nonempty, distinct_nonempty. discriminate.
Qed.

Lemma calculateTemporalProximity_bounds : forall d1 d2,
  0 <= calculateTemporalProximity d1 d2 <= 1.
Proof.
  intros d1 d2. unfold calculateTemporalProximity.
  split; [apply Q.le_max_l |].
  apply Q.max_lub; [Lqa.lra |].
  assert (H : 0 <= inject_Z (Z.abs (d1 - d2)) / inject_Z (1000 * 60 * 60)).
  { apply Qle_shift_div_l; [reflexivity |]. rewrite Qmult_0_l.
    change 0 with (inject_Z 0). rewrite <- Zle_Qle. lia. }
  set (h := inject_Z (Z.abs (d1 - d2)) / inject_Z (1000 * 60 * 60)) in *.
  assert (H24 : 0 <= h / 24).
  { apply Qle_shift_div_l; [reflexivity |]. now rewrite Qmult_0_l. }
  Lqa.lra.
Qed.

Lemma calculateTextSimilarity_bounds : forall ext t1 t2,
  (forall x y, 0 <= compareTwoStrings ext x y <= 1) ->
  0 <= calculateTextSimilarity ext t1 t2 <= 1.
Proof.
  intros ext t1 t2 Hdice. unfold calculateTextSimilarity.
  destruct (Text.orElse t1 None) as [x|], (Text.orElse t2 None) as [y|];
    try (split; Lqa.lra).
  destruct (_ || _)%bool; [split; Lqa.lra |].
  pose proof (jaccardSimilarity_bounds (normalizeText x) (normalizeText y)).
  pose proof (Hdice (normalizeText x) (normalizeText y)).
  split; Lqa.lra.
Qed.

Lemma calculateTextSimilarity_empty : forall ext t1 t2,
  t1 = None \/ t1 = Some EmptyString \/ t2 = None \/ t2 = Some EmptyString ->
  calculateTextSimilarity ext t1 t2 = 0.
Proof.
  intros ext t1 t2 H. unfold calculateTextSimilarity.
  destruct H as [-> | [-> | [-> | ->]]]; simpl; try reflexivity;
    destruct (Text.orElse t1 None); reflexivity.
Qed.

Lemma calculateEntitySimilarity_empty : forall e1 e2,
  e1 = [] \/ e2 = [] -> calculateEntitySimilarity e1 e2 = 0.
Proof.
  intros e1 e2 [-> | ->]; [reflexivity |]. destruct e1; reflexivity.
Qed.

(** ** The TF-IDF content signal *)

Lemma frequencyOf_set : forall key value entries k,
  SimpleTfIdf.frequencyOf k (SimpleTfIdf.setFrequency key value entries)
  = if String.eqb key k then value else SimpleTfIdf.frequencyOf k entries.
Proof.
  intros key value entries k. induction entries as [|[k0 v0] rest IH]; simpl.
  - reflexivity.
  - destruct (String.eqb k0 key) eqn:E0; simpl.
    + apply String.eqb_eq in E0. subst k0.
      destruct (String.eqb key k); reflexivity.
    + destruct (String.eqb k0 k) eqn:E1; [| exact IH].
      apply String.eqb_eq in E1. subst k0. now rewrite String.eqb_sym, E0.
Qed.

Lemma frequencyOf_counted : forall ws entries k,
  NoDup ws ->
  (SimpleTfIdf.frequencyOf k (fold_left SimpleTfIdf.countWord ws entries)
   <= SimpleTfIdf.frequencyOf k entries + 1)%nat.
Proof.
  induction ws as [|w ws IH]; intros entries k Hnd; simpl; [lia |].
  inversion Hnd as [|? ? Hw Hws]; subst.
  destruct (String.eqb w k) eqn:E.
  - apply String.eqb_eq in E. subst k.
    assert (Hrest : forall m,
              SimpleTfIdf.frequencyOf w (fold_left SimpleTfIdf.countWord ws m)
              = SimpleTfIdf.frequencyOf w m).
    { clear IH Hnd Hws. induction ws as [|x ws IHw]; intros m; simpl; [reflexivity |].
      rewrite IHw by (intros H; apply Hw; now right).
      unfold SimpleTfIdf.countWord. rewrite frequencyOf_set.
      destruct (String.eqb x w) eqn:Ex; [| reflexivity].
      apply String.eqb_eq in Ex. subst x. exfalso. apply Hw. now left. }
    rewrite Hrest. unfold SimpleTfIdf.countWord.
    rewrite frequencyOf_set, String.eqb_refl. lia.
  - specialize (IH (SimpleTfIdf.countWord entries w) k Hws).
    assert (Hk : SimpleTfIdf.frequencyOf k (SimpleTfIdf.countWord entries w)
                 = SimpleTfIdf.frequencyOf k entries)
      by (unfold SimpleTfIdf.countWord; now rewrite frequencyOf_set, E).
    rewrite Hk in IH. exact IH.
Qed.

Lemma addDocument_bounded : forall document st,
  frequenciesBounded st -> frequenciesBounded (SimpleTfIdf.addDocument document st).
Proof.
  intros document st H k. unfold SimpleTfIdf.addDocument.
  destruct document as [|c document]; [apply H |].
  remember (SimpleTfIdf.tokenize (String c document)) as words eqn:Hwords.
  clear Hwords. simpl. rewrite length_app. simpl.
  pose proof (frequencyOf_counted (Text.distinct words)
                (SimpleTfIdf.documentFrequencies st) k (distinct_NoDup _)).
  specialize (H k). lia.
Qed.

Lemma tf_nonneg : forall term document, (0 <= SimpleTfIdf.tf term document)%R.
Proof.
  intros term [|w document]; unfold SimpleTfIdf.tf; [Lra.lra |].
  apply Rmult_le_pos; [apply pos_INR |].
  apply Rlt_le, Rinv_0_lt_compat.
  change 0%R with (INR 0). apply lt_INR. simpl. lia.
Qed.

Lemma idf_nonneg : forall st term,
  frequenciesBounded st -> (0 <= SimpleTfIdf.idf st term)%R.
Proof.
  intros st term H. unfold SimpleTfIdf.idf. specialize (H term).
  destruct (SimpleTfIdf.frequencyOf term (SimpleTfIdf.documentFrequencies st))
    as [|n]; [Lra.lra |].
  set (N := List.length (SimpleTfIdf.documents st)) in *.
  assert (Hpos : (0 < INR (S n))%R) by (apply lt_0_INR; lia).
  assert (Hle : (INR (S n) <= INR N)%R) by (apply le_INR; exact H).
  assert (Hq : (1 <= INR N / INR (S n))%R).
  { apply Rmult_le_reg_r with (INR (S n)); [exact Hpos |].
    replace (INR N / INR (S n) * INR (S n))%R with (INR N) by (field; Lra.lra).
    Lra.lra. }
  destruct (Req_dec_T (INR N / INR (S n)) 1) as [-> | Hne].
  - rewrite ln_1. Lra.lra.
  - rewrite <- ln_1. apply Rlt_le, ln_increasing; Lra.lra.
Qed.

Lemma getVector_nonneg : forall st docIndex,
  frequenciesBounded st -> nonNegative (SimpleTfIdf.getVector st docIndex).
Proof.
  intros st docIndex H. unfold SimpleTfIdf.getVector, nonNegative.
  destruct (_ <=? _)%nat; [constructor |].
  apply Forall_forall. intros x Hx. apply in_map_iff in Hx as (term & <- & _).
  unfold SimpleTfIdf.tfidf.
  destruct (nth_error _ docIndex); [| Lra.lra].
  apply Rmult_le_pos; [apply tf_nonneg | now apply idf_nonneg].
Qed.

Lemma similarityOfContents_bounds : forall content1 content2,
  (0 <= SimpleTfIdf.similarityOfContents content1 content2 <= 1)%R.
Proof.
  intros content1 content2. unfold SimpleTfIdf.similarityOfContents.
  destruct (_ || _)%bool; [Lra.lra |].
  set (st := SimpleTfIdf.addDocument content2 _).
  assert (Hst : frequenciesBounded st).
  { apply addDocument_bounded, addDocument_bounded. intros k. simpl. lia. }
  unfold SimpleTfIdf.calculateSimilarity.
  pose proof (getVector_nonneg st 0 Hst) as H0.
  pose proof (getVector_nonneg st 1 Hst) as H1.
  destruct (SimpleTfIdf.getVector st 0) as [|x v0]; [Lra.lra |].
  destruct (SimpleTfIdf.getVector st 1) as [|y v1]; [Lra.lra |].
  now apply cosineSimilarity_nonneg.
Qed.

Lemma cosineSimilarity_guards : forall a b,
  (List.length a <> List.length b \/ a = [] \/ b = []
   \/ Double.eqb (DoubleVector.magnitudeOf a b) Double.zero = true) ->
  DoubleVector.cosineSimilarity (Some a) (Some b) = Double.zero.
Proof.
  intros a b H. unfold DoubleVector.cosineSimilarity.
  destruct (Nat.eqb_spec (List.length a) (List.length b)) as [Hlen | Hlen];
    [| reflexivity].
  cbn [negb].
  destruct H as [H | [-> | [-> | H]]].
  - contradiction.
  - reflexivity.
  - destruct a; [reflexivity | discriminate Hlen].
  - unfold DoubleVector.quotientOf.
    destruct (DoubleVector.accumulate a b _ _ _) as [[dotProduct normA] normB].
    now rewrite H.
Qed.



End SignalFacts.

(* ===================================================================== *)
(** * NewsProcessor: batches of feeds, summaries and cleaned text *)
(* ===================================================================== *)

Section FeedFacts.

Import Text.
Import NewsProcessor.

Lemma chunkLoop_spec : forall (A : Type) fuel (array : list A) size i chunks,
  1 <= size ->
  List.length array - i <= fuel ->
  exists rest,
    chunkLoop fuel array size i chunks = Some (chunks ++ rest)%list
    /\ List.concat rest = skipn i array
    /\ Forall (fun c => 1 <= List.length c <= size) rest
    /\ Forall (fun c => List.length c = size) (removelast rest).
Proof.
  intros A fuel. induction fuel as [|fuel IH]; intros array size i chunks Hsize Hfuel.
  - exists []. simpl.
    assert (Hi : (i <? List.length array)%nat = false)
      by (apply Nat.ltb_ge; lia).
    rewrite Hi, app_nil_r. repeat split; try constructor.
    symmetry. apply skipn_all2. lia.
  - simpl. destruct (i <? List.length array)%nat eqn:Hi.
    + apply Nat.ltb_lt in Hi.
      destruct (IH array size (i + size) (chunks ++ [slice i (i + size) array]) Hsize)
        as [rest [Hrun [Hcat [Hlen Hfull]]]]; [lia |].
      exists (slice i (i + size) array :: rest).
      assert (Hslice : slice i (i + size) array = firstn size (skipn i array)).
      { unfold slice. f_equal. lia. }
      split; [| split; [| split]].
      * rewrite Hrun, <- app_assoc. reflexivity.
      * simpl. rewrite Hcat, Hslice.
        replace (i + size) with (size + i) by lia.
        rewrite <- skipn_skipn. apply firstn_skipn.
      * constructor; [| exact Hlen].
        rewrite Hslice, length_firstn, length_skipn. lia.
      * destruct rest as [|c rest]; [constructor |].
        change (removelast (slice i (i + size) array :: c :: rest))
          with (slice i (i + size) array :: removelast (c :: rest)).
        constructor; [| exact Hfull].
        rewrite Hslice, length_firstn, length_skipn.
        assert (Hc : 1 <= List.length c) by (inversion Hlen; lia).
        assert (Hrest : List.length (List.concat (c :: rest))
                        = List.length (skipn (i + size) array))
          by (rewrite Hcat; reflexivity).
        simpl in Hrest. rewrite length_app, length_skipn in Hrest. lia.
    + exists []. rewrite app_nil_r. apply Nat.ltb_ge in Hi.
      repeat split; try constructor.
      symmetry. apply skipn_all2. exact Hi.
Qed.

(** With a size of zero the loop of [chunkArray] never ends on an array
    that is not empty. *)
Lemma chunkArray_zero_size : forall (A : Type) fuel (array : list A),
  array <> [] -> chunkArray fuel array 0 = None.
Proof.
  intros A fuel array Hne. unfold chunkArray.
  assert (H : forall chunks, chunkLoop fuel array 0 0 chunks = None).
  { induction fuel as [|fuel IH]; intros chunks; simpl;
      destruct array as [|x array]; try congruence; simpl.
    - reflexivity.
    - apply IH. }
  apply H.
Qed.

(** X1. [chunkArray] with a size of at least one ends and cuts the array
    into consecutive chunks: put together again they give the array, no
    chunk is empty or longer than the size, and every chunk but the last
    has exactly the size. *)
Theorem chunkArray_partitions : forall (A : Type) (array : list A) size fuel,
  1 <= size ->
  List.length array <= fuel ->
  exists chunks,
    chunkArray fuel array size = Some chunks
    /\ List.concat chunks = array
    /\ Forall (fun c => 1 <= List.length c <= size) chunks
    /\ Forall (fun c => List.length c = size) (removelast chunks).
Proof.
  intros A array size fuel Hsize Hfuel.
  destruct (chunkLoop_spec A fuel array size 0 [] Hsize) as [rest H]; [lia |].
  exists rest. exact H.
Qed.

Lemma chunkArray_partitions_witness :
  exists chunks,
    chunkArray 5 ["a"; "b"; "c"; "d"; "e"] 2 = Some chunks
    /\ List.concat chunks = ["a"; "b"; "c"; "d"; "e"]
    /\ Forall (fun c => 1 <= List.length c <= 2) chunks
    /\ Forall (fun c => List.length c = 2) (removelast chunks).
Proof.
  apply (chunkArray_partitions string ["a"; "b"; "c"; "d"; "e"] 2 5); simpl; lia.
Defined.

Lemma length_append : forall a b : string,
  String.length (a ++ b) = String.length a + String.length b.
Proof. induction a as [|c a IH]; intros b; simpl; [| rewrite IH]; reflexivity. Qed.

Lemma length_prefix : forall n s,
  String.length (substring 0 n s) = Nat.min n (String.length s).
Proof.
  induction n as [|n IH]; intros [|c s]; simpl; try reflexivity.
  rewrite IH. reflexivity.
Qed.

Lemma prefix_prefix : forall n m s,
  n <= m -> substring 0 n (substring 0 m s) = substring 0 n s.
Proof.
  induction n as [|n IH]; intros m s Hnm.
  - destruct m, s; reflexivity.
  - destruct m as [|m]; [lia |]. destruct s as [|c s]; simpl; [reflexivity |].
    rewrite IH by lia. reflexivity.
Qed.

Lemma prefix_all : forall n s, String.length s <= n -> substring 0 n s = s.
Proof.
  induction n as [|n IH]; intros [|c s] H; simpl in *; try reflexivity; try lia.
  rewrite IH by lia. reflexivity.
Qed.

Lemma lastIndexOf_get : forall c s i,
  lastIndexOf c s = Some i -> String.get i s = Some c /\ i < String.length s.
Proof.
  intros c. induction s as [|d s IH]; intros i H; simpl in H; [discriminate |].
  destruct (lastIndexOf c s) as [j|] eqn:Hj.
  - injection H as <-. destruct (IH j eq_refl) as [Hget Hlt].
    simpl. split; [exact Hget | lia].
  - destruct (Ascii.eqb d c) eqn:Hd; [| discriminate].
    injection H as <-. apply Ascii.eqb_eq in Hd. subst d.
    simpl. split; [reflexivity | lia].
Qed.

(** X2. The summary [generateSummary] gives for a content is the content
    itself when that has at most 300 characters.  Otherwise it is either
    the first 300 characters followed by three dots, or a prefix of 212 to
    300 characters that ends in a full stop.  It is never longer than 303
    characters. *)
Theorem generateSummary_shape : forall content,
  String.length (generateSummary content) <= 303
  /\ (if (String.length content <=? 300)%nat
      then generateSummary content = content
      else generateSummary content = (substring 0 300 content ++ "...")%string
           \/ exists n,
                212 <= n <= 300
                /\ generateSummary content = substring 0 n content
                /\ String.get (n - 1) content = Some "."%char).
Proof.
  intros content. unfold generateSummary.
  destruct (String.length content <=? 300)%nat eqn:Hshort.
  - apply Nat.leb_le in Hshort. split; [lia | reflexivity].
  - apply Nat.leb_gt in Hshort.
    assert (Hdots : String.length (substring 0 300 content ++ "...")%string <= 303).
    { rewrite length_append, length_prefix.
      change (String.length "...") with 3. lia. }
    destruct (lastIndexOf "."%char (substring 0 300 content)) as [i|] eqn:Hi.
    + destruct (210 <? i)%nat eqn:Hlate.
      * apply Nat.ltb_lt in Hlate.
        destruct (lastIndexOf_get _ _ _ Hi) as [Hget Hlt].
        rewrite length_prefix in Hlt.
        rewrite prefix_prefix by lia.
        split; [rewrite length_prefix; lia |].
        right. exists (i + 1). split; [lia |]. split; [reflexivity |].
        replace (i + 1 - 1) with i by lia.
        rewrite <- Hget.
        rewrite (substring_correct1 content 0 300 i) by lia.
        f_equal. lia.
      * split; [exact Hdots | left; reflexivity].
    + split; [exact Hdots | left; reflexivity].
Qed.

Lemma allChars_append : forall p a b,
  allChars p (a ++ b) = allChars p a && allChars p b.
Proof.
  intros p. induction a as [|c a IH]; intros b; simpl; [reflexivity |].
  rewrite IH, andb_assoc. reflexivity.
Qed.

Lemma replaceFrom_allChars : forall p pat r s skip,
  allChars p r = true -> allChars p s = true ->
  allChars p (replaceFrom skip pat r s) = true.
Proof.
  intros p pat r s. induction s as [|c s IH]; intros skip Hr Hs; [reflexivity |].
  simpl in Hs. apply andb_true_iff in Hs as [Hc Hs].
  destruct skip as [|k].
  - change (replaceFrom 0 pat r (String c s))
      with (if startsWith pat (String c s)
            then (r ++ replaceFrom (String.length pat - 1) pat r s)%string
            else String c (replaceFrom 0 pat r s)).
    destruct (startsWith pat (String c s)).
    + rewrite allChars_append, Hr. simpl. apply IH; assumption.
    + simpl. rewrite Hc. simpl. apply IH; assumption.
  - simpl. apply IH; assumption.
Qed.

Lemma replaceAll_without_first : forall a pat r s,
  allChars (fun c => negb (Ascii.eqb c a)) s = true ->
  replaceAll (String a pat) r s = s.
Proof.
  intros a pat r. unfold replaceAll. induction s as [|c s IH]; intros H; [reflexivity |].
  simpl in H. apply andb_true_iff in H as [Hc Hs].
  change (replaceFrom 0 (String a pat) r (String c s))
    with (if startsWith (String a pat) (String c s)
          then (r ++ replaceFrom (String.length (String a pat) - 1) (String a pat) r s)%string
          else String c (replaceFrom 0 (String a pat) r s)).
  simpl. rewrite Ascii.eqb_sym. apply negb_true_iff in Hc. rewrite Hc. simpl.
  rewrite IH by exact Hs. reflexivity.
Qed.

Lemma collapseFrom_plain : forall s b,
  allChars isPlainChar (collapseFrom b s) = true.
Proof.
  induction s as [|c s IH]; intros b; simpl; [reflexivity |].
  destruct (isSpace c) eqn:Hc.
  - destruct b; simpl; [apply IH | rewrite IH; reflexivity].
  - simpl. unfold isPlainChar at 1. rewrite Hc. simpl. apply IH.
Qed.

Lemma collapseFrom_keeps : forall p s b,
  p " "%char = true -> allChars p s = true ->
  allChars p (collapseFrom b s) = true.
Proof.
  intros p. induction s as [|c s IH]; intros b Hsp H; simpl; [reflexivity |].
  simpl in H. apply andb_true_iff in H as [Hc Hs].
  destruct (isSpace c).
  - destruct b; simpl; [| rewrite Hsp; simpl]; apply IH; assumption.
  - simpl. rewrite Hc. simpl. apply IH; assumption.
Qed.

(** X3. [cleanText] of a text that is not empty returns a text in which
    every white-space character is a plain space.  When the text holds no
    ampersand, the result is the text with each run of white space made one
    space and the ends trimmed: no two spaces follow each other and none
    stands at either end. *)
Theorem cleanText_white_space : forall t,
  t <> EmptyString ->
  exists r,
    cleanText (Some t) = Some r
    /\ allChars isPlainChar r = true
    /\ (allChars notAmpersand t = true ->
        r = trim (collapseWhitespace t)
        /\ noRun true r = true /\ endsClean r = true).
Proof.
  intros t Hne. unfold cleanText.
  destruct t as [|c t]; [congruence |]. cbn [orElse].
  eexists. split; [reflexivity |].
  set (base := trim (collapseWhitespace (String c t))).
  assert (Hbase : allChars isPlainChar base = true).
  { unfold base, trim. apply trimEnd_allChars, trimStart_allChars, collapseFrom_plain. }
  split.
  - unfold replaceAll.
    repeat (apply replaceFrom_allChars; [reflexivity |]). exact Hbase.
  - intros Hamp.
    assert (Hkeep : allChars notAmpersand base = true).
    { unfold base, trim.
      apply trimEnd_allChars, trimStart_allChars, collapseFrom_keeps;
        [reflexivity | exact Hamp]. }
    unfold notAmpersand in Hkeep.
    rewrite (replaceAll_without_first "&"%char "nbsp;" " " base Hkeep).
    rewrite (replaceAll_without_first "&"%char "amp;" "&" base Hkeep).
    rewrite (replaceAll_without_first "&"%char "lt;" "<" base Hkeep).
    rewrite (replaceAll_without_first "&"%char "gt;" ">" base Hkeep).
    rewrite (replaceAll_without_first "&"%char "quot;" quote base Hkeep).
    rewrite (replaceAll_without_first "&"%char "#39;" "'" base Hkeep).
    split; [reflexivity |]. unfold base, trim, collapseWhitespace. split.
    + apply (trimEnd_noRun _ true), (trimStart_noRun _ false), collapseFrom_noRun.
    + apply trimEnd_endsClean.
Qed.

Lemma cleanText_white_space_witness :
  exists r,
    cleanText (Some "  Fish   and chips ") = Some r
    /\ allChars isPlainChar r = true
    /\ (allChars notAmpersand "  Fish   and chips " = true ->
        r = trim (collapseWhitespace "  Fish   and chips ")
        /\ noRun true r = true /\ endsClean r = true).
Proof.
  apply (cleanText_white_space "  Fish   and chips "). discriminate.
Defined.

(** The entities are decoded one after the other, the ampersand before the
    angle brackets: a text that spells out an entity is decoded twice. *)
Example cleanText_decodes_twice :
  cleanText (Some "a &amp;lt; b") = Some "a < b".
Proof. vm_compute. reflexivity. Qed.

End FeedFacts.

(* ===================================================================== *)
(** * Double: the order of the numbers *)
(* ===================================================================== *)

Section DoubleFacts.

Local Open Scope Z_scope.

Ltac compare_cases :=
  repeat match goal with
  | |- context [Z.compare ?a ?b] => destruct (Z.compare_spec a b)
  | |- context [Pos.compare_cont Eq ?a ?b] =>
      change (Pos.compare_cont Eq a b) with (Pos.compare a b);
      destruct (Pos.compare_spec a b)
  | H : context [Z.compare ?a ?b] |- _ => destruct (Z.compare_spec a b)
  | H : context [Pos.compare_cont Eq ?a ?b] |- _ =>
      change (Pos.compare_cont Eq a b) with (Pos.compare a b) in H;
      destruct (Pos.compare_spec a b)
  end.

Ltac by_comparison :=
  simpl; try discriminate; try reflexivity; intros;
  compare_cases; simpl in *; subst; try discriminate; try reflexivity; try lia.

Lemma leb_trans : forall x y z,
  Double.leb x y = true -> Double.leb y z = true -> Double.leb x z = true.
Proof.
  intros x y z. unfold Double.leb, SFleb.
  destruct x as [sx|sx| |sx mx ex], y as [sy|sy| |sy my ey],
           z as [sz|sz| |sz mz ez];
    try destruct sx; try destruct sy; try destruct sz; by_comparison.
Qed.

(** Two numbers can be compared: one that is not below the other is at
    least as large. *)
Lemma ltb_false_leb : forall x y,
  Double.isNaN x = false -> Double.isNaN y = false ->
  Double.ltb x y = false -> Double.leb y x = true.
Proof.
  intros x y. unfold Double.ltb, Double.leb, SFltb, SFleb.
  destruct x as [sx|sx| |sx mx ex], y as [sy|sy| |sy my ey];
    try destruct sx; try destruct sy; by_comparison.
Qed.

Lemma ltb_leb : forall x y, Double.ltb x y = true -> Double.leb x y = true.
Proof.
  intros x y. unfold Double.ltb, Double.leb, SFltb, SFleb.
  destruct (SFcompare x y) as [[]|]; congruence.
Qed.

(** NaN is below nothing and nothing is below it. *)
Lemma ltb_numbers : forall x y,
  Double.ltb x y = true -> Double.isNaN y = false.
Proof.
  intros x y. unfold Double.ltb, SFltb.
  destruct x, y; simpl; try discriminate; reflexivity.
Qed.

Lemma leb_reflexive : forall x, Double.isNaN x = false -> Double.leb x x = true.
Proof.
  intros x. unfold Double.leb, SFleb.
  destruct x as [s|s| |s m e]; try destruct s; simpl; try discriminate;
    try reflexivity; intros _;
    rewrite Z.compare_refl;
    change (Pos.compare_cont Eq m m) with (Pos.compare m m);
    rewrite Pos.compare_refl; reflexivity.
Qed.

Lemma leb_ltb_false : forall x y, Double.leb x y = true -> Double.ltb y x = false.
Proof.
  intros x y. unfold Double.ltb, Double.leb, SFltb, SFleb.
  destruct x as [sx|sx| |sx mx ex], y as [sy|sy| |sy my ey];
    try destruct sx; try destruct sy; by_comparison.
Qed.

Lemma ltb_false_leb_above : forall b b' s,
  Double.ltb b s = false -> Double.leb b b' = true -> Double.ltb b' s = false.
Proof.
  intros b b' s. unfold Double.ltb, Double.leb, SFltb, SFleb.
  destruct b as [sx|sx| |sx mx ex], b' as [sy|sy| |sy my ey],
           s as [sz|sz| |sz mz ez];
    try destruct sx; try destruct sy; try destruct sz; by_comparison.
Qed.

(** A sum, a product or a difference with NaN is NaN, and so are its
    absolute value and its square root. *)
Lemma add_NaN_r : forall x, Double.add x Double.NaN = Double.NaN.
Proof. intros [s|s| |s m e]; reflexivity. Qed.

Lemma sub_NaN_r : forall x, Double.sub x Double.NaN = Double.NaN.
Proof. intros [s|s| |s m e]; reflexivity. Qed.

End DoubleFacts.

(* ===================================================================== *)
(** * DeduplicationEngine: candidates, ranking, events and what is written *)
(* ===================================================================== *)

Section EngineFacts.

Import NewsProcessor DeduplicationEngine.

Lemma updateFirst_map : forall (B : Type) (g : Article -> B) p f xs,
  (forall b, g (f b) = g b) ->
  map g (updateFirst p f xs) = map g xs.
Proof.
  intros B g p f xs Hf. induction xs as [|b xs IH]; simpl; [reflexivity |].
  destruct (p b); simpl; [now rewrite Hf | now rewrite IH].
Qed.

(** The articles after [performDeduplication]: the stored copy of the
    article is marked, or nothing is written. *)
Lemma performDeduplication_articles : forall ext cfg now a e,
  exists f,
    (f = (fun b => b) \/ f = asUnique \/ exists original, f = asDuplicateOf original)
    /\ articles (db (finalState (performDeduplication ext cfg now a e)))
       = updateFirst (fun b => (_id b =? _id a)%nat) f (articles (db e))
    /\ nextId (db (finalState (performDeduplication ext cfg now a e)))
       = nextId (db e).
Proof.
  intros ext cfg now a e.
  assert (Hu : forall e0,
            articles (db e0) = articles (db e) -> nextId (db e0) = nextId (db e) ->
            exists f,
              (f = (fun b => b) \/ f = asUnique
               \/ exists original, f = asDuplicateOf original)
              /\ articles (db (finalState (markAsUnique a e0)))
                 = updateFirst (fun b => (_id b =? _id a)%nat) f (articles (db e))
              /\ nextId (db (finalState (markAsUnique a e0))) = nextId (db e)).
  { intros e0 Ha Hn. exists asUnique. split; [right; left; reflexivity |].
    rewrite markAsUnique_run. simpl. rewrite Ha, Hn. split; reflexivity. }
  unfold performDeduplication, bind, onDb, getCandidateArticles.
  destruct (firstn 50 _) as [|c cs];
    [apply (Hu {| db := db e; emitted := emitted e |}); reflexivity |].
  destruct (identifyDuplicates _ _) as [|d ds];
    [apply (Hu {| db := db e; emitted := emitted e |}); reflexivity |].
  unfold processDuplicates, bind.
  set (o := electOriginal a (d :: ds)).
  destruct (links_loop_frame now o (d :: ds) {| db := db e; emitted := emitted e |})
    as (Ha & Hn & _).
  destruct (forEach _ (d :: ds) _) as [e1 []|e1]; simpl in Ha, Hn |- *.
  - destruct (_id a =? _id o)%nat.
    + exists asUnique. split; [right; left; reflexivity |].
      unfold emit, modify. simpl. rewrite Ha, Hn. split; reflexivity.
    + exists (asDuplicateOf (_id o)). split; [right; right; eexists; reflexivity |].
      rewrite markAsDuplicate_run. simpl. rewrite Ha, Hn. split; reflexivity.
  - exists (fun b => b). split; [left; reflexivity |]. rewrite Ha, Hn.
    split; [| reflexivity].
    clear. induction (articles (db e)) as [|b bs IH]; simpl; [reflexivity |].
    destruct (_id b =? _id a)%nat; [reflexivity | now rewrite <- IH].
Qed.

(** ** The candidates *)

Lemma insertByDate_In : forall x xs y,
  In y (insertByDate x xs) <-> y = x \/ In y xs.
Proof.
  intros x xs y. split; [apply insertByDate_incl |].
  induction xs as [|z zs IH]; simpl.
  - intros [-> | []]. left; reflexivity.
  - destruct (publishedAt x <? publishedAt z)%Z; simpl.
    + intros [-> | [-> | Hin]]; auto.
    + intros [-> | [-> | Hin]]; auto.
Qed.

Lemma sortByDate_In : forall xs y, In y (sortByDate xs) <-> In y xs.
Proof.
  induction xs as [|x xs IH]; intros y; simpl; [tauto |].
  rewrite insertByDate_In, IH. split; intros [H | H]; auto.
Qed.

Lemma insertByDate_length : forall x xs,
  List.length (insertByDate x xs) = S (List.length xs).
Proof.
  intros x. induction xs as [|z zs IH]; simpl; [reflexivity |].
  destruct (publishedAt x <? publishedAt z)%Z; simpl; [now rewrite IH | reflexivity].
Qed.

Lemma sortByDate_length : forall xs, List.length (sortByDate xs) = List.length xs.
Proof.
  induction xs as [|x xs IH]; simpl; [reflexivity |].
  now rewrite insertByDate_length, IH.
Qed.

Lemma insertByDate_sorted : forall x xs,
  StronglySorted newestFirst xs -> StronglySorted newestFirst (insertByDate x xs).
Proof.
  intros x. induction xs as [|z zs IH]; intros Hs; simpl.
  - repeat constructor.
  - inversion Hs as [|? ? Hzs Hz]; subst.
    destruct (publishedAt x <? publishedAt z)%Z eqn:Hlt.
    + apply Z.ltb_lt in Hlt. constructor; [apply IH; exact Hzs |].
      apply Forall_forall. intros y Hy. apply insertByDate_In in Hy as [-> | Hy].
      * unfold newestFirst. lia.
      * exact (proj1 (Forall_forall _ _) Hz y Hy).
    + apply Z.ltb_ge in Hlt. constructor; [exact Hs |].
      constructor; [unfold newestFirst; lia |].
      apply Forall_forall. intros y Hy.
      pose proof (proj1 (Forall_forall _ _) Hz y Hy) as Hzy.
      unfold newestFirst in *. lia.
Qed.

Lemma sortByDate_sorted : forall xs, StronglySorted newestFirst (sortByDate xs).
Proof.
  induction xs as [|x xs IH]; simpl; [constructor | now apply insertByDate_sorted].
Qed.

Lemma sorted_firstn : forall (A : Type) (R : A -> A -> Prop) n xs,
  StronglySorted R xs -> StronglySorted R (firstn n xs).
Proof.
  intros A R n. induction n as [|n IH]; intros xs Hs; [constructor |].
  destruct xs as [|x xs]; [constructor |]. simpl.
  inversion Hs as [|? ? Hxs Hx]; subst. constructor; [now apply IH |].
  apply Forall_forall. intros y Hy.
  apply (proj1 (Forall_forall _ _) Hx). eapply firstn_incl. exact Hy.
Qed.

Lemma sorted_firstn_skipn : forall (A : Type) (R : A -> A -> Prop) n xs x y,
  StronglySorted R xs -> In x (firstn n xs) -> In y (skipn n xs) -> R x y.
Proof.
  intros A R n. induction n as [|n IH]; intros xs x y Hs Hx Hy; [destruct Hx |].
  destruct xs as [|z zs]; [destruct Hx |]. simpl in Hx, Hy.
  inversion Hs as [|? ? Hzs Hz]; subst. destruct Hx as [-> | Hx].
  - apply (proj1 (Forall_forall _ _) Hz).
    rewrite <- (firstn_skipn n zs). apply in_or_app. right. exact Hy.
  - now apply (IH zs).
Qed.

(** X5. [getCandidateArticles] returns at most 50 stored articles, the
    latest first.  None of them is the article itself, none was published
    before the time window opened, and a matching article that is left out
    was published no later than any candidate: the limit keeps the most
    recent ones. *)
Theorem candidates_are_the_most_recent : forall cfg now a st,
  let matching := filter (isCandidate (now - timeWindow cfg) a) (articles st) in
  let candidates := candidatesOf cfg now a st in
  getCandidateArticles cfg now a st = Returned st candidates
  /\ List.length candidates = Nat.min 50 (List.length matching)
  /\ StronglySorted newestFirst candidates
  /\ Forall (fun c => In c (articles st) /\ _id c <> _id a
                      /\ (now - timeWindow cfg <= publishedAt c)%Z) candidates
  /\ (forall c c', In c candidates -> In c' matching -> ~ In c' candidates ->
        (publishedAt c' <= publishedAt c)%Z).
Proof.
  intros cfg now a st matching candidates.
  assert (Hc : candidates = firstn 50 (sortByDate matching)) by reflexivity.
  split; [reflexivity |]. rewrite Hc. split; [| split; [| split]].
  - rewrite length_firstn, sortByDate_length. reflexivity.
  - apply sorted_firstn, sortByDate_sorted.
  - apply Forall_forall. intros c Hin.
    apply firstn_incl in Hin. apply (proj1 (sortByDate_In _ _)) in Hin.
    unfold matching in Hin.
    apply filter_In in Hin as [Hin Hok]. unfold isCandidate in Hok.
    apply andb_true_iff in Hok as [Hok _].
    apply andb_true_iff in Hok as [Hid Hwin].
    apply negb_true_iff, Nat.eqb_neq in Hid. apply Z.leb_le in Hwin.
    repeat split; assumption.
  - intros c c' Hin Hin' Hout.
    apply (sorted_firstn_skipn _ newestFirst 50 (sortByDate matching) c c');
      [apply sortByDate_sorted | exact Hin |].
    apply (proj2 (sortByDate_In _ _)) in Hin'.
    rewrite <- (firstn_skipn 50 (sortByDate matching)) in Hin'.
    apply in_app_or in Hin' as [Hin' | Hin']; [contradiction | exact Hin'].
Qed.

(** ** The ranking of the similarities *)

Lemma Qgtb_true : forall x y, Qgtb x y = true -> (y < x)%Q.
Proof.
  intros x y H. unfold Qgtb in H. apply negb_true_iff in H.
  apply Qnot_le_lt. intros Hle. apply Qle_bool_iff in Hle. congruence.
Qed.

Lemma Qgtb_false : forall x y, Qgtb x y = false -> (x <= y)%Q.
Proof.
  intros x y H. unfold Qgtb in H. apply negb_false_iff in H.
  now apply Qle_bool_iff.
Qed.

Lemma insertByScore_permutation : forall x xs,
  Permutation (DoubleEngine.insertByScore x xs) (x :: xs).
Proof.
  intros x. induction xs as [|y ys IH]; cbn [DoubleEngine.insertByScore];
    [reflexivity |].
  destruct (Double.gtb _ _); [| reflexivity].
  rewrite IH. apply perm_swap.
Qed.

Lemma sortByScore_permutation : forall xs,
  Permutation (DoubleEngine.sortByScore xs) xs.
Proof.
  induction xs as [|x xs IH]; cbn [DoubleEngine.sortByScore fold_right];
    [reflexivity |].
  fold (DoubleEngine.sortByScore xs).
  rewrite insertByScore_permutation. now constructor.
Qed.

Lemma insertByScore_sorted : forall x xs,
  Forall (fun s => Double.isNaN (DoubleEngine.Scores.overallScore
                                   (DoubleEngine.scores s)) = false) (x :: xs) ->
  StronglySorted bestFirst xs ->
  StronglySorted bestFirst (DoubleEngine.insertByScore x xs).
Proof.
  intros x. induction xs as [|z zs IH]; intros Hnum Hs;
    cbn [DoubleEngine.insertByScore].
  - repeat constructor.
  - inversion Hs as [|? ? Hzs Hz]; subst.
    inversion Hnum as [|? ? Hx Hrest]; subst.
    inversion Hrest as [|? ? Hzn Hzsn]; subst.
    unfold Double.gtb.
    destruct (Double.ltb (DoubleEngine.Scores.overallScore (DoubleEngine.scores x))
                         (DoubleEngine.Scores.overallScore (DoubleEngine.scores z)))
      eqn:Hlt.
    + constructor; [apply IH; [constructor; assumption | exact Hzs] |].
      apply Forall_forall. intros y Hy.
      apply (Permutation_in _ (insertByScore_permutation x zs)) in Hy.
      destruct Hy as [<- | Hy].
      * unfold bestFirst. now apply ltb_leb.
      * exact (proj1 (Forall_forall _ _) Hz y Hy).
    + assert (Hzx : bestFirst x z)
        by (unfold bestFirst; apply ltb_false_leb; assumption).
      constructor; [exact Hs |].
      constructor; [exact Hzx |].
      apply Forall_forall. intros y Hy.
      pose proof (proj1 (Forall_forall _ _) Hz y Hy) as Hzy.
      unfold bestFirst in *. eapply leb_trans; eassumption.
Qed.

Lemma sortByScore_sorted : forall xs,
  Forall (fun s => Double.isNaN (DoubleEngine.Scores.overallScore
                                   (DoubleEngine.scores s)) = false) xs ->
  StronglySorted bestFirst (DoubleEngine.sortByScore xs).
Proof.
  induction xs as [|x xs IH]; intros Hnum;
    cbn [DoubleEngine.sortByScore fold_right]; [constructor |].
  fold (DoubleEngine.sortByScore xs).
  inversion Hnum as [|? ? Hx Hxs]; subst.
  apply insertByScore_sorted; [| now apply IH].
  constructor; [exact Hx |].
  apply Forall_forall. intros y Hy.
  apply (Permutation_in _ (sortByScore_permutation xs)) in Hy.
  exact (proj1 (Forall_forall _ _) Hxs y Hy).
Qed.

Lemma sorted_filter : forall (A : Type) (R : A -> A -> Prop) p xs,
  StronglySorted R xs -> StronglySorted R (filter p xs).
Proof.
  intros A R p. induction xs as [|x xs IH]; intros Hs; simpl; [constructor |].
  inversion Hs as [|? ? Hxs Hx]; subst.
  destruct (p x); [| now apply IH]. constructor; [now apply IH |].
  apply Forall_forall. intros y Hy. apply filter_In in Hy as [Hy _].
  exact (proj1 (Forall_forall _ _) Hx y Hy).
Qed.

Lemma identified_are_filtered : forall th similarities,
  map DoubleEngine.similarity (DoubleEngine.identifyDuplicates th similarities)
  = filter (DoubleEngine.isDeclaredDuplicate th) similarities.
Proof.
  intros th similarities. unfold DoubleEngine.identifyDuplicates.
  rewrite map_map. simpl. apply map_id.
Qed.

(** X6. [analyzeSimilarities] returns the comparisons that score above 0.3,
    the best first, each one the score of the article against one of the
    candidates; a score that is NaN is dropped with the low ones.
    [identifyDuplicates] keeps that order: the declared duplicates come
    best first as well, each with the overall score as its confidence, and
    that confidence reaches the threshold of its method. *)
Theorem similarities_are_ranked : forall lib cfg a candidates,
  let similarities := DoubleEngine.analyzeSimilarities lib cfg a candidates in
  let dups :=
    DoubleEngine.identifyDuplicates (DoubleEngine.thresholds cfg) similarities in
  StronglySorted bestFirst similarities
  /\ Forall (fun s =>
               Double.ltb (Double.ofQ 0.3)
                 (DoubleEngine.Scores.overallScore (DoubleEngine.scores s)) = true
               /\ In (DoubleEngine.candidate s) candidates
               /\ DoubleEngine.scores s
                  = DoubleEngine.calculateSimilarityScore lib cfg a
                      (DoubleEngine.candidate s))
            similarities
  /\ StronglySorted bestFirst (map DoubleEngine.similarity dups)
  /\ Forall (fun d =>
               In (DoubleEngine.similarity d) similarities
               /\ DoubleEngine.article d
                  = DoubleEngine.candidate (DoubleEngine.similarity d)
               /\ DoubleEngine.confidence d
                  = DoubleEngine.Scores.overallScore
                      (DoubleEngine.scores (DoubleEngine.similarity d))
               /\ Double.leb
                    (DoubleEngine.thresholdFor (DoubleEngine.thresholds cfg)
                       (DoubleEngine.Scores.method
                          (DoubleEngine.scores (DoubleEngine.similarity d))))
                    (DoubleEngine.confidence d) = true)
            dups.
Proof.
  intros lib cfg a candidates similarities dups.
  assert (Hkept : forall s, In s similarities ->
            Double.ltb (Double.ofQ 0.3)
              (DoubleEngine.Scores.overallScore (DoubleEngine.scores s)) = true
            /\ In (DoubleEngine.candidate s) candidates
            /\ DoubleEngine.scores s
               = DoubleEngine.calculateSimilarityScore lib cfg a
                   (DoubleEngine.candidate s)).
  { intros s Hs. unfold similarities, DoubleEngine.analyzeSimilarities in Hs.
    apply (Permutation_in _ (sortByScore_permutation _)) in Hs.
    apply filter_In in Hs as [Hs Hgt].
    apply in_map_iff in Hs as (c & <- & Hc). cbn in *.
    split; [exact Hgt | split; [exact Hc | reflexivity]]. }
  assert (Hsorted : StronglySorted bestFirst similarities).
  { unfold similarities, DoubleEngine.analyzeSimilarities.
    apply sortByScore_sorted, Forall_forall. intros s Hs.
    apply filter_In in Hs as [_ Hgt]. unfold Double.gtb in Hgt.
    now apply ltb_numbers in Hgt. }
  split; [exact Hsorted |]. split; [| split].
  - apply Forall_forall. exact Hkept.
  - unfold dups. rewrite identified_are_filtered. now apply sorted_filter.
  - apply Forall_forall. intros d Hd.
    unfold dups, DoubleEngine.identifyDuplicates in Hd.
    apply in_map_iff in Hd as (s & <- & Hs). apply filter_In in Hs as [Hs Hok].
    cbn. split; [exact Hs |]. split; [reflexivity |]. split; [reflexivity |].
    exact Hok.
Qed.

(** ** The events and the articles written *)

(** X7. [performDeduplication] raises [uniqueArticleDetected] for an
    article only when it declared duplicates for it, recorded their links
    and elected the article the original.  An article for which no
    duplicate is declared is marked unique without any event. *)
Theorem event_needs_declared_duplicates : forall lib cfg now a e,
  let dups := declaredDuplicates lib cfg now a (db e) in
  match DoubleEngine.performDeduplication lib cfg now a e with
  | Thrown e' => emitted e' = emitted e
  | Returned e' _ =>
      emitted e'
      = emitted e
        ++ match dups with
           | [] => []
           | _ :: _ =>
               if (_id a =? _id (electOriginal a (map DoubleEngine.recorded dups)))%nat
               then [a] else []
           end
  end.
Proof.
  intros lib cfg now a e dups.
  assert (Hc : candidatesOf cfg now a (db e)
               = firstn 50 (sortByDate
                   (filter (isCandidate (now - timeWindow cfg) a) (articles (db e)))))
    by reflexivity.
  unfold dups, declaredDuplicates. rewrite Hc. clear Hc dups.
  unfold DoubleEngine.performDeduplication, bind, onDb, getCandidateArticles.
  destruct (firstn 50 _) as [|c cs].
  - rewrite markAsUnique_run. simpl. now rewrite app_nil_r.
  - destruct (DoubleEngine.identifyDuplicates _ _) as [|d ds] eqn:Hd.
    + rewrite markAsUnique_run. simpl. now rewrite app_nil_r.
    + set (stored := map DoubleEngine.recorded (d :: ds)).
      clearbody stored.
      pose proof (processDuplicates_marks now a stored
                    {| db := db e; emitted := emitted e |}) as Hmarks.
      destruct (links_loop_frame now (electOriginal a stored) stored
                  {| db := db e; emitted := emitted e |}) as (_ & _ & Hem).
      destruct (processDuplicates now a stored {| db := db e; emitted := emitted e |})
        as [e' []|e'] eqn:Hrun.
      * destruct (Hmarks e' eq_refl) as [_ Hemitted]. exact Hemitted.
      * unfold processDuplicates, bind in Hrun.
        match type of Hrun with
        | context [forEach ?body ?xs ?s0] =>
            destruct (forEach body xs s0) as [e1 []|e1]
        end; simpl in Hem.
        -- destruct (_id a =? _id (electOriginal a stored))%nat.
           ++ rewrite markAsUnique_run in Hrun. discriminate Hrun.
           ++ rewrite markAsDuplicate_run in Hrun. discriminate Hrun.
        -- injection Hrun as <-. exact Hem.
Qed.

Lemma updateFirst_Forall2 : forall (R : Article -> Article -> Prop) p f xs,
  (forall b, R b b) ->
  (forall b, p b = true -> R b (f b)) ->
  Forall2 R xs (updateFirst p f xs).
Proof.
  intros R p f xs Hrefl Hf. induction xs as [|b xs IH]; simpl; [constructor |].
  destruct (p b) eqn:Hp.
  - constructor; [now apply Hf |]. clear IH. induction xs; constructor; auto.
  - constructor; [apply Hrefl | exact IH].
Qed.

(** X8. [performDeduplication] writes to the article collection only by
    marking: no article is added or removed, and a stored article is left
    as it was unless it is stored under the id of the article being
    processed, in which case it may have been given one of the two
    markings.  The declared duplicates themselves are never marked. *)
Theorem performDeduplication_only_marks : forall ext cfg now a e,
  let e' := finalState (performDeduplication ext cfg now a e) in
  Forall2 (markedFor a) (articles (db e)) (articles (db e'))
  /\ nextId (db e') = nextId (db e).
Proof.
  intros ext cfg now a e e'. unfold e'.
  destruct (performDeduplication_articles ext cfg now a e) as (f & Hf & -> & ->).
  split; [| reflexivity].
  apply updateFirst_Forall2.
  - intros b. left. reflexivity.
  - intros b Hb. apply Nat.eqb_eq in Hb.
    destruct Hf as [-> | [-> | [original ->]]].
    + left. reflexivity.
    + right. split; [exact Hb | left; reflexivity].
    + right. split; [exact Hb | right; exists original; reflexivity].
Qed.

End EngineFacts.

(* ===================================================================== *)
(** * DeduplicationEngine: the range and the symmetry of the overall score *)
(* ===================================================================== *)

Section ScoreFacts.

Import DeduplicationEngine.

Local Open Scope Q_scope.

(** ** Symmetry *)

Lemma member_In : forall x xs, Text.member x xs = true <-> In x xs.
Proof.
  intros x xs. unfold Text.member. rewrite existsb_exists. split.
  - intros (y & Hy & Heq). apply String.eqb_eq in Heq. now subst.
  - intros H. exists x. split; [exact H | apply String.eqb_refl].
Qed.

Lemma same_members_same_length : forall l l' : list string,
  NoDup l -> NoDup l' -> (forall x, In x l <-> In x l') ->
  List.length l = List.length l'.
Proof.
  intros l l' Hl Hl' Hsame. apply Nat.le_antisymm.
  - apply NoDup_incl_length; [exact Hl |]. intros x Hx. now apply Hsame.
  - apply NoDup_incl_length; [exact Hl' |]. intros x Hx. now apply Hsame.
Qed.

Lemma intersection_length_sym : forall s1 s2,
  List.length (intersection s1 s2) = List.length (intersection s2 s1).
Proof.
  intros s1 s2. apply same_members_same_length; try apply distinct_NoDup.
  intros x. unfold intersection.
  rewrite !distinct_In, !filter_In, !member_In. tauto.
Qed.

Lemma union_length_sym : forall s1 s2,
  List.length (union s1 s2) = List.length (union s2 s1).
Proof.
  intros s1 s2. apply same_members_same_length; try apply distinct_NoDup.
  intros x. unfold union. rewrite !distinct_In, !in_app_iff. tauto.
Qed.

Lemma jaccardSimilarity_sym : forall t1 t2,
  jaccardSimilarity t1 t2 = jaccardSimilarity t2 t1.
Proof.
  intros t1 t2. unfold jaccardSimilarity. cbv zeta.
  now rewrite intersection_length_sym, union_length_sym.
Qed.

Lemma calculateTextSimilarity_sym : forall ext t1 t2,
  (forall x y, compareTwoStrings ext x y == compareTwoStrings ext y x) ->
  calculateTextSimilarity ext t1 t2 == calculateTextSimilarity ext t2 t1.
Proof.
  intros ext t1 t2 Hdice. unfold calculateTextSimilarity.
  destruct (Text.orElse t1 None) as [x|], (Text.orElse t2 None) as [y|];
    try reflexivity.
  cbv zeta. rewrite (orb_comm (String.length (normalizeText y) =? 0)%nat).
  destruct (_ || _)%bool; [reflexivity |].
  now rewrite jaccardSimilarity_sym, Hdice.
Qed.

Lemma calculateEntitySimilarity_sym : forall e1 e2,
  calculateEntitySimilarity e1 e2 = calculateEntitySimilarity e2 e1.
Proof.
  intros [|x e1] [|y e2]; try reflexivity.
  unfold calculateEntitySimilarity. cbv zeta.
  now rewrite intersection_length_sym, union_length_sym.
Qed.

Lemma calculateTemporalProximity_sym : forall d1 d2,
  calculateTemporalProximity d1 d2 = calculateTemporalProximity d2 d1.
Proof.
  intros d1 d2. unfold calculateTemporalProximity.
  replace (d2 - d1)%Z with (- (d1 - d2))%Z by lia. now rewrite Z.abs_opp.
Qed.

Lemma tagShare_sym : forall tags1 tags2, tagShare tags1 tags2 = tagShare tags2 tags1.
Proof.
  intros tags1 tags2. unfold tagShare. cbv zeta.
  rewrite (Nat.max_comm (List.length (Text.distinct tags2))).
  replace (tagOverlap (Text.distinct tags2) (Text.distinct tags1))
    with (tagOverlap (Text.distinct tags1) (Text.distinct tags2)); [reflexivity |].
  unfold tagOverlap. apply same_members_same_length;
    try (apply NoDup_filter, distinct_NoDup).
  intros x. rewrite !filter_In, !member_In. tauto.
Qed.

Lemma calculateSourceAlignment_sym : forall a1 a2,
  calculateSourceAlignment a1 a2 == calculateSourceAlignment a2 a1.
Proof.
  intros a1 a2. rewrite !sourceAlignment_formula.
  now rewrite (String.eqb_sym (source a2)), (String.eqb_sym (category a2)),
    (tagShare_sym (tags a2)).
Qed.

Lemma Qgtb_compat : forall x x' c, x == x' -> Qgtb x c = Qgtb x' c.
Proof.
  intros x x' c Heq. unfold Qgtb. f_equal.
  destruct (Qle_bool x c) eqn:H, (Qle_bool x' c) eqn:H'; try reflexivity.
  - apply Qle_bool_iff in H. rewrite Heq in H. apply Qle_bool_iff in H. congruence.
  - apply Qle_bool_iff in H'. rewrite <- Heq in H'. apply Qle_bool_iff in H'.
    congruence.
Qed.



End ScoreFacts.

(* ===================================================================== *)
(** * DeduplicationEngine: the queue worker *)
(* ===================================================================== *)

Section QueueFacts.

Import DeduplicationWorker.

(** The worker's [performDeduplication] does to the engine what the
    engine's own does; it leaves the queue alone, and counts an error
    exactly when it throws. *)
Lemma performDeduplication_refines : forall ext cfg now a w,
  match performDeduplication ext cfg now a w with
  | Returned w' _ =>
      DeduplicationEngine.performDeduplication ext cfg now a (engine w)
      = Returned (engine w') tt
      /\ processingQueue w' = processingQueue w
      /\ EngineStats.articlesProcessed (stats w')
         = EngineStats.articlesProcessed (stats w)
      /\ EngineStats.errors (stats w') = EngineStats.errors (stats w)
  | Thrown w' =>
      DeduplicationEngine.performDeduplication ext cfg now a (engine w)
      = Thrown (engine w')
      /\ processingQueue w' = processingQueue w
      /\ EngineStats.articlesProcessed (stats w')
         = EngineStats.articlesProcessed (stats w)
      /\ EngineStats.errors (stats w') = EngineStats.errors (stats w) + 1
  end.
Proof.
  intros ext cfg now a w.
  unfold performDeduplication, DeduplicationEngine.performDeduplication,
    tryCatch, bind, onEngine, onDb, DeduplicationEngine.getCandidateArticles.
  destruct (firstn 50 _) as [|c cs].
  - rewrite !markAsUnique_run. simpl. destruct (engine w); repeat split.
  - destruct (DeduplicationEngine.identifyDuplicates _ _) as [|d ds].
    + rewrite !markAsUnique_run. simpl. destruct (engine w); repeat split.
    + replace {| db := db (engine w); emitted := emitted (engine w) |}
        with (engine w) by (destruct (engine w); reflexivity).
      cbn [engine processingQueue stats].
      destruct (DeduplicationEngine.processDuplicates now a (d :: ds) (engine w))
        as [e' []|e']; simpl; repeat split.
Qed.

(** One item of a batch: it is counted as processed, or it is counted as
    two errors and queued again if it has had fewer than three retries. *)
Lemma processItem_run : forall ext cfg now item w,
  exists w' (failed : bool),
    processItem ext cfg now item w = Returned w' tt
    /\ processingQueue w'
       = processingQueue w ++ queuedAgain (if failed then [item] else [])
    /\ EngineStats.articlesProcessed (stats w') + (if failed then 1 else 0)
       = EngineStats.articlesProcessed (stats w) + 1
    /\ EngineStats.errors (stats w')
       = EngineStats.errors (stats w) + (if failed then 2 else 0).
Proof.
  intros ext cfg now item w.
  pose proof (performDeduplication_refines ext cfg now (QueueItem.article item) w) as H.
  unfold processItem, tryCatch, bind.
  destruct (performDeduplication ext cfg now (QueueItem.article item) w)
    as [w1 []|w1]; destruct H as (_ & Hq & Hp & He).
  - eexists. exists false. split; [reflexivity |]. simpl.
    rewrite Hq, Hp, He, app_nil_r. repeat split; lia.
  - unfold queuedAgain.
    destruct (QueueItem.retryCount item <? 3)%nat eqn:Hr;
      (eexists; exists true; split; [reflexivity |]); simpl;
      rewrite Hr; simpl; rewrite Hq, Hp, He, ?app_nil_r; repeat split; lia.
Qed.

Lemma queuedAgain_app : forall xs ys,
  queuedAgain (xs ++ ys) = queuedAgain xs ++ queuedAgain ys.
Proof. intros. unfold queuedAgain. now rewrite filter_app, map_app. Qed.

Lemma batch_loop : forall ext cfg clock batch i w,
  exists w' failedItems,
    forEach (fun entry => processItem ext cfg (clock (fst entry)) (snd entry))
            (combine (seq i (List.length batch)) batch) w
    = Returned w' tt
    /\ incl failedItems batch
    /\ List.length failedItems <= List.length batch
    /\ processingQueue w' = processingQueue w ++ queuedAgain failedItems
    /\ EngineStats.articlesProcessed (stats w') + List.length failedItems
       = EngineStats.articlesProcessed (stats w) + List.length batch
    /\ EngineStats.errors (stats w')
       = EngineStats.errors (stats w) + 2 * List.length failedItems.
Proof.
  intros ext cfg clock. induction batch as [|item batch IH]; intros i w.
  - exists w, []. simpl. rewrite app_nil_r.
    repeat split; try lia. intros x [].
  - destruct (processItem_run ext cfg (clock i) item w)
      as (w1 & failed & Hrun & Hq & Hp & He).
    destruct (IH (S i) w1) as (w' & rest & Hloop & Hincl & Hlen & Hq' & Hp' & He').
    exists w', ((if failed then [item] else []) ++ rest).
    split; [| split; [| split; [| split; [| split]]]].
    + simpl. unfold bind. simpl in Hrun. rewrite Hrun. exact Hloop.
    + intros x Hx. apply in_app_or in Hx as [Hx | Hx].
      * destruct failed; [| destruct Hx]. destruct Hx as [<- | []]. left. reflexivity.
      * right. now apply Hincl.
    + rewrite length_app. destruct failed; simpl; lia.
    + rewrite Hq', Hq, queuedAgain_app, app_assoc. reflexivity.
    + rewrite length_app. destruct failed; simpl in *; lia.
    + rewrite length_app. destruct failed; simpl in *; lia.
Qed.

(** X11. [processQueue] always returns.  It takes a batch of at most
    [batchSize] items off the front of the queue; each of them is either
    counted as processed or counted as two errors, and a failed item goes
    back to the end of the queue, with one more retry, only if it has had
    fewer than three. *)
Theorem processQueue_accounts : forall ext cfg clock w,
  let size := Nat.min (batchSize cfg) (List.length (processingQueue w)) in
  exists w' failedItems,
    processQueue ext cfg clock w = Returned w' tt
    /\ incl failedItems (firstn size (processingQueue w))
    /\ List.length failedItems <= size
    /\ processingQueue w'
       = skipn size (processingQueue w) ++ queuedAgain failedItems
    /\ EngineStats.articlesProcessed (stats w') + List.length failedItems
       = EngineStats.articlesProcessed (stats w) + size
    /\ EngineStats.errors (stats w')
       = EngineStats.errors (stats w) + 2 * List.length failedItems.
Proof.
  intros ext cfg clock w size. unfold processQueue.
  destruct (processingQueue w) as [|item queue] eqn:Hqueue.
  - exists w, []. unfold size. rewrite Nat.min_0_r. simpl. rewrite Hqueue.
    repeat split; try lia. intros x [].
  - fold size. set (batch := firstn size (item :: queue)).
    assert (Hsize : List.length batch = size).
    { unfold batch. rewrite length_firstn. unfold size. lia. }
    destruct (batch_loop ext cfg clock batch 0
                {| engine := engine w;
                   processingQueue := skipn size (item :: queue);
                   stats := stats w |})
      as (w' & failedItems & Hloop & Hincl & Hlen & Hq & Hp & He).
    cbn [engine processingQueue stats] in Hq, Hp, He.
    exists w', failedItems. unfold tryCatch. rewrite Hloop.
    rewrite Hsize in Hlen, Hp. repeat split; assumption.
Qed.

(** ** The queue empties *)

Lemma attemptsLeft_app : forall xs ys,
  attemptsLeft (xs ++ ys) = attemptsLeft xs + attemptsLeft ys.
Proof. intros. unfold attemptsLeft. now rewrite map_app, list_sum_app. Qed.

Lemma batch_progress : forall ext cfg clock batch i w,
  Forall (fun item => QueueItem.retryCount item <= 3) batch ->
  exists extra,
    processingQueue
      (finalState
         (forEach (fun entry => processItem ext cfg (clock (fst entry)) (snd entry))
                  (combine (seq i (List.length batch)) batch) w))
    = processingQueue w ++ extra
    /\ attemptsLeft extra + List.length batch <= attemptsLeft batch
    /\ Forall (fun item => QueueItem.retryCount item <= 3) extra.
Proof.
  intros ext cfg clock. induction batch as [|item batch IH]; intros i w Hall.
  - exists []. simpl. rewrite app_nil_r. repeat split; [lia | constructor].
  - inversion Hall as [|? ? Hitem Hrest]; subst.
    destruct (processItem_run ext cfg (clock i) item w)
      as (w1 & failed & Hrun & Hq & _ & _).
    destruct (IH (S i) w1 Hrest) as (extra & Hq' & Hleft & Hok).
    exists (queuedAgain (if failed then [item] else []) ++ extra).
    split; [| split].
    + simpl. unfold bind. simpl in Hrun. rewrite Hrun.
      rewrite Hq', Hq, app_assoc. reflexivity.
    + rewrite attemptsLeft_app.
      change (attemptsLeft (item :: batch))
        with (4 - QueueItem.retryCount item + attemptsLeft batch).
      assert (attemptsLeft (queuedAgain (if failed then [item] else [])) + 1
              <= 4 - QueueItem.retryCount item).
      { unfold queuedAgain, attemptsLeft.
        destruct failed; cbn [filter map list_sum fold_right]; [| lia].
        destruct (QueueItem.retryCount item <? 3)%nat eqn:Hr;
          cbn [filter map list_sum fold_right]; [| lia].
        apply Nat.ltb_lt in Hr. unfold retried. cbn [QueueItem.retryCount]. lia. }
      cbn [List.length]. lia.
    + apply Forall_app. split; [| exact Hok].
      destruct failed; [| constructor]. unfold queuedAgain. simpl.
      destruct (QueueItem.retryCount item <? 3)%nat eqn:Hr; simpl; [| constructor].
      apply Nat.ltb_lt in Hr. constructor; [simpl; lia | constructor].
Qed.

Lemma processQueue_progress : forall ext cfg clock w,
  1 <= batchSize cfg ->
  Forall (fun item => QueueItem.retryCount item <= 3) (processingQueue w) ->
  let queue' := processingQueue (finalState (processQueue ext cfg clock w)) in
  Forall (fun item => QueueItem.retryCount item <= 3) queue'
  /\ (processingQueue w = [] -> queue' = [])
  /\ (processingQueue w <> [] ->
      attemptsLeft queue' < attemptsLeft (processingQueue w)).
Proof.
  intros ext cfg clock w Hsize Hall queue'. unfold queue', processQueue.
  destruct (processingQueue w) as [|item queue] eqn:Hqueue.
  - simpl. rewrite Hqueue. repeat split; [constructor | congruence].
  - set (size := Nat.min (batchSize cfg) (List.length (item :: queue))).
    set (batch := firstn size (item :: queue)).
    assert (Hsplit : item :: queue = batch ++ skipn size (item :: queue))
      by (symmetry; apply firstn_skipn).
    assert (Hbatch : Forall (fun item => QueueItem.retryCount item <= 3) batch).
    { rewrite Hsplit in Hall. now apply Forall_app in Hall. }
    assert (Hrest : Forall (fun item => QueueItem.retryCount item <= 3)
                      (skipn size (item :: queue))).
    { rewrite Hsplit in Hall. now apply Forall_app in Hall. }
    assert (Hlen : 1 <= List.length batch).
    { unfold batch. rewrite length_firstn. unfold size. simpl List.length. lia. }
    destruct (batch_loop ext cfg clock batch 0
                {| engine := engine w;
                   processingQueue := skipn size (item :: queue);
                   stats := stats w |}) as (w' & failedItems & Hloop & _).
    destruct (batch_progress ext cfg clock batch 0
                {| engine := engine w;
                   processingQueue := skipn size (item :: queue);
                   stats := stats w |} Hbatch) as (extra & Hq & Hleft & Hok).
    unfold tryCatch. rewrite Hloop in Hq |- *. simpl in Hq |- *. rewrite Hq.
    split; [apply Forall_app; split; assumption |].
    split; [congruence |]. intros _.
    rewrite Hsplit at 2. rewrite !attemptsLeft_app. lia.
Qed.

Lemma attemptsLeft_zero : forall queue,
  Forall (fun item => QueueItem.retryCount item <= 3) queue ->
  attemptsLeft queue = 0 -> queue = [].
Proof.
  intros [|item queue] Hall H; [reflexivity |].
  inversion Hall; subst. unfold attemptsLeft in H.
  cbn [map list_sum fold_right] in H. lia.
Qed.

(** X12. A queue to which nothing is added empties: with a batch size of at
    least one and no item beyond its third retry, the queue is empty after
    as many runs of [processQueue] as there are attempts left, at most four
    for each item. *)
Theorem queue_drains : forall ext cfg clock k w,
  1 <= batchSize cfg ->
  Forall (fun item => QueueItem.retryCount item <= 3) (processingQueue w) ->
  attemptsLeft (processingQueue w) <= k ->
  processingQueue (runs ext cfg clock k w) = [].
Proof.
  intros ext cfg clock k. revert clock.
  induction k as [|k IH]; intros clock w Hsize Hall Hleft.
  - simpl. apply attemptsLeft_zero; [exact Hall | lia].
  - simpl.
    destruct (processQueue_progress ext cfg (clock 0) w Hsize Hall)
      as (Hall' & Hempty & Hless).
    apply IH; [exact Hsize | exact Hall' |].
    destruct (processingQueue w) as [|item queue] eqn:Hqueue.
    + rewrite Hempty by reflexivity. unfold attemptsLeft. simpl. lia.
    + assert (Hne : item :: queue <> []) by discriminate.
      specialize (Hless Hne). lia.
Qed.

Lemma queue_drains_witness :
  processingQueue
    (runs sha256Externals defaultConfig (fun r i => 1700001000000%Z) 4
       workerWithFollowUp) = [].
Proof.
  apply (queue_drains sha256Externals defaultConfig
           (fun r i => 1700001000000%Z) 4 workerWithFollowUp).
  - simpl. lia.
  - repeat constructor.
  - vm_compute. lia.
Defined.

(** An item that fails every time is given up after its fourth attempt.
    The second copy of [twinB] fails on the link that the first copy
    left behind; it is tried in four runs, counted as eight errors, and
    then it is gone from the queue. *)
Example failing_item_is_given_up :
  let clock := fun (r i : nat) => 1700001000000%Z in
  let after := fun k => runs sha256Externals defaultConfig clock k
                          workerWithTwinTwice in
  map QueueItem.retryCount (processingQueue (after 1)) = [1]
  /\ map QueueItem.retryCount (processingQueue (after 3)) = [3]
  /\ processingQueue (after 4) = []
  /\ EngineStats.articlesProcessed (stats (after 4)) = 1
  /\ EngineStats.errors (stats (after 4)) = 8.
Proof. vm_compute. repeat split; reflexivity. Qed.

End QueueFacts.

(* ===================================================================== *)
(** * AlertManager: cooldown, clean-up, counters and the queue *)
(* ===================================================================== *)

Section AlertFacts.

Import AlertManager.

Lemma mapSet_keeps : forall key value k v entries,
  In (k, v) entries ->
  In (k, v) (mapSet key value entries) \/ In (k, value) (mapSet key value entries).
Proof.
  intros key value k v entries. induction entries as [|[k' v'] rest IH]; simpl.
  - intros [].
  - intros [Heq | Hin].
    + injection Heq as -> ->. destruct (String.eqb k key) eqn:Hk.
      * apply String.eqb_eq in Hk. subst. right. now left.
      * left. now left.
    + destruct (String.eqb k' key).
      * left. now right.
      * destruct (IH Hin) as [H | H]; [left | right]; now right.
Qed.

(** The entry of an alert sent at [sentAt] stays in the history, with a
    time that is no earlier. *)
Lemma tracked_entry_stays : forall cfg deliver sentAt al m m',
  afterSending cfg sentAt (sendAlert deliver sentAt al m) m' ->
  exists ts, In (trackedKey al, ts) (alertHistory m') /\ (sentAt <= ts)%Z.
Proof.
  intros cfg deliver sentAt al m m' H.
  induction H as [| m' now alertId a H IH | m' deliver' now H IH Hnow
                  | m' now H IH Hnow].
  - exists sentAt. split; [| lia].
    unfold sendAlert, trackAlert. simpl. apply mapSet_has.
  - destruct IH as (ts & Hin & Hts). exists ts. split; [| exact Hts].
    unfold processAlert.
    destruct (shouldSendAlert cfg now a m') as [[|]|];
      [destruct (title a) | |]; exact Hin.
  - destruct IH as (ts & Hin & Hts). unfold processAlertQueue.
    destruct (alertQueue m') as [|next rest]; [exists ts; now split |].
    unfold sendAlert, trackAlert. cbn [alertHistory].
    match goal with
    | |- context [mapSet ?key now (alertHistory m')] =>
        destruct (mapSet_keeps key now _ _ _ Hin) as [Hkept | Hnew]
    end.
    + exists ts. now split.
    + exists now. now split.
  - destruct IH as (ts & Hin & Hts). exists ts. split; [| exact Hts].
    unfold cleanupAlertHistory. cbn [alertHistory].
    apply filter_In. split; [exact Hin |]. simpl.
    apply negb_true_iff, Z.ltb_ge. lia.
Qed.

(** X13. Once an alert has been sent, every article whose key occurs in the
    key the alert was tracked under is in cooldown until the cooldown period
    has passed, in every state the manager reaches by admissions, by later
    ticks of the queue worker and by clean-ups that run within 24 hours of
    the sending; among these articles are the ones with the title and the
    source of the alert.  No further alert is queued for such an article in
    that time.  (A clean-up that runs later than 24 hours after the sending
    drops the entry, whatever the cooldown period.) *)
Theorem sent_alert_starts_cooldown : forall cfg deliver sentAt al m m' now,
  (now - sentAt < cooldownPeriod cfg)%Z ->
  afterSending cfg sentAt (sendAlert deliver sentAt al m) m' ->
  isInCooldown cfg now (Alert.title al) (Alert.source al) m' = true
  /\ (forall t s,
        Text.includes (generateArticleKey t s) (trackedKey al) = true ->
        isInCooldown cfg now t s m' = true)
  /\ (forall a alertId,
        title a = Some (Alert.title al) -> source a = Alert.source al ->
        alertQueue (processAlert cfg now alertId a m') = alertQueue m').
Proof.
  intros cfg deliver sentAt al m m' now Hsoon Hafter.
  destruct (tracked_entry_stays _ _ _ _ _ _ Hafter) as (ts & Hin & Hts).
  assert (Hany : forall t s,
            Text.includes (generateArticleKey t s) (trackedKey al) = true ->
            isInCooldown cfg now t s m' = true).
  { intros t s Hinc. unfold isInCooldown. apply existsb_exists.
    exists (trackedKey al, ts). split; [exact Hin |]. simpl.
    rewrite Hinc. simpl. apply Z.ltb_lt. lia. }
  assert (Hown : isInCooldown cfg now (Alert.title al) (Alert.source al) m' = true).
  { apply Hany. apply includes_spec.
    exists (Alert.id al ++ "_")%string, EmptyString. unfold trackedKey.
    now rewrite append_nil_r, append_assoc. }
  split; [exact Hown |]. split; [exact Hany |].
  intros a alertId Ht Hs. unfold processAlert, shouldSendAlert.
  rewrite Ht, Hs, Hown.
  destruct (checkRateLimit cfg now m'); reflexivity.
Qed.

Lemma sent_alert_starts_cooldown_witness :
  let al := newAlert hourlyLimitOne firstAdmission "alert_1700000200000_k3x9q2m1a"
              "Acme to acquire Beta" earlierStored in
  let m' := cleanupAlertHistory 1700000260000%Z
              (processAlertQueue deliverAll 1700000210000%Z
                 (sendAlert deliverAll 1700000205000%Z al emptyManager)) in
  (1700000300000 - 1700000205000 < cooldownPeriod defaultConfig)%Z
  /\ isInCooldown defaultConfig 1700000300000%Z (Alert.title al) (Alert.source al) m'
     = true.
Proof.
  intros al m'. split; [reflexivity |].
  refine (proj1 (sent_alert_starts_cooldown defaultConfig deliverAll
                   1700000205000%Z al emptyManager m' 1700000300000%Z _ _)).
  - reflexivity.
  - apply after_cleanup; [| vm_compute; discriminate].
    apply after_tick; [| vm_compute; discriminate].
    apply after_sending.
Defined.

(** With a cooldown of 25 hours, the clean-up that runs 24 hours and one
    second after the sending drops the entry: the article is out of
    cooldown an hour before the period has passed. *)
Example long_cooldown_is_cut_short :
  let al := newAlert longCooldown firstAdmission "alert_1700000200000_k3x9q2m1a"
              "Acme to acquire Beta" earlierStored in
  let sentAt := 1700000205000%Z in
  let dayLater := (sentAt + 24 * 60 * 60 * 1000 + 1000)%Z in
  let m' := sendAlert deliverAll sentAt al emptyManager in
  (dayLater - sentAt < cooldownPeriod longCooldown)%Z
  /\ isInCooldown longCooldown dayLater (Alert.title al) (Alert.source al) m' = true
  /\ isInCooldown longCooldown dayLater (Alert.title al) (Alert.source al)
       (cleanupAlertHistory dayLater m') = false.
Proof. vm_compute. repeat split. Qed.

(** The key of a title in which no word has more than three characters is
    the source alone, and every key tracked for that source contains it:
    such an article is in cooldown after any alert of its source. *)
Example short_title_shares_the_cooldown :
  generateArticleKey "Oil up 5%" "Source A" = "Source A_"
  /\ isInCooldown defaultConfig 1700000300000%Z "Oil up 5%" "Source A"
       (processAlertQueue deliverAll 1700000205000%Z afterFirstAdmission) = true.
Proof. vm_compute. split; reflexivity. Qed.

Lemma filter_filter_length : forall (A : Type) (p q : A -> bool) (l : list A),
  (forall x, In x l -> p x = true -> q x = true) ->
  List.length (filter p (filter q l)) = List.length (filter p l).
Proof.
  intros A p q l H. induction l as [|x l IH]; [reflexivity |]. simpl.
  assert (IH' : List.length (filter p (filter q l)) = List.length (filter p l)).
  { apply IH. intros y Hy. apply H. now right. }
  destruct (p x) eqn:Hp.
  - rewrite (H x (or_introl eq_refl) Hp). simpl. rewrite Hp. simpl. now rewrite IH'.
  - destruct (q x); simpl; [rewrite Hp |]; exact IH'.
Qed.

Lemma existsb_filter : forall (A : Type) (p q : A -> bool) (l : list A),
  (forall x, In x l -> p x = true -> q x = true) ->
  existsb p (filter q l) = existsb p l.
Proof.
  intros A p q l H. induction l as [|x l IH]; [reflexivity |]. simpl.
  assert (IH' : existsb p (filter q l) = existsb p l).
  { apply IH. intros y Hy. apply H. now right. }
  destruct (p x) eqn:Hp.
  - rewrite (H x (or_introl eq_refl) Hp). simpl. now rewrite Hp.
  - destruct (q x); simpl; [rewrite Hp |]; exact IH'.
Qed.

(** X14. Cleaning up the history changes no admission decision, as long as
    the cooldown period is at most the 24 hours the clean-up keeps: for an
    admission at or after the clean-up, the rate limit, the cooldown and so
    [shouldSendAlert] give the same answer with and without it. *)
Theorem cleanup_changes_no_admission : forall cfg cleanedAt now a m,
  (cooldownMinutes cfg <= 24 * 60)%Z ->
  (cleanedAt <= now)%Z ->
  checkRateLimit cfg now (cleanupAlertHistory cleanedAt m) = checkRateLimit cfg now m
  /\ (forall t s, isInCooldown cfg now t s (cleanupAlertHistory cleanedAt m)
                  = isInCooldown cfg now t s m)
  /\ shouldSendAlert cfg now a (cleanupAlertHistory cleanedAt m)
     = shouldSendAlert cfg now a m.
Proof.
  intros cfg cleanedAt now a m Hcool Hlater.
  assert (Hrate : checkRateLimit cfg now (cleanupAlertHistory cleanedAt m)
                  = checkRateLimit cfg now m).
  { unfold checkRateLimit, recentAlerts, cleanupAlertHistory. simpl.
    rewrite filter_filter_length; [reflexivity |].
    intros [k ts] _ Hrecent. simpl in *.
    apply Z.ltb_lt in Hrecent. apply negb_true_iff, Z.ltb_ge. lia. }
  assert (Hcold : forall t s,
            isInCooldown cfg now t s (cleanupAlertHistory cleanedAt m)
            = isInCooldown cfg now t s m).
  { intros t s. unfold isInCooldown, cleanupAlertHistory. simpl.
    apply existsb_filter. intros [k ts] _ Hhit. simpl in *.
    apply andb_true_iff in Hhit as [_ Hhit]. apply Z.ltb_lt in Hhit.
    unfold cooldownPeriod in Hhit. apply negb_true_iff, Z.ltb_ge. lia. }
  split; [exact Hrate |]. split; [exact Hcold |].
  unfold shouldSendAlert. rewrite Hrate.
  destruct (title a) as [t|]; [| reflexivity]. now rewrite Hcold.
Qed.

Lemma cleanup_changes_no_admission_witness :
  shouldSendAlert defaultConfig 1700090000000%Z laterStored
    (cleanupAlertHistory 1700090000000%Z afterBothSent)
  = shouldSendAlert defaultConfig 1700090000000%Z laterStored afterBothSent.
Proof.
  apply (cleanup_changes_no_admission defaultConfig 1700090000000%Z
           1700090000000%Z laterStored afterBothSent); vm_compute; discriminate.
Defined.

(** ** What one dispatch leaves behind *)

Lemma mapSet_length : forall key value entries,
  List.length (mapSet key value entries) <= S (List.length entries).
Proof.
  intros key value entries. induction entries as [|[k v] rest IH]; simpl; [lia |].
  destruct (String.eqb k key); simpl; lia.
Qed.

Lemma some_passed : forall (A B : Type) (p : B -> bool) (f : A -> B) (l : list A),
  (0 <? List.length (filter p (map f l)))%nat = existsb (fun x => p (f x)) l.
Proof.
  intros A B p f l. induction l as [|x l IH]; [reflexivity |]. simpl.
  destruct (p (f x)); simpl; [reflexivity | exact IH].
Qed.

(** X15. [sendAlert] counts the alert as successful exactly when a channel
    delivered, and as failed otherwise: exactly one of the two counters
    grows by one, and [lastAlertSent] moves to the time of sending only on
    success.  So an alert without channels counts as failed, and one with
    the e-mail channel, which is a stub, as successful.  Whatever the
    outcome, the alert is tracked in the history and counts against the
    hourly limit from then on; the queue and [totalAlerts] are left as
    they are. *)
Theorem sendAlert_outcome : forall deliver now al m,
  let m' := sendAlert deliver now al m in
  let delivered :=
    existsb (fun c => success (sendVia deliver al c)) (Alert.channels al) in
  successfulAlerts m' = (if delivered then S (successfulAlerts m)
                         else successfulAlerts m)
  /\ failedAlerts m' = (if delivered then failedAlerts m else S (failedAlerts m))
  /\ lastAlertSent m' = (if delivered then Some now else lastAlertSent m)
  /\ (Alert.channels al = [] -> delivered = false)
  /\ (In email (Alert.channels al) -> delivered = true)
  /\ In (trackedKey al, now) (alertHistory m')
  /\ 1 <= recentAlerts now (alertHistory m')
  /\ alertQueue m' = alertQueue m
  /\ totalAlerts m' = totalAlerts m.
Proof.
  intros deliver now al m m' delivered.
  assert (Hok : (0 <? List.length
                        (filter success (map (sendVia deliver al) (Alert.channels al))))%nat
                = delivered).
  { apply some_passed. }
  assert (Hin : In (trackedKey al, now) (alertHistory m')).
  { unfold m', sendAlert, trackAlert. simpl. apply mapSet_has. }
  assert (Hone : 1 <= recentAlerts now (alertHistory m')).
  { unfold recentAlerts.
    assert (Hrecent : In (trackedKey al, now)
                        (filter (fun entry => (now - 60 * 60 * 1000 <? snd entry)%Z)
                                (alertHistory m'))).
    { apply filter_In. split; [exact Hin |]. simpl. apply Z.ltb_lt. lia. }
    destruct (filter _ (alertHistory m')); [destruct Hrecent | simpl; lia]. }
  unfold m', sendAlert.
  cbn [successfulAlerts failedAlerts lastAlertSent alertQueue totalAlerts].
  rewrite Hok.
  split; [destruct delivered; [apply Nat.add_1_r | reflexivity] |].
  split; [destruct delivered; [reflexivity | apply Nat.add_1_r] |].
  split; [reflexivity |].
  split; [| split; [| split; [exact Hin | split; [exact Hone | split; reflexivity]]]].
  - intros Hnone. unfold delivered. rewrite Hnone. reflexivity.
  - intros Hemail. apply existsb_exists. exists email.
    split; [exact Hemail | reflexivity].
Qed.

(** ** The counters *)

(** X16. The queue worker dispatches one alert at a time.  In every state
    the manager reaches by admissions, completed ticks of the queue worker
    and clean-ups, the counters add up: every alert counted in
    [totalAlerts] is either still queued, with status [pending] and no time
    of sending, or has been dispatched and counted once, in
    [successfulAlerts] or in [failedAlerts]; the history holds at most one
    entry for each dispatched alert; and [lastAlertSent] is set only when
    an alert has been counted as successful. *)
Theorem alert_counters_add_up : forall cfg m,
  managed cfg m ->
  totalAlerts m = List.length (alertQueue m) + successfulAlerts m + failedAlerts m
  /\ List.length (alertHistory m) <= successfulAlerts m + failedAlerts m
  /\ Forall (fun al => Alert.status al = pending /\ Alert.sentAt al = None)
            (alertQueue m)
  /\ (lastAlertSent m <> None -> 1 <= successfulAlerts m).
Proof.
  intros cfg m H. induction H as [| m now alertId a H IH | m deliver now H IH | m now H IH].
  - simpl. repeat split; try lia; try constructor. intros Hlast. now elim Hlast.
  - destruct IH as (Htotal & Hhist & Hqueue & Hlast).
    unfold processAlert.
    destruct (shouldSendAlert cfg now a m) as [[|]|]; [destruct (title a) as [t|] | |];
      simpl; try (repeat split; assumption).
    rewrite length_app. simpl. repeat split; try assumption; try lia.
    apply Forall_app. split; [exact Hqueue | repeat constructor].
  - destruct IH as (Htotal & Hhist & Hqueue & Hlast).
    unfold processAlertQueue.
    destruct (alertQueue m) as [|al rest] eqn:Hq;
      [rewrite Hq; repeat split; assumption |].
    inversion Hqueue as [|? ? Hal Hrest]; subst.
    unfold sendAlert. cbn [alertQueue alertHistory totalAlerts
                            successfulAlerts failedAlerts lastAlertSent].
    pose proof (mapSet_length
                  (Alert.id al ++ "_" ++ generateArticleKey (Alert.title al) (Alert.source al))
                  now (alertHistory m)) as Hset.
    unfold trackAlert. cbn [Alert.id Alert.title Alert.source dispatched].
    simpl List.length in *.
    destruct (0 <? _)%nat;
      (split; [lia |]; split; [lia |]; split; [exact Hrest |]).
    + intros _. lia.
    + intros Hset'. specialize (Hlast Hset'). lia.
  - destruct IH as (Htotal & Hhist & Hqueue & Hlast).
    unfold cleanupAlertHistory.
    cbn [alertQueue alertHistory totalAlerts successfulAlerts failedAlerts
         lastAlertSent].
    repeat split; try assumption.
    match goal with
    | |- context [filter ?p (alertHistory m)] =>
        pose proof (filter_length_le _ p (alertHistory m))
    end. lia.
Qed.

Lemma alert_counters_add_up_witness :
  managed hourlyLimitOne afterBothSent
  /\ totalAlerts afterBothSent
     = List.length (alertQueue afterBothSent)
       + successfulAlerts afterBothSent + failedAlerts afterBothSent.
Proof.
  assert (H : managed hourlyLimitOne afterBothSent)
    by exact (managed_tick _ _ _ _
                (managed_tick _ _ _ _
                   (managed_admit _ _ _ _ _
                      (managed_admit _ _ _ _ _ (managed_start _))))).
  split; [exact H |].
  exact (proj1 (alert_counters_add_up hourlyLimitOne afterBothSent H)).
Defined.

(** ** The quality gate *)

(** X17. An article with a body of at most 200 characters, no entities and
    a category other than business, technology and breaking never raises an
    alert: a trusted source and a recent date earn two points, one short of
    the three the gate asks for.  [processAlert] leaves the queue as it is
    for such an article, whatever the state of the manager. *)
Theorem thin_article_raises_no_alert : forall cfg now alertId a m,
  isThin a ->
  meetsQualityThreshold now a = false
  /\ alertQueue (processAlert cfg now alertId a m) = alertQueue m.
Proof.
  intros cfg now alertId a m (Hbody & Hent & Hcat).
  assert (Hq : meetsQualityThreshold now a = false).
  { unfold meetsQualityThreshold. cbv zeta. rewrite Hent, Hcat.
    assert (H5 : (500 <? bodyLength a)%nat = false) by (apply Nat.ltb_ge; lia).
    assert (H2 : (200 <? bodyLength a)%nat = false) by (apply Nat.ltb_ge; lia).
    rewrite H5, H2.
    destruct (Text.member (source a) _), (Qltb _ _); reflexivity. }
  split; [exact Hq |].
  unfold processAlert, shouldSendAlert. rewrite Hq.
  destruct (checkRateLimit cfg now m); [| reflexivity].
  destruct (title a) as [t|]; [| reflexivity].
  destruct (isInCooldown cfg now t (source a) m); reflexivity.
Qed.

Lemma thin_article_raises_no_alert_witness :
  isThin shortNote
  /\ alertQueue (processAlert defaultConfig 1700000100000%Z "alert_1" shortNote
                   emptyManager) = [].
Proof.
  assert (H : isThin shortNote) by (repeat split; vm_compute; lia).
  split; [exact H |].
  exact (proj2 (thin_article_raises_no_alert defaultConfig 1700000100000%Z
                  "alert_1" shortNote emptyManager H)).
Defined.

End AlertFacts.

(* ===================================================================== *)
(** * VectorSimilarity: the cache key, the cache and the truncation *)
(* ===================================================================== *)

Section CacheFacts.

Import VectorSimilarity.

Local Open Scope Z_scope.

Lemma toInt32_shift : forall n, exists k, toInt32 n = n + k * 2 ^ 32.
Proof.
  intros n. exists (- ((n + 2 ^ 31) / 2 ^ 32)). unfold toInt32.
  pose proof (Z.div_mod (n + 2 ^ 31) (2 ^ 32)) as H.
  assert (Hne : 2 ^ 32 <> 0) by (vm_compute; discriminate).
  specialize (H Hne). lia.
Qed.

Lemma toInt32_congruent : forall n m k, n = m + k * 2 ^ 32 -> toInt32 n = toInt32 m.
Proof.
  intros n m k ->. unfold toInt32.
  replace (m + k * 2 ^ 32 + 2 ^ 31) with (m + 2 ^ 31 + k * 2 ^ 32) by lia.
  now rewrite Z_mod_plus_full.
Qed.

Lemma toInt32_range : forall n, - 2 ^ 31 <= toInt32 n < 2 ^ 31.
Proof.
  intros n. unfold toInt32.
  assert (Hpos : 0 < 2 ^ 32) by (vm_compute; reflexivity).
  pose proof (Z.mod_pos_bound (n + 2 ^ 31) (2 ^ 32) Hpos) as H.
  change (2 ^ 32) with (2 * 2 ^ 31) in *. lia.
Qed.

Lemma hashStep_polynomial : forall p c,
  hashStep (toInt32 p) c = toInt32 (31 * p + Z.of_nat (Text.code c)).
Proof.
  intros p c. unfold hashStep. rewrite Z.shiftl_mul_pow2 by lia.
  destruct (toInt32_shift p) as [k Hk].
  destruct (toInt32_shift (toInt32 p * 2 ^ 5)) as [j Hj].
  apply (toInt32_congruent _ _ (j + 31 * k)). rewrite Hj, Hk.
  change (2 ^ 5) with 32. lia.
Qed.

Lemma key_is_polynomial : forall l p,
  fold_left hashStep l (toInt32 p)
  = toInt32 (fold_left (fun h c => 31 * h + Z.of_nat (Text.code c)) l p).
Proof.
  induction l as [|c l IH]; intros p; simpl; [reflexivity |].
  rewrite hashStep_polynomial. apply IH.
Qed.

(** X19. The cache key of a text is the polynomial in 31 of its code
    points, read as a signed 32-bit integer: the key of a text takes one of
    2^32 values, whatever the length of the text. *)
Theorem generateCacheKey_polynomial : forall text,
  generateCacheKey text = toInt32 (polynomial31 text)
  /\ - 2 ^ 31 <= generateCacheKey text < 2 ^ 31.
Proof.
  intros text.
  assert (H : generateCacheKey text = toInt32 (polynomial31 text)).
  { unfold generateCacheKey, polynomial31.
    change 0 with (toInt32 0) at 1. apply key_is_polynomial. }
  split; [exact H |]. rewrite H. apply toInt32_range.
Qed.

Lemma list_ascii_of_string_app : forall x y,
  list_ascii_of_string (x ++ y)
  = (list_ascii_of_string x ++ list_ascii_of_string y)%list.
Proof. induction x as [|c x IH]; intros y; simpl; [| rewrite IH]; reflexivity. Qed.

(** Two texts that differ in one place, ["Aa"] against ["BB"], have the
    same key. *)
Lemma generateCacheKey_collides : forall x y,
  generateCacheKey (x ++ "Aa" ++ y) = generateCacheKey (x ++ "BB" ++ y).
Proof.
  intros x y.
  rewrite (proj1 (generateCacheKey_polynomial _)).
  rewrite (proj1 (generateCacheKey_polynomial (x ++ "BB" ++ y))).
  f_equal. unfold polynomial31.
  rewrite !list_ascii_of_string_app, !fold_left_app. f_equal.
  set (h := fold_left _ (list_ascii_of_string x) 0). clearbody h.
  cbn [list_ascii_of_string fold_left].
  change (Z.of_nat (Text.code "A"%char)) with 65.
  change (Z.of_nat (Text.code "a"%char)) with 97.
  change (Z.of_nat (Text.code "B"%char)) with 66. lia.
Qed.

Lemma cacheGet_cacheSet : forall key embedding cache,
  cacheGet key (cacheSet key embedding cache) = Some embedding.
Proof.
  intros key embedding. induction cache as [|[k v] rest IH]; simpl.
  - now rewrite Z.eqb_refl.
  - destruct (k =? key) eqn:Hk; simpl; [now rewrite Z.eqb_refl | now rewrite Hk].
Qed.

Lemma cacheSet_keys : forall key embedding cache,
  map fst (cacheSet key embedding cache) = map fst cache
  \/ (~ In key (map fst cache)
      /\ map fst (cacheSet key embedding cache) = (map fst cache ++ [key])%list).
Proof.
  intros key embedding. induction cache as [|[k v] rest IH]; simpl.
  - right. split; [tauto | reflexivity].
  - destruct (k =? key) eqn:Hk; simpl.
    + apply Z.eqb_eq in Hk. subst k. left. reflexivity.
    + apply Z.eqb_neq in Hk. destruct IH as [-> | [Hnot ->]].
      * left. reflexivity.
      * right. split; [| reflexivity]. intros [H | H]; [congruence | contradiction].
Qed.

Lemma cacheEmbedding_ok : forall key embedding cache,
  cacheOk cache -> cacheOk (cacheEmbedding key embedding cache).
Proof.
  intros key embedding cache [Hlen Hkeys]. unfold cacheEmbedding, cacheOk in *.
  match goal with
  | |- context [cacheSet key embedding ?k] => set (kept := k)
  end.
  assert (Hkept : (List.length kept < maxCacheSize)%nat /\ NoDup (map fst kept)).
  { unfold kept. destruct (maxCacheSize <=? List.length cache)%nat eqn:Hfull.
    - apply Nat.leb_le in Hfull. destruct cache as [|entry cache]; simpl in *.
      + unfold maxCacheSize in Hfull. lia.
      + split; [lia | now inversion Hkeys].
    - apply Nat.leb_gt in Hfull. split; assumption. }
  destruct Hkept as [Hroom Hdistinct].
  destruct (cacheSet_keys key embedding kept) as [Hsame | [Hnew Hsnoc]].
  - split; [| now rewrite Hsame].
    rewrite <- (length_map fst (cacheSet key embedding kept)), Hsame, length_map. lia.
  - split.
    + rewrite <- (length_map fst (cacheSet key embedding kept)), Hsnoc,
        length_app, length_map. simpl. lia.
    + rewrite Hsnoc. now apply NoDup_snoc.
Qed.

(** X20. The embedding cache never holds more than [maxCacheSize] entries,
    and never two for one key.  A text whose key is in the cache is given
    the cached embedding, and the cache is left as it is; when the cache is
    written, the embedding returned is the one found under the key of the
    text afterwards. *)
Theorem embedding_cache_stays_bounded : forall providers dimension text cache,
  cacheOk cache ->
  let cache' := fst (generateEmbedding providers dimension text cache) in
  let result := snd (generateEmbedding providers dimension text cache) in
  cacheOk cache'
  /\ (forall embedding,
        text <> EmptyString ->
        cacheGet (generateCacheKey text) cache = Some embedding ->
        cache' = cache /\ result = Some embedding)
  /\ (cache' <> cache -> cacheGet (generateCacheKey text) cache' = result).
Proof.
  intros providers dimension text cache Hok cache' result.
  unfold cache', result, generateEmbedding.
  destruct text as [|c text].
  { simpl. split; [exact Hok |]. split; [intros e Hne; congruence | congruence]. }
  set (key := generateCacheKey (String c text)).
  destruct (cacheGet key cache) as [cached|] eqn:Hhit.
  - simpl. split; [exact Hok |]. split; [| congruence].
    intros embedding _ Heq. injection Heq as <-. split; reflexivity.
  - match goal with
    | |- context [match ?r with Threw => _ | Gave _ => _ end] =>
        destruct r as [|[embedding|]]
    end; simpl.
    + split; [exact Hok |]. split; [discriminate | congruence].
    + split; [now apply cacheEmbedding_ok |]. split; [discriminate |].
      intros _. unfold cacheEmbedding. apply cacheGet_cacheSet.
    + split; [exact Hok |]. split; [discriminate | congruence].
Qed.

Lemma embedding_cache_stays_bounded_witness :
  cacheOk (fst (generateEmbedding noProviders 4 "Aa" [])).
Proof.
  apply (embedding_cache_stays_bounded noProviders 4 "Aa" []).
  split; [unfold maxCacheSize; simpl; lia | constructor].
Defined.

Lemma generateEmbedding_mock : forall dimension c text cache,
  generateEmbedding noProviders dimension (String c text) cache
  = match cacheGet (generateCacheKey (String c text)) cache with
    | Some embedding => (cache, Some embedding)
    | None =>
        (cacheEmbedding (generateCacheKey (String c text))
           (Vector.generateMockEmbedding dimension (String c text)) cache,
         Some (Vector.generateMockEmbedding dimension (String c text)))
    end.
Proof. reflexivity. Qed.

(** X21. Two texts with the same cache key share one embedding: in a
    deployment without providers, a text that is embedded after another
    text with its key is given the embedding of that other text. *)
Theorem colliding_texts_share_an_embedding : forall dimension text1 text2 cache,
  text1 <> EmptyString -> text2 <> EmptyString ->
  generateCacheKey text1 = generateCacheKey text2 ->
  snd (generateEmbedding noProviders dimension text2
         (fst (generateEmbedding noProviders dimension text1 cache)))
  = snd (generateEmbedding noProviders dimension text1 cache).
Proof.
  intros dimension text1 text2 cache H1 H2 Hkey.
  destruct text1 as [|c1 text1]; [congruence |].
  destruct text2 as [|c2 text2]; [congruence |].
  rewrite !generateEmbedding_mock, <- Hkey.
  set (key := generateCacheKey (String c1 text1)).
  destruct (cacheGet key cache) as [cached|] eqn:Hhit; cbn [fst snd].
  - now rewrite Hhit.
  - unfold cacheEmbedding. now rewrite cacheGet_cacheSet.
Qed.

Lemma colliding_texts_share_an_embedding_witness :
  snd (generateEmbedding noProviders 4 "BB"
         (fst (generateEmbedding noProviders 4 "Aa" [])))
  = snd (generateEmbedding noProviders 4 "Aa" []).
Proof.
  apply (colliding_texts_share_an_embedding 4 "Aa" "BB" []);
    try discriminate.
  exact (generateCacheKey_collides "" "").
Defined.

End CacheFacts.

(* ===================================================================== *)
(** * VectorSimilarity: the text sent to a provider *)
(* ===================================================================== *)

Section TruncationFacts.

Import VectorSimilarity.

Lemma above_four_fifths : forall a b : nat,
  Qgtb (ofNat b) (ofNat a * 0.8)%Q = true -> 4 * a < 5 * b.
Proof.
  intros a b H. apply Qgtb_true in H. unfold Qlt, ofNat in H. simpl in H. lia.
Qed.

(** X22. [truncateText] returns a prefix of the text that is never longer
    than [maxLength].  A text within the limit is returned whole.  A longer
    text keeps more than four fifths of the limit: it is cut at the limit,
    or before the last space in front of the limit when more than four
    fifths of the limit lie before that space. *)
Theorem truncateText_keeps_most : forall text maxLength,
  let result := truncateText text maxLength in
  result = substring 0 (String.length result) text
  /\ String.length result <= maxLength
  /\ (if (String.length text <=? maxLength)%nat
      then result = text
      else 4 * maxLength <= 5 * String.length result
           /\ (String.length result = maxLength
               \/ String.get (String.length result) text = Some " "%char)).
Proof.
  intros text maxLength result. unfold result, truncateText.
  destruct (String.length text <=? maxLength)%nat eqn:Hshort.
  - apply Nat.leb_le in Hshort.
    split; [now rewrite prefix_all | split; [exact Hshort | reflexivity]].
  - apply Nat.leb_gt in Hshort.
    assert (Hcut : String.length (substring 0 maxLength text) = maxLength)
      by (rewrite length_prefix; lia).
    assert (Hwhole : substring 0 maxLength text
                     = substring 0 (String.length (substring 0 maxLength text)) text
                     /\ String.length (substring 0 maxLength text) <= maxLength
                     /\ 4 * maxLength <= 5 * String.length (substring 0 maxLength text)
                        /\ (String.length (substring 0 maxLength text) = maxLength
                            \/ String.get (String.length (substring 0 maxLength text)) text
                               = Some " "%char)).
    { rewrite Hcut. split; [reflexivity |]. split; [lia |]. split; [lia |].
      now left. }
    destruct (NewsProcessor.lastIndexOf " "%char (substring 0 maxLength text))
      as [lastSpace|] eqn:Hlast; [| exact Hwhole].
    destruct (Qgtb (ofNat lastSpace) (ofNat maxLength * 0.8)%Q) eqn:Hfar;
      [| exact Hwhole].
    apply above_four_fifths in Hfar.
    destruct (lastIndexOf_get _ _ _ Hlast) as [Hget Hlt]. rewrite Hcut in Hlt.
    rewrite prefix_prefix by lia.
    assert (Hlen : String.length (substring 0 lastSpace text) = lastSpace)
      by (rewrite length_prefix; lia).
    rewrite Hlen. split; [reflexivity |]. split; [lia |]. split; [lia |]. right.
    rewrite <- Hget. rewrite (substring_correct1 text 0 maxLength lastSpace) by lia.
    f_equal. lia.
Qed.

End TruncationFacts.

(* ===================================================================== *)
(** * VectorSimilarity: distances and clusters *)
(* ===================================================================== *)

Section GeometryFacts.

Import VectorSimilarity.

(** ** Distances *)

Lemma sumOver_NaN : forall term a b, sumOver term a b Double.NaN = Double.NaN.
Proof.
  intros term. induction a as [|x a IH]; intros b; simpl; [reflexivity |].
  apply IH.
Qed.

Lemma sumOver_short : forall term a b sum,
  (forall x, term x Double.NaN = Double.NaN) ->
  (List.length b < List.length a)%nat ->
  sumOver term a b sum = Double.NaN.
Proof.
  intros term. induction a as [|x a IH]; intros b sum Hterm Hlt; simpl in *;
    [lia |].
  destruct b as [|y b]; simpl.
  - rewrite Hterm, add_NaN_r. apply sumOver_NaN.
  - apply IH; [exact Hterm | simpl in Hlt; lia].
Qed.

Lemma sumOver_extended : forall term a b extra sum,
  (List.length a <= List.length b)%nat ->
  sumOver term a (b ++ extra) sum = sumOver term a b sum.
Proof.
  intros term. induction a as [|x a IH]; intros b extra sum Hle; simpl;
    [reflexivity |].
  destruct b as [|y b]; simpl in *; [lia |].
  apply IH. lia.
Qed.

(** X24. The loops of the two distances run over the components of the
    first vector only.  When the second vector is shorter, the missing
    components make both distances NaN, and no error is raised; when it is
    longer, the components beyond the length of the first vector are not
    read, so that a vector has the same distances to a vector and to any
    extension of it. *)
Theorem distances_over_the_first_vector : forall a b,
  ((List.length b < List.length a)%nat ->
   euclideanDistance a b = Double.NaN /\ manhattanDistance a b = Double.NaN)
  /\ ((List.length a <= List.length b)%nat ->
      forall extra,
        euclideanDistance a (b ++ extra) = euclideanDistance a b
        /\ manhattanDistance a (b ++ extra) = manhattanDistance a b).
Proof.
  intros a b. unfold euclideanDistance, manhattanDistance. split.
  - intros Hlt. split.
    + rewrite sumOver_short; [reflexivity | | exact Hlt].
      intros x. cbv zeta. now rewrite sub_NaN_r.
    + apply sumOver_short; [| exact Hlt].
      intros x. now rewrite sub_NaN_r.
  - intros Hle extra. split; now rewrite sumOver_extended.
Qed.

(** ** Clusters *)

Lemma bestClusterFrom_range : forall vector centroids i best s,
  bestClusterFrom vector centroids i best s = best
  \/ (i <= bestClusterFrom vector centroids i best s < i + List.length centroids)%nat.
Proof.
  intros vector. induction centroids as [|c cs IH]; intros i best s; simpl.
  - left. reflexivity.
  - destruct (Double.gtb (cosineSimilarity vector c) s).
    + right. destruct (IH (S i) i (cosineSimilarity vector c)) as [-> | H]; lia.
    + destruct (IH (S i) best s) as [-> | H]; [left; reflexivity | right; lia].
Qed.

(** The loop keeps the greatest similarity met so far, and the first
    centroid that has it. *)
Lemma bestClusterFrom_greatest : forall vector centroids i best s,
  Double.isNaN s = false ->
  let chosen := bestClusterFrom vector centroids i best s in
  exists top,
    Double.leb s top = true
    /\ (chosen = best /\ top = s
        \/ exists c, nth_error centroids (chosen - i) = Some c
                     /\ (i <= chosen)%nat
                     /\ cosineSimilarity vector c = top)
    /\ forall j c,
         nth_error centroids j = Some c ->
         Double.gtb (cosineSimilarity vector c) top = false.
Proof.
  intros vector. induction centroids as [|c cs IH]; intros i best s Hs chosen.
  - exists s. split; [now apply leb_reflexive |].
    split; [left; split; reflexivity |].
    intros [|j] c H; discriminate H.
  - unfold chosen. simpl. unfold Double.gtb.
    destruct (Double.ltb s (cosineSimilarity vector c)) eqn:Hgt.
    + destruct (IH (S i) i (cosineSimilarity vector c) (ltb_numbers _ _ Hgt))
        as (top & Htop & Hwhere & Hall).
      exists top. split; [eapply leb_trans; [apply ltb_leb; exact Hgt | exact Htop] |].
      split.
      * right. destruct Hwhere as [[-> ->] | (c' & Hnth & Hi & Hcos)].
        -- exists c. rewrite Nat.sub_diag. repeat split. lia.
        -- exists c'.
           replace (bestClusterFrom vector cs (S i) i (cosineSimilarity vector c) - i)%nat
             with (S (bestClusterFrom vector cs (S i) i (cosineSimilarity vector c) - S i))
             by lia.
           repeat split; [exact Hnth | lia | exact Hcos].
      * intros [|j] c' Hnth.
        -- injection Hnth as <-. now apply leb_ltb_false.
        -- exact (Hall j c' Hnth).
    + destruct (IH (S i) best s Hs) as (top & Htop & Hwhere & Hall).
      exists top. split; [exact Htop |]. split.
      * destruct Hwhere as [[-> ->] | (c' & Hnth & Hi & Hcos)].
        -- left. split; reflexivity.
        -- right. exists c'.
           replace (bestClusterFrom vector cs (S i) best s - i)%nat
             with (S (bestClusterFrom vector cs (S i) best s - S i)) by lia.
           repeat split; [exact Hnth | lia | exact Hcos].
      * intros [|j] c' Hnth.
        -- injection Hnth as <-. eapply ltb_false_leb_above; eassumption.
        -- exact (Hall j c' Hnth).
Qed.

Lemma pushTo_some : forall i vector clusters,
  (i < List.length clusters)%nat ->
  exists clusters', pushTo i vector clusters = Some clusters'.
Proof.
  induction i as [|i IH]; intros vector [|vs rest] Hlt; simpl in *; try lia.
  - eexists. reflexivity.
  - destruct (IH vector rest) as [rest' ->]; [lia |]. eexists. reflexivity.
Qed.

Lemma pushTo_spec : forall i vector clusters clusters',
  pushTo i vector clusters = Some clusters' ->
  List.length clusters' = List.length clusters
  /\ Permutation (List.concat clusters') (vector :: List.concat clusters)
  /\ forall j cluster' v,
       nth_error clusters' j = Some cluster' -> In v cluster' ->
       (j = i /\ v = vector)
       \/ exists cluster, nth_error clusters j = Some cluster /\ In v cluster.
Proof.
  induction i as [|i IH]; intros vector [|vs rest] clusters' H; simpl in H;
    try discriminate.
  - injection H as <-. split; [reflexivity |]. split.
    + simpl. rewrite <- app_assoc. simpl.
      apply Permutation_sym, Permutation_middle.
    + intros [|j] cluster' v Hnth Hin.
      * injection Hnth as <-. apply in_app_or in Hin as [Hin | [<- | []]].
        -- right. exists vs. split; [reflexivity | exact Hin].
        -- left. split; reflexivity.
      * right. exists cluster'. split; [exact Hnth | exact Hin].
  - destruct (pushTo i vector rest) as [rest'|] eqn:Hrest; [| discriminate].
    injection H as <-. destruct (IH vector rest rest' Hrest) as (Hlen & Hperm & Hin).
    split; [simpl; now rewrite Hlen |]. split.
    + simpl. rewrite Hperm. apply Permutation_sym, Permutation_middle.
    + intros [|j] cluster' v Hnth Hv.
      * right. exists cluster'. split; [exact Hnth | exact Hv].
      * destruct (Hin j cluster' v Hnth Hv) as [[-> ->] | (cluster & Hc & Hvc)].
        -- left. split; reflexivity.
        -- right. exists cluster. split; [exact Hc | exact Hvc].
Qed.

Lemma assignFrom_spec : forall vectors centroids clusters,
  centroids <> [] ->
  List.length clusters = List.length centroids ->
  exists clusters',
    assignFrom vectors centroids clusters = Some clusters'
    /\ List.length clusters' = List.length centroids
    /\ Permutation (List.concat clusters') (List.concat clusters ++ vectors)
    /\ forall j cluster' v,
         nth_error clusters' j = Some cluster' -> In v cluster' ->
         nearest v centroids = j
         \/ exists cluster, nth_error clusters j = Some cluster /\ In v cluster.
Proof.
  induction vectors as [|vector vectors IH]; intros centroids clusters Hne Hlen.
  - exists clusters. simpl. rewrite app_nil_r.
    split; [reflexivity |]. split; [exact Hlen |]. split; [apply Permutation_refl |].
    intros j cluster' v Hnth Hin. right. exists cluster'. split; assumption.
  - cbn [assignFrom].
    assert (Hbest : (bestClusterFrom vector centroids 0 0 (Double.ofZ (-1))
                     < List.length clusters)%nat).
    { rewrite Hlen. destruct centroids as [|c cs]; [congruence |].
      destruct (bestClusterFrom_range vector (c :: cs) 0 0 (Double.ofZ (-1)))
        as [-> | H]; simpl in *; lia. }
    destruct (pushTo_some _ vector clusters Hbest) as [clusters1 Hpush].
    rewrite Hpush.
    destruct (pushTo_spec _ _ _ _ Hpush) as (Hlen1 & Hperm1 & Hin1).
    destruct (IH centroids clusters1 Hne) as (clusters' & Hrun & Hlen' & Hperm' & Hin');
      [now rewrite Hlen1 |].
    exists clusters'. split; [exact Hrun |]. split; [exact Hlen' |]. split.
    + rewrite Hperm', Hperm1. simpl. apply Permutation_middle.
    + intros j cluster' v Hnth Hv.
      destruct (Hin' j cluster' v Hnth Hv) as [Hnear | (cluster1 & Hc1 & Hv1)];
        [left; exact Hnear |].
      destruct (Hin1 j cluster1 v Hc1 Hv1) as [[-> ->] | Hold];
        [left; reflexivity | right; exact Hold].
Qed.


(** The vector [1, 1] has the cosine 0.9999999999999998 with itself and 1
    with [3, 3]: it is put with the second centroid. *)
Example rounding_decides_the_cluster :
  nearest [Double.one; Double.one]
    [[Double.one; Double.one]; [Double.ofZ 3; Double.ofZ 3]] = 1.
Proof. vm_compute. reflexivity. Qed.

End GeometryFacts.

(* ===================================================================== *)
(** * SimpleTfIdf: the content signal of a pair *)
(* ===================================================================== *)

Section ContentSignalFacts.

Import SimpleTfIdf.

Local Open Scope R_scope.

Lemma frequencyOf_counted_exactly : forall ws entries k,
  NoDup ws ->
  frequencyOf k (fold_left countWord ws entries)
  = (frequencyOf k entries + (if Text.member k ws then 1 else 0))%nat.
Proof.
  induction ws as [|w ws IH]; intros entries k Hnd; simpl; [lia |].
  inversion Hnd as [|? ? Hw Hws]; subst.
  rewrite (IH _ k Hws). unfold countWord. rewrite frequencyOf_set.
  unfold Text.member. simpl. rewrite (String.eqb_sym k w).
  destruct (String.eqb w k) eqn:E; simpl; [| reflexivity].
  apply String.eqb_eq in E. subst k.
  replace (existsb (String.eqb w) ws) with false; [lia |].
  symmetry. apply not_true_is_false. intros H.
  apply existsb_exists in H as (x & Hx & Heq).
  apply String.eqb_eq in Heq. subst x. contradiction.
Qed.

Lemma member_distinct : forall k ws,
  Text.member k (Text.distinct ws) = Text.member k ws.
Proof.
  intros k ws. destruct (Text.member k ws) eqn:H.
  - apply member_In. apply distinct_In. now apply member_In.
  - apply not_true_is_false. intros H'.
    apply (proj1 (member_In _ _)) in H'. apply (proj1 (distinct_In _ _)) in H'.
    apply (proj2 (member_In _ _)) in H'. congruence.
Qed.

Lemma tf_absent : forall term document,
  Text.member term document = false -> tf term document = 0.
Proof.
  intros term document H. unfold tf. destruct document as [|w document]; [reflexivity |].
  replace (filter (fun word => String.eqb word term) (w :: document)) with (@nil string).
  - simpl. unfold Rdiv. apply Rmult_0_l.
  - symmetry. revert H. generalize (w :: document) as l.
    induction l as [|x l IH]; intros H; [reflexivity |]. simpl.
    unfold Text.member in H. simpl in H. apply orb_false_iff in H as [Hx Hl].
    rewrite String.eqb_sym, Hx. apply IH. exact Hl.
Qed.

Lemma dotOf_zero : forall (A : Type) (f g : A -> R) (l : list A),
  (forall x, f x * g x = 0) ->
  dotOf (combine (map f l) (map g l)) = 0.
Proof.
  intros A f g l H. induction l as [|x l IH]; simpl; [reflexivity |].
  rewrite IH, H. Lra.lra.
Qed.

(** X26. The content signal of [calculateContentSimilarity] is zero for
    every pair of contents.  The TF-IDF instance holds just the two
    documents: a term of both has the inverse document frequency
    [ln (2/2) = 0], and a term of one only has the term frequency zero in
    the other, so in every component one of the two vectors is zero and
    their cosine is zero. *)
Theorem similarityOfContents_is_zero : forall content1 content2,
  similarityOfContents content1 content2 = 0.
Proof.
  intros content1 content2. unfold similarityOfContents.
  destruct (_ || _)%bool eqn:Hshort; [reflexivity |].
  apply orb_false_iff in Hshort as [H1 H2].
  apply Nat.ltb_ge in H1, H2.
  destruct content1 as [|c1 content1]; [simpl in H1; lia |].
  destruct content2 as [|c2 content2]; [simpl in H2; lia |].
  unfold addDocument.
  remember (tokenize (String c1 content1)) as words1 eqn:Hw1. clear Hw1.
  remember (tokenize (String c2 content2)) as words2 eqn:Hw2. clear Hw2.
  cbn [documents vocabulary documentFrequencies empty app].
  set (st := {| documents := [words1; words2];
                vocabulary := fold_left addWord (Text.distinct words2)
                                (fold_left addWord (Text.distinct words1) []);
                documentFrequencies :=
                  fold_left countWord (Text.distinct words2)
                    (fold_left countWord (Text.distinct words1) []) |}).
  assert (Hzero : forall term, tfidf st term 0 * tfidf st term 1 = 0).
  { intros term. unfold tfidf. simpl nth_error.
    destruct (Text.member term words1) eqn:Hm1;
      [| rewrite (tf_absent term words1 Hm1); Lra.lra].
    destruct (Text.member term words2) eqn:Hm2;
      [| rewrite (tf_absent term words2 Hm2); Lra.lra].
    assert (Hidf : idf st term = 0).
    { unfold idf. simpl documentFrequencies.
      rewrite !frequencyOf_counted_exactly by apply distinct_NoDup.
      rewrite !member_distinct, Hm1, Hm2. simpl.
      match goal with
      | |- ln ?x = 0 => replace x with 1 by (field; Lra.lra)
      end.
      apply ln_1. }
    rewrite Hidf. Lra.lra. }
  unfold calculateSimilarity, getVector. simpl documents. simpl Nat.leb.
  cbv iota.
  set (terms := firstn 500 (vocabulary st)).
  destruct (map (fun term => tfidf st term 0) terms) as [|x v0] eqn:Hv0;
    [reflexivity |].
  destruct (map (fun term => tfidf st term 1) terms) as [|y v1] eqn:Hv1;
    [reflexivity |].
  rewrite <- Hv0, <- Hv1. unfold Vector.cosineSimilarity.
  rewrite !length_map, Nat.eqb_refl. simpl negb. cbv iota.
  rewrite accumulate_sums, dotOf_zero by exact Hzero.
  destruct (Req_dec_T _ 0); [reflexivity |].
  rewrite Rplus_0_l. unfold Rdiv. apply Rmult_0_l.
Qed.

End ContentSignalFacts.

(* ===================================================================== *)
(** * ClusteringEngine: what the similarities can reach *)
(* ===================================================================== *)

Section ClusterFacts.

Import ClusteringEngine.

Local Open Scope Q_scope.

Lemma overlap_bounds : forall xs ys,
  (0 < unionSize xs ys)%nat -> 0 <= overlap xs ys <= 1.
Proof.
  intros xs ys H. unfold overlap. cbv zeta.
  apply ratio_bounds; [apply intersection_le_union | exact H].
Qed.

Lemma calculateClusterSimilarity_bound : forall now a cluster,
  calculateClusterSimilarity now a cluster <= 0.25.
Proof.
  intros now a cluster. unfold calculateClusterSimilarity. cbv zeta.
  set (timeScore := Qmax 0 (1 - inject_Z (Z.abs (now - Cluster.updated cluster))
                                 / inject_Z (24 * 60 * 60 * 1000))).
  assert (Htime : timeScore <= 1).
  { unfold timeScore. apply Q.max_lub; [Lqa.lra |].
    assert (H : 0 <= inject_Z (Z.abs (now - Cluster.updated cluster))
                     / inject_Z (24 * 60 * 60 * 1000)).
    { apply Qle_shift_div_l; [reflexivity |]. rewrite Qmult_0_l.
      change 0 with (inject_Z 0). rewrite <- Zle_Qle. lia. }
    Lqa.lra. }
  apply Qle_shift_div_r; [reflexivity |].
  destruct (String.eqb (category a) (Cluster.category cluster));
    destruct (0 <? unionSize (tags a) (Cluster.tags cluster))%nat eqn:Hu;
    destruct (negb (String.eqb (source a) EmptyString)
              && Text.member (source a) (Cluster.sources cluster))%bool;
    try (apply Nat.ltb_lt in Hu;
         pose proof (overlap_bounds (tags a) (Cluster.tags cluster) Hu));
    Lqa.lra.
Qed.

(** X27. The similarity of an article to a cluster is at most 0.25: the
    four parts add up to at most one and the sum is divided by four.
    [findCandidateClusters] keeps the clusters with a similarity above 0.3,
    so it returns no cluster, whatever the article and the clusters. *)
Theorem findCandidateClusters_finds_none : forall cfg now a clusters,
  findCandidateClusters cfg now a clusters = []
  /\ forall cluster, calculateClusterSimilarity now a cluster <= 0.25.
Proof.
  intros cfg now a clusters. split; [| intros; apply calculateClusterSimilarity_bound].
  unfold findCandidateClusters. cbv zeta.
  induction (filter _ clusters) as [|cluster recent IH]; [reflexivity |].
  simpl map. simpl filter.
  replace (Qgtb (calculateClusterSimilarity now a cluster) 0.3) with false;
    [exact IH |].
  symmetry. apply not_true_is_false. intros H. apply Qgtb_true in H.
  pose proof (calculateClusterSimilarity_bound now a cluster). Lqa.lra.
Qed.

Lemma calculateClusterToClusterSimilarity_bound : forall c1 c2,
  calculateClusterToClusterSimilarity c1 c2 <= 1 # 3.
Proof.
  intros c1 c2. unfold calculateClusterToClusterSimilarity. cbv zeta.
  apply Qle_shift_div_r; [reflexivity |].
  destruct (String.eqb (Cluster.category c1) (Cluster.category c2));
    destruct (0 <? unionSize (Cluster.sources c1) (Cluster.sources c2))%nat eqn:Hs;
    destruct (0 <? unionSize (Cluster.tags c1) (Cluster.tags c2))%nat eqn:Ht;
    try (apply Nat.ltb_lt in Hs;
         pose proof (overlap_bounds (Cluster.sources c1) (Cluster.sources c2) Hs));
    try (apply Nat.ltb_lt in Ht;
         pose proof (overlap_bounds (Cluster.tags c1) (Cluster.tags c2) Ht));
    Lqa.lra.
Qed.

(** X28. The similarity of two clusters is at most one third: the three
    parts add up to at most one and the sum is divided by three.
    [findMergeCandidates] therefore proposes no merge for a threshold of a
    third or more, and so none for its default threshold of 0.8. *)
Theorem findMergeCandidates_finds_none : forall threshold clusters,
  1 # 3 <= threshold ->
  findMergeCandidates threshold clusters = [].
Proof.
  intros threshold clusters Hthreshold. unfold findMergeCandidates. cbv zeta.
  induction (pairs clusters) as [|p ps IH]; [reflexivity |].
  simpl map. simpl filter.
  replace (Qgtb (calculateClusterToClusterSimilarity (fst p) (snd p)) threshold)
    with false; [exact IH |].
  symmetry. apply not_true_is_false. intros H. apply Qgtb_true in H.
  pose proof (calculateClusterToClusterSimilarity_bound (fst p) (snd p)). Lqa.lra.
Qed.

Lemma findMergeCandidates_finds_none_witness :
  findMergeCandidates 0.8 [clusterOfA; clusterOfB] = [].
Proof.
  apply (findMergeCandidates_finds_none 0.8 [clusterOfA; clusterOfB]).
  unfold Qle. simpl. lia.
Defined.

(** Two clusters that agree in category, sources and tags reach the bound
    of one third. *)
Example like_clusters_score_a_third :
  calculateClusterToClusterSimilarity clusterOfA clusterOfB == 1 # 3.
Proof. vm_compute. reflexivity. Qed.

End ClusterFacts.

(* ===================================================================== *)
(** * EntityExtractor: what [filterAndDeduplicate] returns *)
(* ===================================================================== *)

Section EntityFacts.

Import EntityExtractor.

Lemma keepFrom_spec : forall found seen,
  NoDup (map keyOf (keepFrom seen found))
  /\ forall e, In e (keepFrom seen found) ->
       ~ In (keyOf e) seen /\ isValidEntity e = true /\ In e found.
Proof.
  induction found as [|entity rest IH]; intros seen.
  - split; [constructor | intros e []].
  - cbn [keepFrom]. cbv zeta.
    destruct (negb (Text.member (keyOf entity) seen) && isValidEntity entity)%bool
      eqn:Hkeep.
    + apply andb_true_iff in Hkeep as [Hnew Hvalid].
      apply negb_true_iff in Hnew.
      destruct (IH (keyOf entity :: seen)) as [Hnodup Hin].
      split.
      * cbn [map]. constructor; [| exact Hnodup].
        intros Hkey. apply in_map_iff in Hkey as [e [Heq He]].
        destruct (Hin e He) as [Hseen _]. apply Hseen. left. now symmetry.
      * intros e [<- | He].
        -- split; [| split; [exact Hvalid | now left]].
           intros Hseen. apply (proj2 (member_In _ _)) in Hseen. congruence.
        -- destruct (Hin e He) as [Hseen [Hv Hr]].
           split; [| split; [exact Hv | now right]].
           intros Hs. apply Hseen. now right.
    + destruct (IH seen) as [Hnodup Hin]. split; [exact Hnodup |].
      intros e He. destruct (Hin e He) as [Hseen [Hv Hr]].
      split; [exact Hseen | split; [exact Hv | now right]].
Qed.

Lemma insertByConfidence_permutation : forall x xs,
  Permutation (insertByConfidence x xs) (x :: xs).
Proof.
  intros x. induction xs as [|y ys IH]; cbn [insertByConfidence]; [reflexivity |].
  destruct (Qgtb _ _); [| reflexivity].
  rewrite IH. apply perm_swap.
Qed.

Lemma sortByConfidence_permutation : forall xs,
  Permutation (sortByConfidence xs) xs.
Proof.
  induction xs as [|x xs IH]; cbn [sortByConfidence fold_right]; [reflexivity |].
  rewrite insertByConfidence_permutation. now constructor.
Qed.

Lemma insertByConfidence_sorted : forall x xs,
  StronglySorted surestFirst xs ->
  StronglySorted surestFirst (insertByConfidence x xs).
Proof.
  intros x. induction xs as [|z zs IH]; intros Hs; cbn [insertByConfidence].
  - repeat constructor.
  - inversion Hs as [|? ? Hzs Hz]; subst.
    destruct (Qgtb (Entity.confidence z) (Entity.confidence x)) eqn:Hgt.
    + apply Qgtb_true in Hgt. constructor; [apply IH; exact Hzs |].
      apply Forall_forall. intros y Hy.
      apply (Permutation_in _ (insertByConfidence_permutation x zs)) in Hy.
      destruct Hy as [<- | Hy].
      * unfold surestFirst. now apply Qlt_le_weak.
      * exact (proj1 (Forall_forall _ _) Hz y Hy).
    + apply Qgtb_false in Hgt. constructor; [exact Hs |].
      constructor; [exact Hgt |].
      apply Forall_forall. intros y Hy.
      pose proof (proj1 (Forall_forall _ _) Hz y Hy) as Hzy.
      unfold surestFirst in *. eapply Qle_trans; eassumption.
Qed.

Lemma sortByConfidence_sorted : forall xs,
  StronglySorted surestFirst (sortByConfidence xs).
Proof.
  induction xs as [|x xs IH]; cbn [sortByConfidence fold_right];
    [constructor | now apply insertByConfidence_sorted].
Qed.

Lemma nodup_firstn : forall (A : Type) n (xs : list A),
  NoDup xs -> NoDup (firstn n xs).
Proof.
  intros A n xs H. rewrite <- (firstn_skipn n xs) in H.
  exact (NoDup_app_remove_r _ _ H).
Qed.

(** X29. [filterAndDeduplicate] returns at most fifty entities, the surest
    first; each of them is one of the given entities and is a valid one,
    and no two of them have the same key (lower-cased name and type). *)
Theorem filterAndDeduplicate_result : forall entities,
  (List.length (filterAndDeduplicate entities) <= 50)%nat
  /\ StronglySorted surestFirst (filterAndDeduplicate entities)
  /\ NoDup (map keyOf (filterAndDeduplicate entities))
  /\ forall e, In e (filterAndDeduplicate entities) ->
       In e entities /\ isValidEntity e = true.
Proof.
  intros entities. unfold filterAndDeduplicate.
  destruct (keepFrom_spec entities []) as [Hnodup Hin].
  pose proof (sortByConfidence_permutation (keepFrom [] entities)) as Hperm.
  split; [apply firstn_le_length |].
  split; [apply sorted_firstn, sortByConfidence_sorted |].
  split.
  - rewrite <- firstn_map. apply nodup_firstn.
    apply (Permutation_NoDup (Permutation_sym (Permutation_map keyOf Hperm))).
    exact Hnodup.
  - intros e He. apply firstn_incl in He.
    apply (Permutation_in _ Hperm) in He.
    destruct (Hin e He) as [_ [Hv Hr]]. now split.
Qed.

End EntityFacts.
